(** * scrape_this: the crawl engine, embedded and verified

    A shallow embedding of [scrape_this.py]: the URL classifier
    ([is_subdomain_of], [is_same_or_subdomain], [get_link_type]), the link
    filters ([filter_by_extensions], [filter_by_types], [filter_links]), the
    per-page link extractor ([detect_link_source], [extract_links_from_page])
    and the breadth-first crawl loop of the [scrape] command.

    Python [str] values are Rocq [string]s read as ASCII text (URLs are ASCII
    by RFC 3986); Python [int]s are [Z]; Python sets are [gset]; the
    insertion-ordered [dict] of the extractor is an association list; a call
    that may raise returns an [option]. *)

From Stdlib Require Import ZArith Ascii String List Lia.
From stdpp Require Import base option list strings gmap sets sorting.

Local Open Scope Z_scope.

(** ** The [str] methods the program calls *)

Module Py.

(** [str.isspace] on ASCII: TAB..CR, FS..US and the space. *)
Definition is_space (c : ascii) : bool :=
  let n := nat_of_ascii c in
  (Nat.leb 9 n && Nat.leb n 13) || (Nat.leb 28 n && Nat.leb n 32).

Definition lower_char (c : ascii) : ascii :=
  let n := nat_of_ascii c in
  if Nat.leb 65 n && Nat.leb n 90 then ascii_of_nat (n + 32) else c.

(** [s.lower()] *)
Fixpoint lower (s : string) : string :=
  match s with
  | EmptyString => EmptyString
  | String c s' => String (lower_char c) (lower s')
  end.

(** [s.lstrip()] *)
Fixpoint lstrip (s : string) : string :=
  match s with
  | EmptyString => EmptyString
  | String c s' => if is_space c then lstrip s' else s
  end.

(** [s.rstrip()] *)
Fixpoint rstrip (s : string) : string :=
  match s with
  | EmptyString => EmptyString
  | String c s' =>
      match rstrip s' with
      | EmptyString => if is_space c then EmptyString else String c EmptyString
      | r => String c r
      end
  end.

(** [s.strip()] *)
Definition strip (s : string) : string := rstrip (lstrip s).

(** [s.lstrip(c)] for a one-character argument. *)
Fixpoint lstrip_char (c : ascii) (s : string) : string :=
  match s with
  | EmptyString => EmptyString
  | String a s' => if Ascii.eqb a c then lstrip_char c s' else s
  end.

(** [s.startswith(p)] *)
Definition startswith (p s : string) : bool := String.prefix p s.

(** [s.endswith(suf)]: some tail of [s] is [suf]. *)
Fixpoint endswith (suf s : string) : bool :=
  if String.eqb s suf then true
  else match s with
       | EmptyString => false
       | String _ s' => endswith suf s'
       end.

(** [sub in s] *)
Fixpoint contains (sub s : string) : bool :=
  if String.prefix sub s then true
  else match s with
       | EmptyString => false
       | String _ s' => contains sub s'
       end.

(** [s.replace(old, new)] for a non-empty [old]: the occurrences are
    replaced from left to right and do not overlap.  [skip] counts the
    characters of a matched occurrence that are still to be dropped. *)
Fixpoint replace_go (old new : string) (skip : nat) (s : string) : string :=
  match s with
  | EmptyString => EmptyString
  | String c s' =>
      match skip with
      | S k => replace_go old new k s'
      | O =>
          if String.prefix old s
          then new +:+ replace_go old new (Nat.pred (String.length old)) s'
          else String c (replace_go old new O s')
      end
  end.

Definition replace (old new s : string) : string := replace_go old new O s.

(** [s.split(sep)] for a one-character separator. *)
Fixpoint split (sep : ascii) (s : string) : list string :=
  match s with
  | EmptyString => [EmptyString]
  | String c s' =>
      if Ascii.eqb c sep then EmptyString :: split sep s'
      else match split sep s' with
           | h :: t => String c h :: t
           | [] => [String c EmptyString]
           end
  end.

(** [s.split()]: the maximal runs of non-space characters. *)
Fixpoint split_ws_go (cur : string) (s : string) : list string :=
  match s with
  | EmptyString => if String.eqb cur "" then [] else [cur]
  | String c s' =>
      if is_space c
      then (if String.eqb cur "" then [] else [cur]) ++ split_ws_go "" s'
      else split_ws_go (cur +:+ String c "") s'
  end.

Definition split_ws (s : string) : list string := split_ws_go "" s.

(** [sep.join(l)] *)
Fixpoint join (sep : string) (l : list string) : string :=
  match l with
  | [] => ""
  | [x] => x
  | x :: l' => x +:+ sep +:+ join sep l'
  end.

(** [s.rfind(c)] for a one-character argument; [None] is Python's -1. *)
Fixpoint rfind (c : ascii) (s : string) : option nat :=
  match s with
  | EmptyString => None
  | String a s' =>
      match rfind c s' with
      | Some i => Some (S i)
      | None => if Ascii.eqb a c then Some O else None
      end
  end.

(** [s.find(c)] for a one-character argument. *)
Fixpoint find (c : ascii) (s : string) : option nat :=
  match s with
  | EmptyString => None
  | String a s' =>
      if Ascii.eqb a c then Some O
      else match find c s' with Some i => Some (S i) | None => None end
  end.

(** [s[i:]] and [s[:i]] *)
Fixpoint drop (i : nat) (s : string) : string :=
  match i, s with
  | S k, String _ s' => drop k s'
  | _, _ => s
  end.

Fixpoint take (i : nat) (s : string) : string :=
  match i, s with
  | S k, String c s' => String c (take k s')
  | _, _ => EmptyString
  end.

(** [any(f(x) for x in l)] *)
Definition any {A} (f : A → bool) (l : list A) : bool := existsb f l.

(** No character of [s] is a space. *)
Fixpoint no_space (s : string) : bool :=
  match s with
  | EmptyString => true
  | String c s' => negb (is_space c) && no_space s'
  end.

End Py.

(** ** [pathlib]: the suffix of a path

    [Path(p).name] is the last component of [p] once the empty and the
    ["."] components are dropped; [Path(p).suffix] is the part of the name
    from its last dot on, provided that dot is neither the first nor the
    last character of the name. *)

Definition path_name (p : string) : string :=
  List.last
    (List.filter (fun c => negb (String.eqb c "") && negb (String.eqb c "."))
       (Py.split "/" p))
    "".

Definition path_suffix (p : string) : string :=
  let name := path_name p in
  match Py.rfind "." name with
  | Some i =>
      if Nat.ltb 0 i && Nat.ltb i (String.length name - 1)
      then Py.drop i name else ""
  | None => ""
  end.

(** ** [urllib.parse]

    The program reaches URLs only through [urlparse] and [urljoin] of the
    standard library, taken here as total functions.  The results are
    stated for every implementation of the two; [cpython_urllib] below
    follows CPython's and runs the examples. *)

Record ParseResult := mkParseResult {
  scheme : string;
  netloc : string;
  path : string;
  params : string;
  query : string;
  fragment : string
}.

Class UrlLib := {
  urlparse : string → ParseResult;
  urljoin : string → string → string
}.

(** *** CPython's [urllib.parse], for the examples

    [urlsplit], [urlparse], [urlunparse] and [urljoin] as CPython 3.12
    writes them.  Left out: the [ValueError] raised for a netloc with
    unbalanced brackets or with characters that NFKC-normalise to a
    delimiter (no example below has one). *)

Module CPython.

Definition in_list (x : string) (l : list string) : bool :=
  existsb (String.eqb x) l.

Definition uses_relative : list string :=
  [""; "ftp"; "http"; "gopher"; "nntp"; "imap"; "wais"; "file"; "https";
   "shttp"; "mms"; "prospero"; "rtsp"; "rtspu"; "sftp"; "svn"; "svn+ssh";
   "ws"; "wss"].

Definition uses_netloc : list string :=
  [""; "ftp"; "http"; "gopher"; "nntp"; "telnet"; "imap"; "wais"; "file";
   "mms"; "https"; "shttp"; "snews"; "prospero"; "rtsp"; "rtspu"; "rsync";
   "svn"; "svn+ssh"; "sftp"; "nfs"; "git"; "git+ssh"; "ws"; "wss"].

Definition uses_params : list string :=
  [""; "ftp"; "hdl"; "prospero"; "http"; "imap"; "https"; "shttp"; "rtsp";
   "rtspu"; "sip"; "sips"; "mms"; "sftp"; "tel"].

Definition between (lo hi : nat) (c : ascii) : bool :=
  let n := nat_of_ascii c in Nat.leb lo n && Nat.leb n hi.

Definition is_alpha (c : ascii) : bool := between 65 90 c || between 97 122 c.

(** [scheme_chars]: letters, digits and ["+-."] *)
Definition is_scheme_char (c : ascii) : bool :=
  is_alpha c || between 48 57 c
  || Ascii.eqb c "+" || Ascii.eqb c "-" || Ascii.eqb c ".".

Fixpoint all_chars (p : ascii → bool) (s : string) : bool :=
  match s with
  | EmptyString => true
  | String c s' => p c && all_chars p s'
  end.

Fixpoint remove_chars (p : ascii → bool) (s : string) : string :=
  match s with
  | EmptyString => EmptyString
  | String c s' => if p c then remove_chars p s' else String c (remove_chars p s')
  end.

Fixpoint lstrip_chars (p : ascii → bool) (s : string) : string :=
  match s with
  | EmptyString => EmptyString
  | String c s' => if p c then lstrip_chars p s' else s
  end.

(** The part of [s] before its first character in [p], and the rest. *)
Fixpoint break_at (p : ascii → bool) (s : string) : string * string :=
  match s with
  | EmptyString => (EmptyString, EmptyString)
  | String c s' =>
      if p c then (EmptyString, s)
      else let '(a, b) := break_at p s' in (String c a, b)
  end.

(** [a, b = s.split(c, 1)] when [c in s] *)
Definition split_once (c : ascii) (s : string) : option (string * string) :=
  match Py.find c s with
  | Some i => Some (Py.take i s, Py.drop (S i) s)
  | None => None
  end.

Definition head_is (p : ascii → bool) (s : string) : bool :=
  match s with String c _ => p c | EmptyString => false end.

Definition split_scheme (default url : string) : string * string :=
  match Py.find ":" url with
  | Some (S i) =>
      if head_is is_alpha url && all_chars is_scheme_char (Py.take (S i) url)
      then (Py.lower (Py.take (S i) url), Py.drop (S (S i)) url)
      else (default, url)
  | _ => (default, url)
  end.

Definition is_netloc_delim (c : ascii) : bool :=
  Ascii.eqb c "/" || Ascii.eqb c "?" || Ascii.eqb c "#".

Definition is_tab_or_newline (c : ascii) : bool :=
  Ascii.eqb c "009" || Ascii.eqb c "010" || Ascii.eqb c "013".

(** [urlsplit(url, scheme)]: scheme, netloc, path, query, fragment *)
Definition urlsplit (default url : string)
  : string * string * string * string * string :=
  let url := lstrip_chars (between 0 32) url in
  let url := remove_chars is_tab_or_newline url in
  let '(sch, url) := split_scheme default url in
  let '(net, url) :=
    if Py.startswith "//" url then break_at is_netloc_delim (Py.drop 2 url)
    else ("", url) in
  let '(url, frag) :=
    match split_once "#" url with Some r => r | None => (url, "") end in
  let '(url, qry) :=
    match split_once "?" url with Some r => r | None => (url, "") end in
  (sch, net, url, qry, frag).

Definition splitparams (url : string) : string * string :=
  match Py.rfind "/" url with
  | Some j =>
      match Py.find ";" (Py.drop j url) with
      | Some k => (Py.take (j + k) url, Py.drop (S (j + k)) url)
      | None => (url, "")
      end
  | None =>
      match Py.find ";" url with
      | Some i => (Py.take i url, Py.drop (S i) url)
      | None => (Py.take (String.length url - 1) url, url)
      end
  end.

(** [urlparse(url, scheme)] *)
Definition urlparse_with (default url : string) : ParseResult :=
  let '(sch, net, url, qry, frag) := urlsplit default url in
  let '(url, prm) :=
    if in_list sch uses_params && Py.contains ";" url
    then splitparams url else (url, "") in
  mkParseResult sch net url prm qry frag.

Definition urlunsplit (sch net url qry frag : string) : string :=
  let url :=
    if negb (String.eqb net "")
       || (negb (String.eqb sch "") && in_list sch uses_netloc
           && negb (Py.startswith "//" url))
    then "//" +:+ net +:+
         (if negb (String.eqb url "") && negb (Py.startswith "/" url)
          then "/" +:+ url else url)
    else url in
  let url := if String.eqb sch "" then url else sch +:+ ":" +:+ url in
  let url := if String.eqb qry "" then url else url +:+ "?" +:+ qry in
  if String.eqb frag "" then url else url +:+ "#" +:+ frag.

Definition urlunparse (r : ParseResult) : string :=
  let url :=
    if String.eqb (params r) "" then path r
    else path r +:+ ";" +:+ params r in
  urlunsplit (scheme r) (netloc r) url (query r) (fragment r).

(** [segments\[1:-1\] = filter(None, segments\[1:-1\])] *)
Definition drop_inner_empty (segments : list string) : list string :=
  match segments with
  | [] => []
  | [x] => [x]
  | x :: rest =>
      x :: List.filter (fun s => negb (String.eqb s ""))
             (List.removelast rest) ++ [List.last rest ""]
  end.

(** The loop over [segments] that removes the dot segments. *)
Definition resolve (segments : list string) : list string :=
  fold_left
    (fun resolved_path seg =>
       if String.eqb seg ".." then List.removelast resolved_path
       else if String.eqb seg "." then resolved_path
       else resolved_path ++ [seg])
    segments [].

Definition urljoin (base url : string) : string :=
  if String.eqb base "" then url
  else if String.eqb url "" then base
  else
    let b := urlparse_with "" base in
    let u := urlparse_with (scheme b) url in
    if negb (String.eqb (scheme u) (scheme b))
       || negb (in_list (scheme u) uses_relative)
    then url
    else if in_list (scheme u) uses_netloc && negb (String.eqb (netloc u) "")
    then urlunparse u
    else
      let net := if in_list (scheme u) uses_netloc then netloc b else netloc u in
      if String.eqb (path u) "" && String.eqb (params u) ""
      then urlunparse
             (mkParseResult (scheme u) net (path b) (params b)
                (if String.eqb (query u) "" then query b else query u)
                (fragment u))
      else
        let base_parts := Py.split "/" (path b) in
        let base_parts :=
          if String.eqb (List.last base_parts "") "" then base_parts
          else List.removelast base_parts in
        let segments :=
          if Py.startswith "/" (path u) then Py.split "/" (path u)
          else drop_inner_empty (base_parts ++ Py.split "/" (path u)) in
        let resolved_path := resolve segments in
        let resolved_path :=
          if in_list (List.last segments "") ["."; ".."]
          then resolved_path ++ [""] else resolved_path in
        let joined := Py.join "/" resolved_path in
        urlunparse
          (mkParseResult (scheme u) net
             (if String.eqb joined "" then "/" else joined)
             (params u) (query u) (fragment u)).

End CPython.

#[export] Instance cpython_urllib : UrlLib := {
  urlparse := CPython.urlparse_with "";
  urljoin := CPython.urljoin
}.

(** ** UrlClassifier *)

(** [is_subdomain_of(domain, base_domain)] *)
Definition is_subdomain_of (domain base_domain : string) : bool :=
  if String.eqb domain "" || String.eqb base_domain ""
     || String.eqb domain base_domain
  then false
  else
    let domain_clean := Py.replace "www." "" domain in
    let base_clean := Py.replace "www." "" base_domain in
    if String.eqb domain_clean base_clean then false
    else Py.endswith ("." +:+ base_clean) domain_clean.

(** [is_same_or_subdomain(domain, base_domain)] *)
Definition is_same_or_subdomain (domain base_domain : string) : bool :=
  if String.eqb domain "" || String.eqb base_domain "" then false
  else
    let domain_clean := Py.replace "www." "" domain in
    let base_clean := Py.replace "www." "" base_domain in
    if String.eqb domain_clean base_clean then true
    else Py.endswith ("." +:+ base_clean) domain_clean.

Definition image_extensions : gset string :=
  list_to_set [".jpg"; ".jpeg"; ".png"; ".gif"; ".bmp"; ".svg"; ".webp"; ".ico"].
Definition doc_extensions : gset string :=
  list_to_set [".pdf"; ".doc"; ".docx"; ".xls"; ".xlsx"; ".ppt"; ".pptx";
               ".txt"; ".rtf"].
Definition video_extensions : gset string :=
  list_to_set [".mp4"; ".avi"; ".mkv"; ".mov"; ".wmv"; ".flv"; ".webm"].
Definition audio_extensions : gset string :=
  list_to_set [".mp3"; ".wav"; ".flac"; ".aac"; ".ogg"; ".wma"].
Definition archive_extensions : gset string :=
  list_to_set [".zip"; ".rar"; ".tar"; ".gz"; ".7z"; ".bz2"].
Definition code_extensions : gset string :=
  list_to_set [".js"; ".css"; ".json"; ".xml"; ".html"; ".htm"; ".php"; ".py";
               ".java"].

(** [get_link_type(url)] *)
Definition get_link_type `{UrlLib} (url : string) : string :=
  let parsed := urlparse url in
  let path := Py.lower (path parsed) in
  let file_ext := Py.lower (path_suffix path) in
  if bool_decide (file_ext ∈ image_extensions) then "image"
  else if bool_decide (file_ext ∈ doc_extensions) then "document"
  else if bool_decide (file_ext ∈ video_extensions) then "video"
  else if bool_decide (file_ext ∈ audio_extensions) then "audio"
  else if bool_decide (file_ext ∈ archive_extensions) then "archive"
  else if bool_decide (file_ext ∈ code_extensions) then "code"
  else if Py.contains "?" (query parsed) || Py.contains "api" path then "api"
  else if String.eqb file_ext "" then "page"
  else "other".

(** ** The data model *)

(** A link record: the dictionary [link_data] built by
    [extract_links_from_page].  (The fields that [validate_links] adds
    later play no part here.) *)
Record Link := mkLink {
  url : string;
  text : string;
  domain : string;
  link_path : string;
  link_query : string;
  link_fragment : string;
  is_internal : bool;
  is_subdomain : bool;
  link_type : string;
  source : string;
  original_href : string;
  found_on_page : string
}.

#[export] Instance Link_eq_dec : EqDecision Link.
Proof. solve_decision. Defined.

(** ** LinkFilterPipeline *)

(** [filter_by_extensions(links, extension_filters)] *)
Definition filter_by_extensions (links : list Link)
    (extension_filters : list string) : list Link :=
  fold_left
    (fun filtered link =>
       let url := Py.lower (url link) in
       if Py.any (fun ext => Py.endswith ("." +:+ ext) url) extension_filters
       then filtered ++ [link]
       else filtered)
    links [].

Definition type_groups : gmap string (list string) :=
  list_to_map
    [("images", ["image"]);
     ("documents", ["document"]);
     ("media", ["video"; "audio"]);
     ("pages", ["page"]);
     ("files", ["document"; "image"; "video"; "audio"; "archive"]);
     ("code", ["code"]);
     ("api", ["api"])].

(** The loop of [filter_by_types] that expands the group names. *)
Definition expand_filters (type_filters : list string) : gset string :=
  fold_left
    (fun expanded_filters filter_type =>
       match type_groups !! filter_type with
       | Some types => expanded_filters ∪ list_to_set types
       | None => expanded_filters ∪ {[filter_type]}
       end)
    type_filters ∅.

(** [filter_by_types(links, type_filters)] *)
Definition filter_by_types (links : list Link)
    (type_filters : list string) : list Link :=
  let expanded_filters := expand_filters type_filters in
  fold_left
    (fun filtered link =>
       let link_type := link_type link in
       let url := Py.lower (url link) in
       if bool_decide (link_type ∈ expanded_filters)
       then filtered ++ [link]
       else if Py.any (fun filter_ext => Py.contains ("." +:+ filter_ext) url)
                 type_filters
       then filtered ++ [link]
       else filtered)
    links [].

(** A command-line option that may be absent; [None] and the empty
    string are both falsy. *)
Definition given (o : option string) : option string :=
  match o with
  | Some s => if String.eqb s "" then None else Some s
  | None => None
  end.

(** [filter_links(links, internal_only, external_only, subdomains_only,
    extensions, filter_types, unique_only, existing_links)]; the last two
    arguments are not read by the body. *)
Definition filter_links (links : list Link)
    (internal_only external_only subdomains_only : bool)
    (extensions filter_types : option string)
    (unique_only : bool) (existing_links : option (list Link)) : list Link :=
  let filtered := links in
  let filtered :=
    if internal_only then List.filter is_internal filtered
    else if external_only
    then List.filter (fun l => negb (is_internal l) && negb (is_subdomain l))
           filtered
    else if subdomains_only then List.filter is_subdomain filtered
    else filtered in
  let filtered :=
    match given extensions with
    | Some extensions =>
        let extension_filters :=
          map (fun ext => Py.lstrip_char "." (Py.lower (Py.strip ext)))
            (Py.split "," extensions) in
        filter_by_extensions filtered extension_filters
    | None => filtered
    end in
  let filtered :=
    match given filter_types with
    | Some filter_types =>
        let type_filters :=
          map (fun t => Py.lower (Py.strip t)) (Py.split "," filter_types) in
        filter_by_types filtered type_filters
    | None => filtered
    end in
  filtered.

(** ** The fetched page

    What the program asks of a Scrapling response: [response.css(selector)]
    returns elements, and the program probes each one with [hasattr].  A
    [Tag] is an element with [attrs], [text] and a chain of parents (their
    [attrs], nearest first); an [ElemText] is a text result such as those
    of ['a::attr(href)'], which has none of the three and whose [str] is
    its content.  A query that raises is [None]. *)

Record Tag := mkTag {
  tag_attrs : gmap string string;
  tag_text : string;
  tag_parents : list (gmap string string)
}.

Inductive Element :=
| ElemTag (t : Tag)
| ElemText (s : string).

Record Response := mkResponse {
  css : string → option (list Element);
  resp_title : string
}.

(** [hasattr(l, 'attrs') and l.attrs.get('href') == href] *)
Definition has_href (href : string) (l : Element) : bool :=
  match l with
  | ElemTag t => bool_decide (tag_attrs t !! "href" = Some href)
  | ElemText _ => false
  end.

(** ** DOM-region heuristic *)

(** The attribute selector [[attr*="word"] a]. *)
Definition attr_has (attr word : string) : string :=
  let quote := String (ascii_of_nat 34) "" in
  "[" +:+ attr +:+ "*=" +:+ quote +:+ word +:+ quote +:+ "] a".

(** The region selectors of method 1, in the order they are tried. *)
Definition region_selectors : list (string * string) :=
  [(Py.join ", " ["nav a"; attr_has "class" "nav"; attr_has "id" "nav";
                  attr_has "class" "menu"; attr_has "id" "menu"],
    "navigation");
   (Py.join ", " ["header a"; attr_has "class" "header";
                  attr_has "id" "header"; attr_has "class" "banner"],
    "header");
   (Py.join ", " ["footer a"; attr_has "class" "footer";
                  attr_has "id" "footer"],
    "footer");
   (Py.join ", " ["aside a"; attr_has "class" "sidebar";
                  attr_has "id" "sidebar"; attr_has "class" "side"],
    "sidebar");
   (Py.join ", " ["main a"; attr_has "class" "main";
                  attr_has "class" "content"; "article a"],
    "main_content");
   (Py.join ", " [attr_has "class" "breadcrumb"; attr_has "id" "breadcrumb";
                  attr_has "class" "crumb"],
    "breadcrumb")].

(** Method 1: the first region whose selector returns a link with the
    same [href]; a query that raises abandons the method. *)
Fixpoint region_by_selector (response : Response) (href : string)
    (regions : list (string * string)) : option string :=
  match regions with
  | [] => None
  | (selector, region) :: rest =>
      match css response selector with
      | None => None
      | Some links =>
          if Py.any (has_href href) links then Some region
          else region_by_selector response href rest
      end
  end.

(** The first entry of a keyword table one of whose words occurs in [s]:
    the [if any(...) ... elif any(...) ...] chains. *)
Fixpoint first_keyword_match (s : string) (table : list (list string * string))
    : option string :=
  match table with
  | [] => None
  | (words, region) :: rest =>
      if Py.any (fun w => Py.contains w s) words then Some region
      else first_keyword_match s rest
  end.

(** Method 2: the [class] and [id] tokens of up to five parents. *)
Definition region_by_parents (link_element : Tag) : option string :=
  let levels := List.firstn 5 (tag_parents link_element) in
  let parent_classes :=
    concat (map (fun attrs =>
                   match attrs !! "class" with
                   | Some c => Py.split_ws (Py.lower c)
                   | None => []
                   end) levels) in
  let parent_ids :=
    concat (map (fun attrs =>
                   match attrs !! "id" with
                   | Some i => [Py.lower i]
                   | None => []
                   end) levels) in
  let all_attributes := Py.join " " (parent_classes ++ parent_ids) in
  first_keyword_match all_attributes
    [(["nav"; "navigation"; "menu"], "navigation");
     (["header"; "banner"; "top"], "header");
     (["footer"; "bottom"], "footer");
     (["sidebar"; "aside"; "side"], "sidebar");
     (["main"; "article"; "content"; "body"], "main_content");
     (["breadcrumb"; "breadcrumbs"; "crumb"], "breadcrumb")].

(** Method 3: the anchor text, then the href. *)
Definition region_by_text (link_element : Tag) (href : string) : option string :=
  let link_text := Py.lower (tag_text link_element) in
  match first_keyword_match link_text
          [(["home"; "index"; "main"], "navigation");
           (["contact"; "about"; "privacy"; "terms"], "footer");
           (["login"; "register"; "account"; "profile"], "header");
           (["read more"; "continue"; "next"; "previous"], "main_content")]
  with
  | Some region => Some region
  | None =>
      first_keyword_match (Py.lower href)
        [(["/contact"; "/about"; "/privacy"; "/terms"], "footer");
         (["/login"; "/register"; "/account"; "/profile"], "header");
         (["/home"; "/index"; "/"], "navigation")]
  end.

(** [detect_link_source(link_element, response)] *)
Definition detect_link_source (link_element : Tag) (response : Response)
    : string :=
  let href := default "" (tag_attrs link_element !! "href") in
  match region_by_selector response href region_selectors with
  | Some region => region
  | None =>
      match region_by_parents link_element with
      | Some region => region
      | None =>
          match region_by_text link_element href with
          | Some region => region
          | None => "content"
          end
      end
  end.

(** ** LinkExtractor *)

(** The value stored per href in [href_to_data]. *)
Record LinkInfo := mkLinkInfo {
  info_text : string;
  info_source : string;
  info_element : option Tag
}.

(** [d\[k\] = v] on a [dict]: a key that is present keeps its place and
    takes the new value, a new key goes to the end. *)
Fixpoint dict_set {V} (k : string) (v : V) (d : list (string * V))
    : list (string * V) :=
  match d with
  | [] => [(k, v)]
  | (k', v') :: d' =>
      if String.eqb k' k then (k, v) :: d' else (k', v') :: dict_set k v d'
  end.

(** First pass: every anchor with [attrs] and a non-empty [href]. *)
Definition collect_anchors (response : Response)
    (link_elements : list Element) : list (string * LinkInfo) :=
  fold_left
    (fun href_to_data elem =>
       match elem with
       | ElemTag t =>
           let href := default "" (tag_attrs t !! "href") in
           if String.eqb href "" then href_to_data
           else
             let href := Py.strip href in
             let text_content := Py.strip (tag_text t) in
             let source := detect_link_source t response in
             dict_set href (mkLinkInfo text_content source (Some t))
               href_to_data
       | ElemText _ => href_to_data
       end)
    link_elements [].

(** [href_elem.text if hasattr(href_elem, 'text') else str(href_elem)] *)
Definition text_or_str (e : Element) : string :=
  match e with
  | ElemTag t => tag_text t
  | ElemText s => s
  end.

(** Fallback pass over ['a::attr(href)'], run when the first pass
    collected nothing. *)
Definition collect_fallback (response : Response) : list (string * LinkInfo) :=
  match css response "a::attr(href)" with
  | None => []
  | Some href_elements =>
      fold_left
        (fun href_to_data href_elem =>
           let href_text := text_or_str href_elem in
           if String.eqb href_text "" then href_to_data
           else dict_set (Py.strip href_text) (mkLinkInfo "" "unknown" None)
                  href_to_data)
        href_elements []
  end.

(** The domain classification of one link: the four statements of
    [extract_links_from_page] that set [is_internal] and [is_subdomain]. *)
Definition classify_domain (netloc base_domain : string)
    (include_subdomains : bool) : bool * bool :=
  let is_internal := String.eqb netloc base_domain || String.eqb netloc "" in
  let is_subdomain := is_subdomain_of netloc base_domain in
  let is_internal :=
    if is_same_or_subdomain netloc base_domain then true else is_internal in
  let is_internal :=
    if include_subdomains && is_subdomain then true else is_internal in
  (is_internal, is_subdomain).

(** The test that skips an href before it is resolved. *)
Definition skipped_href (href : string) : bool :=
  Py.startswith "#" href || Py.startswith "mailto:" href
  || Py.startswith "javascript:" href.

(** The body of the loop over [href_to_data.items()]: the link built for
    one href, if any. *)
Definition build_link `{UrlLib} (current_url base_domain : string)
    (include_subdomains : bool) (href : string) (link_info : LinkInfo)
    : option Link :=
  if String.eqb href "" then None
  else if skipped_href href then None
  else
    let absolute_url := urljoin current_url href in
    let parsed_url := urlparse absolute_url in
    if bool_decide (scheme parsed_url ∈ ["http"; "https"])
    then
      let '(is_internal, is_subdomain) :=
        classify_domain (netloc parsed_url) base_domain include_subdomains in
      Some {| url := absolute_url;
              text := info_text link_info;
              domain := netloc parsed_url;
              link_path := path parsed_url;
              link_query := query parsed_url;
              link_fragment := fragment parsed_url;
              is_internal := is_internal;
              is_subdomain := is_subdomain;
              link_type := get_link_type absolute_url;
              source := info_source link_info;
              original_href := href;
              found_on_page := current_url |}
    else None.

(** The [dict] from which the links of a page are built. *)
Definition href_to_data_of (response : Response)
    (link_elements : list Element) : list (string * LinkInfo) :=
  let href_to_data := collect_anchors response link_elements in
  match href_to_data with
  | [] => collect_fallback response
  | _ => href_to_data
  end.

(** [extract_links_from_page(response, current_url, base_domain,
    include_subdomains)] *)
Definition extract_links_from_page `{UrlLib} (response : Response)
    (current_url base_domain : string) (include_subdomains : bool)
    : list Link :=
  match css response "a" with
  | None => []
  | Some link_elements =>
      fold_left
        (fun all_links '(href, link_info) =>
           match build_link current_url base_domain include_subdomains
                   href link_info with
           | Some link_data => all_links ++ [link_data]
           | None => all_links
           end)
        (href_to_data_of response link_elements) []
  end.

(** ** CrawlEngine: the loop of [scrape] *)

(** The two fetchers of Scrapling: [Fetcher.get] and
    [StealthyFetcher.fetch].  [None] is a raised exception. *)
Class Fetchers := {
  fetcher_get : string → option Response;
  stealthy_fetch : string → option Response
}.

(** The options of [scrape] that the crawl loop reads. *)
Record Options := mkOptions {
  depth : Z;
  max_pages : Z;
  javascript : bool;
  internal_only : bool;
  external_only : bool;
  subdomains_only : bool;
  include_subdomains : bool;
  extensions : option string;
  filter_types : option string;
  unique_only : bool
}.

(** [page_data], without the comment fields. *)
Record PageRecord := mkPageRecord {
  page_url : string;
  page_depth : Z;
  page_title : string;
  links_on_page : Z;
  internal_links : Z;
  external_links : Z;
  subdomain_links : Z;
  page_files_found : Z
}.

(** The variables of the loop.  The last three fields are not variables
    of the program: [fetched] lists the URLs handed to the fetcher,
    [failed] those for which the warning [Failed to crawl] was printed and
    [enqueued] every pair appended to [to_visit], each in order. *)
Record CrawlState := mkCrawlState {
  visited : gset string;
  to_visit : list (string * Z);
  all_pages : list PageRecord;
  all_links : list Link;
  total_pages_crawled : Z;
  total_links_found : Z;
  files_found : list Link;
  fetched : list string;
  failed : list string;
  enqueued : list (string * Z)
}.

Definition len {A} (l : list A) : Z := Z.of_nat (length l).

Section Crawl.

Context `{UrlLib} `{Fetchers}.
Variable opts : Options.
Variable start_url : string.

Definition base_domain : string := netloc (urlparse start_url).

(** The fetch of one page: in JavaScript mode the stealthy fetcher,
    falling back to the plain one when it raises. *)
Definition fetch_page (current_url : string) : option Response :=
  if javascript opts then
    match stealthy_fetch current_url with
    | Some response => Some response
    | None => fetcher_get current_url
    end
  else fetcher_get current_url.

(** The loop [for link in page_links] that adds pages to the crawl
    queue [queue]. *)
Definition enqueue_links (page_links : list Link) (visited : gset string)
    (current_depth : Z) (queue : list (string * Z)) : list (string * Z) :=
  fold_left
    (fun to_visit link =>
       if is_internal link || (include_subdomains opts && is_subdomain link)
       then
         let link_url := url link in
         let parsed_link := urlparse link_url in
         if String.eqb (path_suffix (path parsed_link)) ""
            && negb (bool_decide (link_url ∈ visited))
         then to_visit ++ [(link_url, current_depth + 1)]
         else to_visit
       else to_visit)
    page_links queue.

(** [page_files], the links that end in one of [--extensions]. *)
Definition page_files_of (page_links : list Link) : list Link :=
  match given (extensions opts) with
  | Some extensions =>
      let extension_filters :=
        map (fun ext => Py.lstrip_char "." (Py.lower (Py.strip ext)))
          (Py.split "," extensions) in
      List.filter
        (fun l => Py.any (fun ext => Py.endswith ("." +:+ ext)
                                       (Py.lower (url l)))
                    extension_filters)
        page_links
  | None => []
  end.

(** One iteration of [while to_visit and len(visited) < max_pages]. *)
Definition crawl_step (s : CrawlState) : CrawlState :=
  match to_visit s with
  | [] => s
  | (current_url, current_depth) :: rest =>
      if bool_decide (current_url ∈ visited s) || (depth opts <? current_depth)
      then
        mkCrawlState (visited s) rest (all_pages s) (all_links s)
          (total_pages_crawled s) (total_links_found s) (files_found s)
          (fetched s) (failed s) (enqueued s)
      else
        let visited' := visited s ∪ {[current_url]} in
        let total_pages_crawled' := total_pages_crawled s + 1 in
        match fetch_page current_url with
        | None =>
            mkCrawlState visited' rest (all_pages s) (all_links s)
              total_pages_crawled' (total_links_found s) (files_found s)
              (fetched s ++ [current_url]) (failed s ++ [current_url])
              (enqueued s)
        | Some response =>
            let page_links :=
              extract_links_from_page response current_url base_domain
                (include_subdomains opts) in
            let filtered_page_links :=
              filter_links page_links (internal_only opts)
                (external_only opts) (subdomains_only opts)
                (extensions opts) (filter_types opts) (unique_only opts)
                (if unique_only opts then Some (all_links s) else None) in
            let page_files := page_files_of page_links in
            let page_data :=
              {| page_url := current_url;
                 page_depth := current_depth;
                 page_title := resp_title response;
                 links_on_page := len page_links;
                 internal_links := len (List.filter is_internal page_links);
                 external_links :=
                   len (List.filter
                          (fun l => negb (is_internal l)
                                    && negb (is_subdomain l))
                          page_links);
                 subdomain_links := len (List.filter is_subdomain page_links);
                 page_files_found := len page_files |} in
            let enqueue queue :=
              if current_depth <? depth opts
              then enqueue_links page_links visited' current_depth queue
              else queue in
            mkCrawlState visited' (enqueue rest)
              (all_pages s ++ [page_data])
              (all_links s ++ filtered_page_links)
              total_pages_crawled'
              (total_links_found s + len filtered_page_links)
              (files_found s ++ page_files)
              (fetched s ++ [current_url]) (failed s)
              (enqueue (enqueued s))
        end
  end.

(** The condition of the [while]. *)
Definition crawl_guard (s : CrawlState) : bool :=
  match to_visit s with
  | [] => false
  | _ :: _ => Z.of_nat (size (visited s)) <? max_pages opts
  end.

(** The loop, run for at most [fuel] iterations; [None] when the fuel
    runs out before the condition fails. *)
Fixpoint crawl_loop (fuel : nat) (s : CrawlState) : option CrawlState :=
  if crawl_guard s then
    match fuel with
    | O => None
    | S fuel' => crawl_loop fuel' (crawl_step s)
    end
  else Some s.

(** The state on entry: [to_visit = \[(url, 0)\]], all else empty. *)
Definition initial_state : CrawlState :=
  mkCrawlState ∅ [(start_url, 0)] [] [] 0 0 [] [] [] [].

End Crawl.

(** ** Runs of the crawl loop *)

(** One iteration of the loop, as a relation. *)
Definition crawl_iteration `{UrlLib} `{Fetchers} (opts : Options)
    (start_url : string) (s s' : CrawlState) : Prop :=
  crawl_guard opts s = true ∧ s' = crawl_step opts start_url s.

(** The states that the loop goes through. *)
Definition reachable `{UrlLib} `{Fetchers} (opts : Options)
    (start_url : string) (s : CrawlState) : Prop :=
  rtc (crawl_iteration opts start_url) (initial_state start_url) s.

(** The two tests that a link passes to be enqueued. *)
Definition crawlable `{UrlLib} (opts : Options) (visited : gset string)
    (link : Link) : bool :=
  (is_internal link || (include_subdomains opts && is_subdomain link))
  && (String.eqb (path_suffix (path (urlparse (url link)))) ""
      && negb (bool_decide (url link ∈ visited))).

(** The pairs that a successful visit at [current_depth] appends to the
    queue. *)
Definition new_pairs `{UrlLib} (opts : Options) (visited : gset string)
    (page_links : list Link) (current_depth : Z) : list (string * Z) :=
  if current_depth <? depth opts
  then map (fun l => (url l, current_depth + 1))
         (List.filter (crawlable opts visited) page_links)
  else [].

(** The pages that may still be visited. *)
Definition budget (opts : Options) (s : CrawlState) : nat :=
  Z.to_nat (max_pages opts - Z.of_nat (size (visited s))).

(** What the logs say of the visited pages: every visited URL was handed
    to the fetcher once, and a URL whose fetch failed has neither a page
    record nor links. *)
Definition crawl_inv (s : CrawlState) : Prop :=
  NoDup (fetched s)
  ∧ (∀ u, u ∈ fetched s ↔ u ∈ visited s)
  ∧ (∀ u, u ∈ failed s → u ∈ visited s)
  ∧ (∀ p, p ∈ all_pages s →
          page_url p ∈ visited s ∧ page_url p ∉ failed s)
  ∧ (∀ l, l ∈ all_links s →
          found_on_page l ∈ visited s ∧ found_on_page l ∉ failed s).

(** What the queue holds: the seed, or pages without a file extension at
    a depth between 1 and [depth]. *)
Definition frontier_inv `{UrlLib} (opts : Options) (start_url : string)
    (s : CrawlState) : Prop :=
  ∀ link_url d,
    (link_url, d) ∈ to_visit s →
    (link_url, d) = (start_url, 0)
    ∨ (path_suffix (path (urlparse link_url)) = "" ∧ 1 ≤ d ≤ depth opts).

(** ** A small site, for the examples *)

Module Site.

Definition anchor (href txt : string) : Element :=
  ElemTag (mkTag {[ "href" := href ]} txt []).

(** A page whose only elements are the anchors [els]. *)
Definition page (els : list Element) : Response :=
  mkResponse (fun sel => if String.eqb sel "a" then Some els else Some []) "".

Definition home : Response :=
  page [anchor "/about" "About us"; anchor "/docs/guide.pdf" "Guide";
        anchor "https://other.com/x" "Other"; anchor "#top" "Top";
        anchor "/broken" "Broken"].

Definition about : Response :=
  page [anchor "/" "Home"; anchor "/team" "Team"].

(** [/broken] cannot be fetched. *)
Definition web (u : string) : option Response :=
  if String.eqb u "https://site.com/" then Some home
  else if String.eqb u "https://site.com/about" then Some about
  else if String.eqb u "https://site.com/team" then Some (page [])
  else None.

#[global] Instance fetchers : Fetchers := {
  fetcher_get := web;
  stealthy_fetch := fun _ => None
}.

Definition options (depth max_pages : Z) : Options :=
  mkOptions depth max_pages false false false false true None None true.

End Site.

(** ** The three-way domain relationship

    The program has no function of that name: a link is a subdomain link
    when [is_subdomain_of] says so, and otherwise a same-domain link when
    the extractor marks it internal without the help of
    [include_subdomains]. *)

Inductive Relationship := same | subdomain | external.

Definition domain_relationship (domain base_domain : string) : Relationship :=
  let '(is_internal, is_subdomain) :=
    classify_domain domain base_domain false in
  if is_subdomain then subdomain
  else if is_internal then same
  else external.

(** The relationship as the specification words it: only a leading
    [www.] is stripped from each side. *)
Definition spec_strip_www (s : string) : string :=
  if Py.startswith "www." s then Py.drop 4 s else s.

Definition spec_domain_relationship (domain base_domain : string)
    : Relationship :=
  let domain_clean := spec_strip_www domain in
  let base_clean := spec_strip_www base_domain in
  if String.eqb domain_clean base_clean then same
  else if Py.endswith ("." +:+ base_clean) domain_clean then subdomain
  else external.

(** The extensions that [get_link_type] knows. *)
Definition known_extensions : gset string :=
  image_extensions ∪ doc_extensions ∪ video_extensions ∪ audio_extensions
  ∪ archive_extensions ∪ code_extensions.

(** The extension that [get_link_type] looks up: the suffix of the
    lowercased path, lowercased. *)
Definition extension_of `{UrlLib} (url : string) : string :=
  Py.lower (path_suffix (Py.lower (path (urlparse url)))).

(** ** Reading the extractor's [dict] *)

(** [d.get(k)] *)
Fixpoint dict_get {V} (k : string) (d : list (string * V)) : option V :=
  match d with
  | [] => None
  | (k', v) :: d' => if String.eqb k' k then Some v else dict_get k d'
  end.

(** The key under which the first pass stores an element, if it stores
    it: the stripped [href] of a tag whose [href] is not empty. *)
Definition anchor_key (e : Element) : option string :=
  match e with
  | ElemTag t =>
      match tag_attrs t !! "href" with
      | Some href => if String.eqb href "" then None else Some (Py.strip href)
      | None => None
      end
  | ElemText _ => None
  end.

(** The key under which the fallback pass stores an element. *)
Definition fallback_key (e : Element) : option string :=
  if String.eqb (text_or_str e) "" then None
  else Some (Py.strip (text_or_str e)).

(** ** The filters as predicates on one link *)

(** The link ends in one of the extensions. *)
Definition has_extension (extension_filters : list string) (link : Link)
    : bool :=
  Py.any (fun ext => Py.endswith ("." +:+ ext) (Py.lower (url link)))
    extension_filters.

(** The link has one of the expanded types. *)
Definition type_matches (type_filters : list string) (link : Link) : bool :=
  bool_decide (link_type link ∈ expand_filters type_filters).

(** The URL of the link contains a dot followed by a raw filter token. *)
Definition token_matches (type_filters : list string) (link : Link) : bool :=
  Py.any (fun filter_ext => Py.contains ("." +:+ filter_ext)
                              (Py.lower (url link)))
    type_filters.

(** The chain of extension tests, on its own. *)
Definition extension_type (file_ext : string) : option string :=
  if bool_decide (file_ext ∈ image_extensions) then Some "image"
  else if bool_decide (file_ext ∈ doc_extensions) then Some "document"
  else if bool_decide (file_ext ∈ video_extensions) then Some "video"
  else if bool_decide (file_ext ∈ audio_extensions) then Some "audio"
  else if bool_decide (file_ext ∈ archive_extensions) then Some "archive"
  else if bool_decide (file_ext ∈ code_extensions) then Some "code"
  else None.

(** The body of a loop [for e in els: if key(e): d\[key(e)\] = info(e)],
    the shape of both passes of the extractor. *)
Definition store {E V : Type} (key : E → option string) (info : E → V)
    (d : list (string * V)) (e : E) : list (string * V) :=
  match key e with
  | Some k => dict_set k (info e) d
  | None => d
  end.

(** What the first pass stores for an element. *)
Definition anchor_info (response : Response) (e : Element) : LinkInfo :=
  match e with
  | ElemTag t =>
      mkLinkInfo (Py.strip (tag_text t)) (detect_link_source t response)
        (Some t)
  | ElemText _ => mkLinkInfo "" "unknown" None
  end.

(** The [href] attribute of an element, as found. *)
Definition anchor_href (e : Element) : option string :=
  match e with
  | ElemTag t => tag_attrs t !! "href"
  | ElemText _ => None
  end.

(** An href that must not yield a link: absent, empty, or starting with
    [#], [mailto:] or [javascript:]. *)
Definition excluded_href (raw : option string) : bool :=
  match raw with
  | None => true
  | Some href => String.eqb href "" || skipped_href href
  end.

(** ** Removing duplicate links

    The loop [for link in ...: if link\['url'\] not in seen_urls: ...] that
    ends both [links] and [scrape]. *)

Definition unique_links (links : list Link) : list Link :=
  snd
    (fold_left
       (fun '(seen_urls, unique_links) link =>
          if bool_decide (url link ∈ (seen_urls : gset string))
          then (seen_urls, unique_links)
          else (seen_urls ∪ {[url link]}, unique_links ++ [link]))
       links (∅, [])).

(** The links that the loop keeps when [seen] holds the URLs met so far. *)
Fixpoint unique_from (seen : gset string) (links : list Link) : list Link :=
  match links with
  | [] => []
  | link :: rest =>
      if bool_decide (url link ∈ seen) then unique_from seen rest
      else link :: unique_from (seen ∪ {[url link]}) rest
  end.

(** ** The filters of the [links] command

    The part of [links] between the extraction and the validation: scope,
    then types, then extensions, then duplicates. *)

Definition links_filters (all_links : list Link)
    (internal_only external_only subdomains_only : bool)
    (filter_types extensions : option string) (unique_only : bool)
    : list Link :=
  let filtered_links := all_links in
  let filtered_links :=
    if internal_only then List.filter is_internal filtered_links
    else if external_only
    then List.filter (fun link => negb (is_internal link)
                                  && negb (is_subdomain link))
           filtered_links
    else if subdomains_only then List.filter is_subdomain filtered_links
    else filtered_links in
  let filtered_links :=
    match given filter_types with
    | Some filter_types =>
        let type_filters :=
          map (fun t => Py.lower (Py.strip t)) (Py.split "," filter_types) in
        filter_by_types filtered_links type_filters
    | None => filtered_links
    end in
  let filtered_links :=
    match given extensions with
    | Some extensions =>
        let extension_filters :=
          map (fun ext => Py.lstrip_char "." (Py.lower (Py.strip ext)))
            (Py.split "," extensions) in
        filter_by_extensions filtered_links extension_filters
    | None => filtered_links
    end in
  if unique_only then unique_links filtered_links else filtered_links.

(** ** LinkValidator *)

(** The probe [Fetcher.get(url, headers=headers, method='HEAD')]: the
    status that [getattr(response, 'status_code', getattr(response,
    'status', 0))] reads, or the text of the exception raised. *)
Class Prober := {
  head_request : string → Z + string
}.

(** The three keys that [validate_links] sets on a link. *)
Record Validation := mkValidation {
  status_code : Z;
  is_accessible : bool;
  error : option string
}.

(** The state of the loop of [validate_links]: the index [i], the list
    [validated_links] and, as a log, the indices at which the loop
    slept. *)
Record ValidateState := mkValidateState {
  next_index : Z;
  validated_links : list (Link * Validation);
  pauses : list Z
}.

(** [validate_links(links, headers)] *)
Definition validate_loop `{Prober} (links : list Link) : ValidateState :=
  fold_left
    (fun st link =>
       let i := next_index st in
       match head_request (url link) with
       | inl status_code =>
           mkValidateState (i + 1)
             (validated_links st
              ++ [(link, mkValidation status_code (status_code <? 400) None)])
             (if (0 <? i) && (i mod 10 =? 0) then pauses st ++ [i]
              else pauses st)
       | inr e =>
           mkValidateState (i + 1)
             (validated_links st ++ [(link, mkValidation 0 false (Some e))])
             (pauses st)
       end)
    links (mkValidateState 0 [] []).

Definition validate_links `{Prober} (links : list Link)
    : list (Link * Validation) :=
  validated_links (validate_loop links).

(** ** The preview table of [output_results]

    A result is a [dict] whose values are shown through [str]; here it is
    the list of its keys with the shown values. *)



(** ** The filters as one predicate *)

(** [\[ext.strip().lower().lstrip('.') for ext in extensions.split(',')\]] *)
Definition extension_tokens (extensions : string) : list string :=
  map (fun ext => Py.lstrip_char "." (Py.lower (Py.strip ext)))
    (Py.split "," extensions).

(** [\[t.strip().lower() for t in filter_types.split(',')\]] *)
Definition type_tokens (filter_types : string) : list string :=
  map (fun t => Py.lower (Py.strip t)) (Py.split "," filter_types).

(** The scope test: the first flag that is set decides. *)
Definition in_scope (internal_only external_only subdomains_only : bool)
    (l : Link) : bool :=
  if internal_only then is_internal l
  else if external_only then negb (is_internal l) && negb (is_subdomain l)
  else if subdomains_only then is_subdomain l
  else true.

(** The links that [filter_links] keeps. *)
Definition kept_link (internal_only external_only subdomains_only : bool)
    (extensions filter_types : option string) (l : Link) : bool :=
  in_scope internal_only external_only subdomains_only l
  && match given extensions with
     | Some extensions => has_extension (extension_tokens extensions) l
     | None => true
     end
  && match given filter_types with
     | Some filter_types =>
         type_matches (type_tokens filter_types) l
         || token_matches (type_tokens filter_types) l
     | None => true
     end.

(** The options with [include_subdomains] set to [b]. *)
Definition with_include_subdomains (b : bool) (opts : Options) : Options :=
  mkOptions (depth opts) (max_pages opts) (javascript opts)
    (internal_only opts) (external_only opts) (subdomains_only opts) b
    (extensions opts) (filter_types opts) (unique_only opts).


(** The regions that the heuristic can name. *)
Definition source_regions : list string :=
  ["navigation"; "header"; "footer"; "sidebar"; "main_content"; "breadcrumb";
   "content"].

(** ** More invariants of the crawl loop *)

(** The counters agree with the logs, and the page budget holds. *)
Definition accounts_inv (opts : Options) (s : CrawlState) : Prop :=
  Z.of_nat (size (visited s)) ≤ Z.max 0 (max_pages opts)
  ∧ length (fetched s) = size (visited s)
  ∧ total_pages_crawled s = len (fetched s)
  ∧ total_links_found s = len (all_links s)
  ∧ length (fetched s) = (length (all_pages s) + length (failed s))%nat.

(** The visited URLs are those of the page records and the failures. *)
Definition records_inv (s : CrawlState) : Prop :=
  NoDup (map page_url (all_pages s))
  ∧ NoDup (failed s)
  ∧ (∀ u, u ∈ visited s ↔ u ∈ map page_url (all_pages s) ∨ u ∈ failed s)
  ∧ (∀ l, l ∈ all_links s →
          found_on_page l ∈ map page_url (all_pages s)).

(** Breadth first: the depths of the pages recorded, followed by those of
    the queue, never go down, and the queue spans at most two levels. *)
Definition bfs_inv (opts : Options) (s : CrawlState) : Prop :=
  StronglySorted Z.le
    (map page_depth (all_pages s) ++ map snd (to_visit s))
  ∧ (∀ x y, x ∈ map snd (to_visit s) → y ∈ map snd (to_visit s) →
            x ≤ y + 1)
  ∧ (∀ x, x ∈ map page_depth (all_pages s) ++ map snd (to_visit s) →
          0 ≤ x)
  ∧ (∀ p, p ∈ all_pages s → page_depth p ≤ depth opts).

(** What [validate_links] writes on one link. *)
Definition validation_of `{Prober} (link : Link) : Validation :=
  match head_request (url link) with
  | inl status_code => mkValidation status_code (status_code <? 400) None
  | inr e => mkValidation 0 false (Some e)
  end.

(** The probe of the link succeeds. *)
Definition probe_ok `{Prober} (link : Link) : bool :=
  match head_request (url link) with
  | inl _ => true
  | inr _ => false
  end.

(** The indices at which the loop sleeps when [links] are the links from
    index [i] on. *)
Fixpoint pause_indices `{Prober} (i : Z) (links : list Link) : list Z :=
  match links with
  | [] => []
  | link :: rest =>
      (if probe_ok link && (0 <? i) && (i mod 10 =? 0) then [i] else [])
      ++ pause_indices (i + 1) rest
  end.

(** ** CommentExtractor

    The comments are found by three regular expressions, run by
    [re.finditer].  As with [urllib], the results are stated for every
    implementation of [finditer]; of a match the program reads
    [match.start()] and [match.group(1)]. *)

Inductive Pattern :=
| html_comment_pattern
| single_line_pattern
| multi_line_pattern.

Record Match := mkMatch {
  match_start : nat;
  match_group : string
}.

Class Regex := {
  finditer : Pattern → string → list Match
}.

(** A comment record. *)
Record Comment := mkComment {
  comment_kind : string;
  content : string;
  line_start : Z;
  position : Z;
  location : option string
}.

(** [s.count(c)] for a one-character argument. *)
Fixpoint count_char (c : ascii) (s : string) : nat :=
  match s with
  | EmptyString => O
  | String a s' => (if Ascii.eqb a c then 1 else 0) + count_char c s'
  end.

(** The loop [for match in matches] of the two extractors, for the
    comments of type [kind]. *)
Definition comments_of_matches (kind : string) (text : string)
    (matches : list Match) : list Comment :=
  fold_left
    (fun comments m =>
       let comment_text := Py.strip (match_group m) in
       if String.eqb comment_text "" then comments
       else
         comments
         ++ [mkComment kind comment_text
               (Z.of_nat (count_char "010" (Py.take (match_start m) text)) + 1)
               (Z.of_nat (match_start m)) None])
    matches [].

(** [extract_html_comments(html_content)] *)
Definition extract_html_comments `{Regex} (html_content : string)
    : list Comment :=
  comments_of_matches "html" html_content
    (finditer html_comment_pattern html_content).

(** [extract_js_comments(js_content)] *)
Definition extract_js_comments `{Regex} (js_content : string)
    : list Comment :=
  comments_of_matches "javascript_single" js_content
    (finditer single_line_pattern js_content)
  ++ comments_of_matches "javascript_multi" js_content
       (finditer multi_line_pattern js_content).





(** *** The three patterns as scanners

    An implementation of [finditer] for the three patterns of the
    program, used by the examples.  A search goes left to right and
    resumes at the end of the last match.

    - [<!--\s*(.*?)\s*-->] and [/\*\s*(.*?)\s*\*/] with [re.DOTALL]: after
      the opening mark the greedy [\s*] takes the whole run of white
      space, the lazy group stops at the first closing mark that follows,
      and the second [\s*] takes the white space before that mark out of
      the group.  With no closing mark the search moves one character on.
    - [//\s*(.*?)(?:\n|$)] with [re.MULTILINE]: the greedy [\s*] also
      takes line breaks; the group, which cannot cross a line break, runs
      to the end of the line reached. *)

Module Re.

(** Index of the first occurrence of [sub], as [str.find]. *)
Fixpoint find_sub (sub s : string) : option nat :=
  if String.prefix sub s then Some O
  else
    match s with
    | EmptyString => None
    | String _ s' => S <$> find_sub sub s'
    end.

(** Length of the leading run of white space. *)
Fixpoint space_run (s : string) : nat :=
  match s with
  | EmptyString => O
  | String c s' => if Py.is_space c then S (space_run s') else O
  end.

Fixpoint delimited (opening closing : string) (fuel offset : nat)
    (s : string) : list Match :=
  match fuel with
  | O => []
  | S fuel =>
      match find_sub opening s with
      | None => []
      | Some i =>
          let body := Py.drop (i + String.length opening) s in
          let inner := Py.drop (space_run body) body in
          match find_sub closing inner with
          | None =>
              delimited opening closing fuel (offset + i + 1)
                (Py.drop (i + 1) s)
          | Some k =>
              mkMatch (offset + i) (Py.rstrip (Py.take k inner))
              :: delimited opening closing fuel
                   (offset + i + String.length opening + space_run body
                    + k + String.length closing)
                   (Py.drop (k + String.length closing) inner)
          end
      end
  end.

Fixpoint to_end_of_line (fuel offset : nat) (s : string) : list Match :=
  match fuel with
  | O => []
  | S fuel =>
      match find_sub "//" s with
      | None => []
      | Some i =>
          let body := Py.drop (i + 2) s in
          let inner := Py.drop (space_run body) body in
          match Py.find "010" inner with
          | None => [mkMatch (offset + i) inner]
          | Some k =>
              mkMatch (offset + i) (Py.take k inner)
              :: to_end_of_line fuel
                   (offset + i + 2 + space_run body + k + 1)
                   (Py.drop (k + 1) inner)
          end
      end
  end.

#[global] Instance scanner : Regex := {
  finditer p s :=
    match p with
    | html_comment_pattern =>
        delimited "<!--" "-->" (String.length s) O s
    | single_line_pattern => to_end_of_line (String.length s) O s
    | multi_line_pattern => delimited "/*" "*/" (String.length s) O s
    end
}.

End Re.

(** A page with one HTML comment, one inline script and a link in its
    text. *)
Module Commented.

Definition script : string :=
  "var a = 1; // counter" +:+ String "010" "/* two" +:+ String "010"
  " lines */ var b;".

Definition text : string :=
  "<html><!-- build 42 --><!-- -->" +:+ String "010"
  "<a href='http://example.com/x'>x</a><script>" +:+ script
  +:+ "</script></html>".

Definition page : Response :=
  mkResponse
    (fun selector =>
       if String.eqb selector "script"
       then Some [ElemTag (mkTag ∅ script [])]
       else Some [])
    "commented".

End Commented.

(** ** The [extract] command

    The rules of [extract] are the items of a JSON object: a field name
    and, for it, an object read with [rule.get('selector')],
    [rule.get('attribute', 'text')] and [rule.get('all', False)].  A field
    of the result holds [None], one string, or a list of strings. *)

Record Rule := mkRule {
  rule_selector : option string;
  rule_attribute : option string;
  rule_all : bool
}.

Inductive FieldValue :=
| NoValue
| Single (value : string)
| Many (values : list string).

(** [elem.text.strip() if hasattr(elem, 'text') and elem.text else ''];
    the elements of the page model have no [get_text]. *)
Definition element_text (elem : Element) : string :=
  match elem with
  | ElemTag t =>
      if String.eqb (tag_text t) "" then "" else Py.strip (tag_text t)
  | ElemText _ => ""
  end.

(** [attrs = elem.attrs if hasattr(elem, 'attrs') else {}] and
    [attrs.get(attribute, '')] *)
Definition element_attribute (attribute : string) (elem : Element)
    : string :=
  match elem with
  | ElemTag t => default "" (tag_attrs t !! attribute)
  | ElemText _ => ""
  end.

(** The value read off one element for [attribute]. *)
Definition element_value (attribute : string) (elem : Element) : string :=
  if String.eqb attribute "text" then element_text elem
  else element_attribute attribute elem.

(** The body of the loop over the rules: the value stored under the
    field, [None] when the rule has no selector and nothing is stored. *)
Definition apply_rule (response : Response) (rule : Rule)
    : option FieldValue :=
  let attribute := default "text" (rule_attribute rule) in
  let get_all := rule_all rule in
  match given (rule_selector rule) with
  | Some selector =>
      match css response selector with
      | Some elements =>
          if get_all
          then Some (Many (map (element_value attribute) elements))
          else
            match elements with
            | elem :: _ => Some (Single (element_value attribute elem))
            | [] => Some NoValue
            end
      | None => Some NoValue
      end
  | None => None
  end.

(** [for field, rule in extraction_rules.items()] *)
Definition extract_fields (response : Response)
    (extraction_rules : list (string * Rule))
    : list (string * FieldValue) :=
  fold_left
    (fun results '(field, rule) =>
       match apply_rule response rule with
       | Some value => dict_set field value results
       | None => results
       end)
    extraction_rules [].

(** A product page. *)
Module Product.

Definition img (src : string) : Element :=
  ElemTag (mkTag {[ "src" := src ]} "" []).

Definition page : Response :=
  mkResponse
    (fun selector =>
       if String.eqb selector "h1"
       then Some [ElemTag (mkTag ∅ "  Lamp " []);
                  ElemTag (mkTag ∅ "Shade" [])]
       else if String.eqb selector "img"
       then Some [img "a.png"; ElemTag (mkTag ∅ "no source" [])]
       else if String.eqb selector "p:::" then None
       else Some [])
    "product".

Definition rules : list (string * Rule) :=
  [("title", mkRule (Some "h1") None false);
   ("images", mkRule (Some "img") (Some "src") true);
   ("price", mkRule (Some ".price") (Some "text") false);
   ("notes", mkRule (Some ".note") None true);
   ("skipped", mkRule None (Some "text") true);
   ("broken", mkRule (Some "p:::") None true)].

End Product.

(** The field that a rule adds to the result, if it adds one. *)
Definition field_of_rule (response : Response) (item : string * Rule)
    : option (string * FieldValue) :=
  match apply_rule response (snd item) with
  | Some value => Some (fst item, value)
  | None => None
  end.

(** * Properties *)

(** ** Loops that append to a list *)

Section AppendLoops.

Context {A B : Type}.

(** A loop [for x in l: if keep(x): acc.append(x)] is a filter. *)
Lemma append_loop_filter (keep : A → bool) (f : list A → A → list A) :
  (∀ acc x, f acc x = if keep x then acc ++ [x] else acc) →
  ∀ l acc, fold_left f l acc = acc ++ List.filter keep l.
Proof.
  intros Hf l. induction l as [|x l IH]; intros acc; simpl.
  - by rewrite app_nil_r.
  - rewrite IH, Hf. destruct (keep x); [|done].
    by rewrite <- app_assoc.
Qed.

(** A loop that appends [g x] whenever it is defined. *)
Lemma append_loop_omap (g : A → option B) (f : list B → A → list B) :
  (∀ acc x, f acc x = match g x with Some y => acc ++ [y] | None => acc end) →
  ∀ l acc, fold_left f l acc = acc ++ omap g l.
Proof.
  intros Hf l. induction l as [|x l IH]; intros acc; simpl.
  - by rewrite app_nil_r.
  - rewrite IH, Hf. destruct (g x); [|done].
    by rewrite <- app_assoc.
Qed.

Lemma filter_sublist (keep : A → bool) (l : list A) :
  List.filter keep l `sublist_of` l.
Proof.
  induction l as [|x l IH]; simpl; [constructor|].
  destruct (keep x); by constructor.
Qed.

Lemma filter_elem_of (keep : A → bool) (l : list A) (x : A) :
  x ∈ List.filter keep l ↔ x ∈ l ∧ keep x = true.
Proof. rewrite !list_elem_of_In. apply filter_In. Qed.

Lemma filter_filter_and (p q : A → bool) (l : list A) :
  List.filter q (List.filter p l) = List.filter (fun x => p x && q x) l.
Proof.
  induction l as [|x l IH]; simpl; [done|].
  destruct (p x); simpl; [|done]. destruct (q x); by rewrite IH.
Qed.

End AppendLoops.

Lemma filter_by_extensions_filter links extension_filters :
  filter_by_extensions links extension_filters
  = List.filter (has_extension extension_filters) links.
Proof.
  unfold filter_by_extensions.
  by rewrite (append_loop_filter (has_extension extension_filters)).
Qed.

Lemma filter_by_types_filter links type_filters :
  filter_by_types links type_filters
  = List.filter
      (fun l => type_matches type_filters l || token_matches type_filters l)
      links.
Proof.
  unfold filter_by_types.
  rewrite (append_loop_filter
             (fun l => type_matches type_filters l
                       || token_matches type_filters l)); [done|].
  intros acc x. unfold type_matches, token_matches.
  by destruct (bool_decide _), (Py.any _ _).
Qed.

Lemma expand_filters_images x :
  x ∈ expand_filters ["images"] ↔ x = "image".
Proof.
  unfold expand_filters; simpl.
  replace (type_groups !! "images") with (Some ["image"]) by reflexivity.
  rewrite elem_of_union, elem_of_list_to_set, list_elem_of_singleton.
  split; [intros [[]%not_elem_of_empty|]; done | by right].
Qed.

(** C9. For every list of links, the extension filter [["pdf"]] followed
    by the type filter [["images"]] keeps exactly the links that pass both
    filters: those whose lowercased URL ends in [.pdf] and that are of type
    [image] or contain [.images] in the URL.  The result is a subsequence
    of the input (the order of the input is preserved), a link is in it
    iff it is in the result of each filter alone, and the two filters
    commute. *)
Theorem filter_pdf_then_images_is_intersection (links : list Link) :
  let result :=
    filter_by_types (filter_by_extensions links ["pdf"]) ["images"] in
  result
  = List.filter
      (fun l => Py.endswith ".pdf" (Py.lower (url l))
                && (String.eqb (link_type l) "image"
                    || Py.contains ".images" (Py.lower (url l))))
      links
  ∧ result `sublist_of` links
  ∧ (∀ l, l ∈ result ↔
          l ∈ filter_by_extensions links ["pdf"]
          ∧ l ∈ filter_by_types links ["images"])
  ∧ result = filter_by_extensions (filter_by_types links ["images"]) ["pdf"].
Proof.
  cbv zeta.
  rewrite !filter_by_types_filter, !filter_by_extensions_filter.
  rewrite !filter_filter_and.
  split; [|split; [|split]].
  - apply filter_ext. intros l.
    unfold has_extension, type_matches, token_matches; simpl.
    rewrite !orb_false_r. f_equal. f_equal.
    destruct (String.eqb_spec (link_type l) "image") as [E|E].
    + apply bool_decide_eq_true. by apply expand_filters_images.
    + apply bool_decide_eq_false. by rewrite expand_filters_images.
  - apply filter_sublist.
  - intros l. rewrite !filter_elem_of, andb_true_iff. tauto.
  - apply filter_ext. intros l. apply andb_comm.
Qed.

Lemma count_occ_filter (keep : Link → bool) (l : list Link) (x : Link) :
  count_occ Link_eq_dec (List.filter keep l) x
  = if keep x then count_occ Link_eq_dec l x else O.
Proof.
  induction l as [|y l IH]; simpl; [by destruct (keep x)|].
  destruct (keep y) eqn:Ky; simpl.
  - destruct (Link_eq_dec y x) as [->|Hne]; rewrite IH.
    + by rewrite Ky.
    + done.
  - rewrite IH. destruct (Link_eq_dec y x) as [->|Hne]; [|done].
    by rewrite Ky.
Qed.

(** C10. For every input list and every list of type filters,
    [filter_by_types] returns a subsequence of its input, in the original
    order, in which no link record occurs more often than in the input; a
    link whose type is in the expanded filter set and whose URL also
    contains a dot followed by a raw filter token is emitted once per
    occurrence in the input, never twice. *)
Theorem filter_by_types_emits_once (links : list Link)
    (type_filters : list string) :
  filter_by_types links type_filters `sublist_of` links
  ∧ ∀ link,
      (count_occ Link_eq_dec (filter_by_types links type_filters) link
       ≤ count_occ Link_eq_dec links link)%nat
      ∧ (link_type link ∈ expand_filters type_filters →
         token_matches type_filters link = true →
         count_occ Link_eq_dec (filter_by_types links type_filters) link
         = count_occ Link_eq_dec links link).
Proof.
  rewrite filter_by_types_filter. split; [apply filter_sublist|].
  intros link. rewrite count_occ_filter. split.
  - destruct (_ || _); lia.
  - intros Hty Htok. unfold type_matches.
    by rewrite (bool_decide_eq_true_2 _ Hty).
Qed.

(** An image whose URL also contains [.images], alone in the input, comes
    out once. *)
Lemma filter_by_types_emits_once_witness :
  let link :=
    mkLink "http://x.com/a.images.png" "" "x.com" "/a.images.png" "" ""
      false false "image" "content" "/a.images.png" "http://x.com/" in
  count_occ Link_eq_dec (filter_by_types [link] ["images"]) link = 1%nat.
Proof.
  intros link.
  rewrite (proj2 (proj2 (filter_by_types_emits_once [link] ["images"]) link)).
  - simpl. by destruct (Link_eq_dec link link).
  - by apply expand_filters_images.
  - reflexivity.
Defined.

(** ** UrlClassifier *)

Lemma is_subdomain_of_same_or_subdomain domain base_domain :
  is_subdomain_of domain base_domain = true →
  is_same_or_subdomain domain base_domain = true.
Proof.
  unfold is_subdomain_of, is_same_or_subdomain.
  destruct (String.eqb domain ""), (String.eqb base_domain ""); simpl;
    try done.
  destruct (String.eqb domain base_domain); [done|].
  by destruct (String.eqb _ _).
Qed.

(** The flag [include_subdomains] never changes the classification. *)
Lemma classify_domain_ignores_flag netloc base_domain include_subdomains :
  classify_domain netloc base_domain include_subdomains
  = classify_domain netloc base_domain false.
Proof.
  unfold classify_domain. destruct include_subdomains; [|done]. simpl.
  destruct (is_subdomain_of netloc base_domain) eqn:Hsub; [|done].
  by rewrite (is_subdomain_of_same_or_subdomain _ _ Hsub).
Qed.

(** *** Where the classifier agrees with the specification *)

Lemma contains_cons old c s :
  Py.contains old (String c s)
  = if String.prefix old (String c s) then true else Py.contains old s.
Proof. reflexivity. Qed.

Lemma prefix_cons a p b s :
  String.prefix (String a p) (String b s)
  = if ascii_dec a b then String.prefix p s else false.
Proof. reflexivity. Qed.

Lemma replace_go_cons old new c s :
  Py.replace_go old new O (String c s)
  = if String.prefix old (String c s)
    then new +:+ Py.replace_go old new (Nat.pred (String.length old)) s
    else String c (Py.replace_go old new O s).
Proof. reflexivity. Qed.

(** Nothing is replaced in a string without an occurrence. *)
Lemma replace_absent old new s :
  Py.contains old s = false → Py.replace old new s = s.
Proof.
  unfold Py.replace. induction s as [|c s IH]; [done|].
  rewrite contains_cons, replace_go_cons.
  destruct (String.prefix old (String c s)); [done|].
  intros Hs. by rewrite IH.
Qed.

Lemma replace_www_leading s :
  String.prefix "www." s = true →
  Py.replace "www." "" s = Py.replace "www." "" (Py.drop 4 s).
Proof.
  intros Hfull. pose proof Hfull as Hp.
  do 4 (destruct s as [|? s]; [by vm_compute in Hp|];
        rewrite prefix_cons in Hp;
        destruct (ascii_dec _ _) as [<-|]; [|done]).
  unfold Py.replace. rewrite replace_go_cons, Hfull. reflexivity.
Qed.

(** On a domain with no [www.] after a leading one, [replace] strips the
    leading [www.] and nothing else. *)
Lemma replace_www_strip s :
  Py.contains "www." (spec_strip_www s) = false →
  Py.replace "www." "" s = spec_strip_www s.
Proof.
  unfold spec_strip_www, Py.startswith.
  destruct (String.prefix "www." s) eqn:Hp; intros Hs.
  - rewrite replace_www_leading by done. by apply replace_absent.
  - by apply replace_absent.
Qed.

(** For non-empty domains in which [www.] occurs at most once, in front,
    the relationship that the code computes is the specified one. *)
Lemma domain_relationship_agrees domain base_domain :
  domain ≠ "" → base_domain ≠ "" →
  Py.contains "www." (spec_strip_www domain) = false →
  Py.contains "www." (spec_strip_www base_domain) = false →
  domain_relationship domain base_domain
  = spec_domain_relationship domain base_domain.
Proof.
  intros Hd Hb Hwd Hwb.
  unfold domain_relationship, spec_domain_relationship, classify_domain,
    is_subdomain_of, is_same_or_subdomain.
  rewrite (proj2 (String.eqb_neq _ _) Hd), (proj2 (String.eqb_neq _ _) Hb).
  rewrite !replace_www_strip by done. simpl.
  destruct (String.eqb_spec domain base_domain) as [->|Hne].
  - by rewrite String.eqb_refl.
  - destruct (String.eqb (spec_strip_www domain) (spec_strip_www base_domain));
      [done|].
    by destruct (Py.endswith _ _).
Qed.

(** C1, at the failing input.  With [include_subdomains] disabled and the
    base domain [example.com], the link to [https://api.example.com/v1],
    whose domain is a proper subdomain of the base domain, is extracted
    with [is_internal] true (and [is_subdomain] true). *)
Theorem subdomain_is_internal_without_flag :
  classify_domain "api.example.com" "example.com" false = (true, true)
  ∧ map (fun l => (domain l, is_internal l, is_subdomain l))
      (extract_links_from_page
         (Site.page [Site.anchor "https://api.example.com/v1" "API"])
         "https://example.com/" "example.com" false)
    = [("api.example.com", true, true)].
Proof. split; reflexivity. Qed.

(** C2, at two failing inputs.  [replace] removes every [www.], not only
    a leading one: [awww.example.com] and [aexample.com], which differ
    once a leading [www.] is stripped, are classified as the same domain,
    and [shopwww.example.com], which ends in [.example.com], is classified
    as external to [example.com]. *)
Theorem www_is_stripped_everywhere :
  Py.replace "www." "" "awww.example.com" = "aexample.com"
  ∧ domain_relationship "awww.example.com" "aexample.com" = same
  ∧ spec_domain_relationship "awww.example.com" "aexample.com" = external
  ∧ domain_relationship "shopwww.example.com" "example.com" = external
  ∧ spec_domain_relationship "shopwww.example.com" "example.com" = subdomain.
Proof. split; [|split; [|split; [|split]]]; reflexivity. Qed.

Section LinkType.

Context `{UrlLib}.

Lemma get_link_type_unfold (url : string) :
  get_link_type url
  = match extension_type (extension_of url) with
    | Some ty => ty
    | None =>
        if Py.contains "?" (query (urlparse url))
           || Py.contains "api" (Py.lower (path (urlparse url)))
        then "api"
        else if String.eqb (extension_of url) "" then "page"
        else "other"
    end.
Proof.
  unfold get_link_type, extension_type, extension_of.
  repeat (case_bool_decide; [reflexivity|]). reflexivity.
Qed.

Ltac by_cases_on H :=
  apply elem_of_list_to_set in H;
  repeat (apply elem_of_cons in H as [->|H]; [vm_compute; reflexivity|]);
  by apply elem_of_nil in H.

Lemma extension_type_image ext :
  ext ∈ image_extensions → extension_type ext = Some "image".
Proof. intros Hin. by_cases_on Hin. Qed.

Lemma extension_type_document ext :
  ext ∈ doc_extensions → extension_type ext = Some "document".
Proof. intros Hin. by_cases_on Hin. Qed.

Lemma extension_type_video ext :
  ext ∈ video_extensions → extension_type ext = Some "video".
Proof. intros Hin. by_cases_on Hin. Qed.

Lemma extension_type_audio ext :
  ext ∈ audio_extensions → extension_type ext = Some "audio".
Proof. intros Hin. by_cases_on Hin. Qed.

Lemma extension_type_archive ext :
  ext ∈ archive_extensions → extension_type ext = Some "archive".
Proof. intros Hin. by_cases_on Hin. Qed.

Lemma extension_type_code ext :
  ext ∈ code_extensions → extension_type ext = Some "code".
Proof. intros Hin. by_cases_on Hin. Qed.

Lemma extension_type_unknown ext :
  ext ∉ known_extensions → extension_type ext = None.
Proof.
  unfold known_extensions. rewrite !not_elem_of_union.
  intros [[[[[Hi Hd] Hv] Ha] Hz] Hc]. unfold extension_type.
  rewrite (bool_decide_eq_false_2 _ Hi), (bool_decide_eq_false_2 _ Hd),
    (bool_decide_eq_false_2 _ Hv), (bool_decide_eq_false_2 _ Ha),
    (bool_decide_eq_false_2 _ Hz), (bool_decide_eq_false_2 _ Hc).
  reflexivity.
Qed.

(** C3, amended.  For every URL, [get_link_type] returns the type of
    the extension set that holds the (lowercased) extension of the
    lowercased path, whatever the rest of the URL is; when no set holds
    the extension, or there is none, it returns [api] if the lowercased
    path contains [api]; otherwise, for a URL without a query string, it
    returns [page] when the path has no extension and [other] when it has
    one. *)
Theorem get_link_type_by_extension (url : string) :
  let file_ext := extension_of url in
  (file_ext ∈ image_extensions → get_link_type url = "image")
  ∧ (file_ext ∈ doc_extensions → get_link_type url = "document")
  ∧ (file_ext ∈ video_extensions → get_link_type url = "video")
  ∧ (file_ext ∈ audio_extensions → get_link_type url = "audio")
  ∧ (file_ext ∈ archive_extensions → get_link_type url = "archive")
  ∧ (file_ext ∈ code_extensions → get_link_type url = "code")
  ∧ (file_ext ∉ known_extensions →
     Py.contains "api" (Py.lower (path (urlparse url))) = true →
     get_link_type url = "api")
  ∧ (file_ext ∉ known_extensions →
     Py.contains "api" (Py.lower (path (urlparse url))) = false →
     query (urlparse url) = "" →
     get_link_type url = if String.eqb file_ext "" then "page" else "other").
Proof.
  cbv zeta. rewrite get_link_type_unfold.
  repeat split.
  - by intros ->%extension_type_image.
  - by intros ->%extension_type_document.
  - by intros ->%extension_type_video.
  - by intros ->%extension_type_audio.
  - by intros ->%extension_type_archive.
  - by intros ->%extension_type_code.
  - intros ->%extension_type_unknown ->. by rewrite orb_true_r.
  - intros ->%extension_type_unknown -> ->. reflexivity.
Qed.

End LinkType.

(** The four outcomes on CPython's [urlparse]: a set extension in upper
    case, [api] in the path, no extension, an unknown extension. *)
Lemma get_link_type_by_extension_witness :
  get_link_type "https://x.com/a.PDF" = "document"
  ∧ get_link_type "https://x.com/api/users" = "api"
  ∧ get_link_type "https://x.com/about" = "page"
  ∧ get_link_type "https://x.com/data.xyz" = "other".
Proof.
  split; [|split; [|split]].
  - destruct (get_link_type_by_extension "https://x.com/a.PDF")
      as (_ & Hdoc & _).
    apply Hdoc. compute_done.
  - destruct (get_link_type_by_extension "https://x.com/api/users")
      as (_ & _ & _ & _ & _ & _ & Hapi & _).
    apply Hapi; [compute_done | reflexivity].
  - destruct (get_link_type_by_extension "https://x.com/about")
      as (_ & _ & _ & _ & _ & _ & _ & Hrest).
    apply Hrest; [compute_done | reflexivity | reflexivity].
  - destruct (get_link_type_by_extension "https://x.com/data.xyz")
      as (_ & _ & _ & _ & _ & _ & _ & Hrest).
    apply Hrest; [compute_done | reflexivity | reflexivity].
Defined.

(** C3 fails as stated: the extension [.xyz] of
    [https://x.com/api/data.xyz] is in none of the sets, yet the URL is
    classified [api], not [other]. *)
Lemma unknown_extension_classified_api :
  extension_of "https://x.com/api/data.xyz" = ".xyz"
  ∧ (".xyz" ∉ known_extensions)
  ∧ get_link_type "https://x.com/api/data.xyz" = "api"
  ∧ get_link_type "https://x.com/api/data.xyz" ≠ "other".
Proof.
  split; [reflexivity|]. split; [compute_done|].
  split; [reflexivity|]. vm_compute. discriminate.
Qed.

(** The test for a query string looks for a question mark inside
    [parsed.query], which holds what follows the first one: a URL with an
    ordinary query string and no extension is a [page]. *)
Example query_string_is_not_api :
  query (urlparse "https://x.com/search?q=1") = "q=1"
  ∧ get_link_type "https://x.com/search?q=1" = "page"
  ∧ get_link_type "https://x.com/search?q=1?x" = "api".
Proof. split; [|split]; reflexivity. Qed.

(** ** The [dict] of the extractor *)

Section Dict.

Context {V : Type}.
Implicit Types (d : list (string * V)) (k : string) (v : V).

Lemma dict_get_set k k' v d :
  dict_get k' (dict_set k v d)
  = if String.eqb k k' then Some v else dict_get k' d.
Proof.
  induction d as [|[k0 v0] d IH]; simpl; [done|].
  destruct (String.eqb_spec k0 k) as [->|Hne]; simpl.
  - by destruct (String.eqb k k').
  - rewrite IH. destruct (String.eqb_spec k0 k') as [->|Hne'].
    + by rewrite (proj2 (String.eqb_neq _ _)) by congruence.
    + done.
Qed.

Lemma dict_set_keys k v d :
  map fst (dict_set k v d)
  = if bool_decide (k ∈ map fst d) then map fst d else map fst d ++ [k].
Proof.
  induction d as [|[k0 v0] d IH]; simpl; [done|].
  destruct (String.eqb_spec k0 k) as [->|Hne]; simpl.
  - by rewrite bool_decide_eq_true_2 by left.
  - rewrite IH. case_bool_decide as Hin.
    + by rewrite bool_decide_eq_true_2 by by right.
    + rewrite bool_decide_eq_false_2; [done|].
      rewrite elem_of_cons. intros [->|]; done.
Qed.

Lemma dict_set_nodup k v d :
  NoDup (map fst d) → NoDup (map fst (dict_set k v d)).
Proof.
  intros Hnd. rewrite dict_set_keys. case_bool_decide as Hin; [done|].
  apply NoDup_app. split; [done|]. split; [|apply NoDup_singleton].
  intros x Hx ->%list_elem_of_singleton. done.
Qed.

Lemma dict_get_elem_of k v d :
  NoDup (map fst d) → (k, v) ∈ d → dict_get k d = Some v.
Proof.
  induction d as [|[k0 v0] d IH]; simpl; [by intros _ ?%elem_of_nil|].
  intros [Hk0 Hnd]%NoDup_cons [Heq|Hin]%elem_of_cons.
  - inversion Heq; subst. by rewrite String.eqb_refl.
  - destruct (String.eqb_spec k0 k) as [->|Hne]; [|by apply IH].
    destruct Hk0. apply list_elem_of_fmap. by exists (k, v).
Qed.

Lemma dict_get_Some_elem_of k v d :
  dict_get k d = Some v → (k, v) ∈ d.
Proof.
  induction d as [|[k0 v0] d IH]; simpl; [done|].
  destruct (String.eqb_spec k0 k) as [->|Hne].
  - intros [= ->]. by left.
  - intros Hget. right. by apply IH.
Qed.

End Dict.

(** ** Loops that fill a [dict] *)

Section DictLoop.

Context {E V : Type} (key : E → option string) (info : E → V).
Abbreviation store := (store key info).

Lemma store_loop_nodup els d :
  NoDup (map fst d) → NoDup (map fst (fold_left store els d)).
Proof.
  revert d. induction els as [|e els IH]; intros d Hnd; simpl; [done|].
  apply IH. unfold store. destruct (key e); [by apply dict_set_nodup|done].
Qed.

(** Elements with other keys leave the entry of [k] alone. *)
Lemma store_loop_untouched k els d :
  (∀ e, e ∈ els → key e ≠ Some k) →
  dict_get k (fold_left store els d) = dict_get k d.
Proof.
  revert d. induction els as [|e els IH]; intros d Hkeys; simpl; [done|].
  rewrite IH by (intros e' He'; apply Hkeys; by right).
  unfold store. destruct (key e) as [k'|] eqn:Hk; [|done].
  rewrite dict_get_set.
  destruct (String.eqb_spec k' k) as [->|Hne]; [|done].
  destruct (Hkeys e); [by left | done].
Qed.

(** The last element stored under [k] decides the entry of [k]. *)
Lemma store_loop_last k before e after d :
  key e = Some k →
  (∀ e', e' ∈ after → key e' ≠ Some k) →
  dict_get k (fold_left store (before ++ e :: after) d) = Some (info e).
Proof.
  intros Hk Hafter. rewrite fold_left_app. simpl.
  rewrite store_loop_untouched by done.
  unfold store at 1. rewrite Hk, dict_get_set. by rewrite String.eqb_refl.
Qed.

(** Every entry was there before or was stored by some element. *)
Lemma store_loop_origin k v els d :
  dict_get k (fold_left store els d) = Some v →
  dict_get k d = Some v ∨ ∃ e, e ∈ els ∧ key e = Some k ∧ v = info e.
Proof.
  revert d. induction els as [|e els IH]; intros d; simpl; [by left|].
  intros [Hd|(e' & He' & Hk' & ->)]%IH.
  - unfold store in Hd. destruct (key e) as [k'|] eqn:Hk; [|by left].
    rewrite dict_get_set in Hd.
    destruct (String.eqb_spec k' k) as [->|Hne]; [|by left].
    injection Hd as <-. right. exists e. split; [by left | done].
  - right. exists e'. split; [by right | done].
Qed.

Lemma dict_set_not_nil k (v : V) d : dict_set k v d ≠ [].
Proof. destruct d as [|[k0 v0] d]; simpl; [done|]. by destruct (String.eqb k0 k). Qed.

Lemma store_loop_not_nil els d :
  (d ≠ [] ∨ ∃ e, e ∈ els ∧ key e ≠ None) → fold_left store els d ≠ [].
Proof.
  revert d. induction els as [|e els IH]; intros d; simpl.
  - intros [Hd|(e & []%elem_of_nil & _)]. done.
  - intros Hor. apply IH. unfold store.
    destruct (key e) as [k|] eqn:Hk.
    + left. apply dict_set_not_nil.
    + destruct Hor as [Hd|(e' & [->|He']%elem_of_cons & Hne)];
        [by left | done | right; by exists e'].
Qed.

End DictLoop.

(** ** Stripping keeps a prefix without spaces *)

Lemma rstrip_cons c s :
  Py.is_space c = false → Py.rstrip (String c s) = String c (Py.rstrip s).
Proof. intros Hc. simpl. destruct (Py.rstrip s); by rewrite ?Hc. Qed.

Lemma prefix_rstrip p s :
  Py.no_space p = true →
  String.prefix p s = true → String.prefix p (Py.rstrip s) = true.
Proof.
  revert s. induction p as [|a p IH]; intros s Hp Hpre;
    [by destruct (Py.rstrip s)|].
  destruct s as [|b s]; [done|].
  simpl in Hp, Hpre. apply andb_true_iff in Hp as [Ha Hp].
  destruct (ascii_dec a b) as [->|]; [|done].
  rewrite rstrip_cons by by apply negb_true_iff.
  simpl. destruct (ascii_dec b b); [by apply IH | done].
Qed.

Lemma startswith_strip p s :
  p ≠ "" → Py.no_space p = true →
  Py.startswith p s = true → Py.startswith p (Py.strip s) = true.
Proof.
  unfold Py.startswith, Py.strip. intros Hne Hp Hpre.
  destruct p as [|a p]; [done|]. destruct s as [|b s]; [done|].
  assert (Py.lstrip (String b s) = String b s) as ->; [|by apply prefix_rstrip].
  simpl in Hp, Hpre. apply andb_true_iff in Hp as [Ha _].
  destruct (ascii_dec a b) as [->|]; [|done].
  simpl. by rewrite (proj1 (negb_true_iff _) Ha).
Qed.

Lemma skipped_href_strip raw :
  skipped_href raw = true → skipped_href (Py.strip raw) = true.
Proof.
  unfold skipped_href. rewrite !orb_true_iff.
  intros [[Hp|Hp]|Hp]; [left; left | left; right | right];
    by apply startswith_strip.
Qed.

(** ** LinkExtractor *)

Lemma fold_left_ext {A B} (f g : A → B → A) (l : list B) (a : A) :
  (∀ a b, f a b = g a b) → fold_left f l a = fold_left g l a.
Proof.
  intros Hfg. revert a. induction l as [|b l IH]; intros a; simpl; [done|].
  by rewrite Hfg, IH.
Qed.

Lemma collect_anchors_store response els :
  collect_anchors response els
  = fold_left (store anchor_key (anchor_info response)) els [].
Proof.
  unfold collect_anchors. apply fold_left_ext. intros d [t|txt]; [|done].
  unfold store; simpl. destruct (tag_attrs t !! "href") as [href|]; simpl; [|done].
  by destruct (String.eqb href "").
Qed.

Lemma collect_fallback_store response els :
  css response "a::attr(href)" = Some els →
  collect_fallback response
  = fold_left (store fallback_key (fun _ => mkLinkInfo "" "unknown" None))
      els [].
Proof.
  intros Hcss. unfold collect_fallback. rewrite Hcss.
  apply fold_left_ext. intros d e. unfold store, fallback_key.
  by destruct (String.eqb (text_or_str e) "").
Qed.

Lemma collect_fallback_nodup response :
  NoDup (map fst (collect_fallback response)).
Proof.
  destruct (css response "a::attr(href)") as [els|] eqn:Hcss.
  - rewrite (collect_fallback_store _ _ Hcss).
    apply store_loop_nodup. constructor.
  - unfold collect_fallback. rewrite Hcss. constructor.
Qed.

Lemma href_to_data_of_nodup response els :
  NoDup (map fst (href_to_data_of response els)).
Proof.
  unfold href_to_data_of.
  destruct (collect_anchors response els) as [|p d] eqn:Hd.
  - apply collect_fallback_nodup.
  - rewrite <- Hd, collect_anchors_store. apply store_loop_nodup. constructor.
Qed.

(** An href that some anchor stores is read from the first pass. *)
Lemma href_to_data_of_primary response els e :
  e ∈ els → anchor_key e ≠ None →
  href_to_data_of response els = collect_anchors response els.
Proof.
  intros He Hk. unfold href_to_data_of.
  destruct (collect_anchors response els) as [|p d] eqn:Hd; [|done].
  rewrite collect_anchors_store in Hd.
  destruct (store_loop_not_nil anchor_key (anchor_info response) els []);
    [right; by exists e | done].
Qed.

Section Extraction.

Context `{UrlLib}.
Variables (current_url base_domain : string) (include_subdomains : bool).

(** What a link built from [href] and [link_info] looks like. *)
Lemma build_link_Some href link_info l :
  build_link current_url base_domain include_subdomains href link_info
  = Some l →
  href ≠ "" ∧ skipped_href href = false
  ∧ original_href l = href
  ∧ url l = urljoin current_url href
  ∧ scheme (urlparse (url l)) ∈ ["http"; "https"]
  ∧ text l = info_text link_info
  ∧ source l = info_source link_info
  ∧ found_on_page l = current_url
  ∧ domain l = netloc (urlparse (url l))
  ∧ (is_internal l, is_subdomain l)
    = classify_domain (domain l) base_domain include_subdomains.
Proof.
  unfold build_link.
  destruct (String.eqb_spec href "") as [|Hne]; [done|].
  destruct (skipped_href href) eqn:Hskip; [done|].
  case_bool_decide as Hscheme; [|done].
  destruct (classify_domain _ _ _) as [i sd] eqn:Hcl.
  intros [= <-]. simpl. by rewrite Hcl.
Qed.

Lemma extract_links_omap response els :
  css response "a" = Some els →
  extract_links_from_page response current_url base_domain include_subdomains
  = omap (fun p => build_link current_url base_domain include_subdomains
                     (fst p) (snd p))
      (href_to_data_of response els).
Proof.
  intros Hcss. unfold extract_links_from_page. rewrite Hcss.
  rewrite (append_loop_omap
             (fun p => build_link current_url base_domain include_subdomains
                         (fst p) (snd p))); [done|].
  by intros acc [href link_info].
Qed.

Lemma extract_links_None response :
  css response "a" = None →
  extract_links_from_page response current_url base_domain include_subdomains
  = [].
Proof. intros Hcss. unfold extract_links_from_page. by rewrite Hcss. Qed.

(** Every link comes from one entry of the [dict]. *)
Lemma extract_links_entry response els l :
  css response "a" = Some els →
  l ∈ extract_links_from_page response current_url base_domain
        include_subdomains →
  ∃ link_info,
    dict_get (original_href l) (href_to_data_of response els) = Some link_info
    ∧ build_link current_url base_domain include_subdomains
        (original_href l) link_info = Some l.
Proof.
  intros Hcss. rewrite (extract_links_omap _ _ Hcss), list_elem_of_omap.
  intros ([href link_info] & Hin & Hbuild). simpl in Hbuild.
  destruct (build_link_Some _ _ _ Hbuild) as (_ & _ & -> & _).
  exists link_info. split; [|done].
  apply dict_get_elem_of; [apply href_to_data_of_nodup | done].
Qed.

Lemma omap_build_link_nodup (d : list (string * LinkInfo)) :
  NoDup (map fst d) →
  NoDup (map original_href
           (omap (fun p => build_link current_url base_domain
                             include_subdomains (fst p) (snd p)) d)).
Proof.
  induction d as [|[href link_info] d IH]; simpl; [constructor|].
  intros [Hhref Hnd]%NoDup_cons.
  destruct (build_link _ _ _ href link_info) as [l|] eqn:Hbuild;
    simpl; [|by apply IH].
  apply NoDup_cons. split; [|by apply IH].
  destruct (build_link_Some _ _ _ Hbuild) as (_ & _ & -> & _).
  intros (l' & Heq & Hl')%list_elem_of_fmap.
  apply list_elem_of_omap in Hl' as ([href' info'] & Hin & Hbuild').
  simpl in Hbuild'.
  destruct (build_link_Some _ _ _ Hbuild') as (_ & _ & Hh' & _).
  apply Hhref. apply list_elem_of_fmap. exists (href', info').
  split; [simpl; congruence | done].
Qed.

(** Where the href of a link was read. *)
Lemma extract_links_provenance response l :
  l ∈ extract_links_from_page response current_url base_domain
        include_subdomains →
  (∃ els e, css response "a" = Some els ∧ e ∈ els
            ∧ anchor_key e = Some (original_href l))
  ∨ (∃ els e, css response "a::attr(href)" = Some els ∧ e ∈ els
              ∧ fallback_key e = Some (original_href l)).
Proof.
  destruct (css response "a") as [els|] eqn:Hcss;
    [|rewrite extract_links_None by done; by intros ?%elem_of_nil].
  intros (link_info & Hget & _)%(extract_links_entry _ els); [|done].
  unfold href_to_data_of in Hget.
  destruct (collect_anchors response els) as [|p d] eqn:Hd.
  - right. destruct (css response "a::attr(href)") as [els'|] eqn:Hcss';
      [|unfold collect_fallback in Hget; by rewrite Hcss' in Hget].
    rewrite (collect_fallback_store _ _ Hcss') in Hget.
    apply store_loop_origin in Hget as [?|(e & He & Hk & _)]; [done|].
    by exists els', e.
  - left. rewrite <- Hd, collect_anchors_store in Hget.
    apply store_loop_origin in Hget as [?|(e & He & Hk & _)]; [done|].
    by exists els, e.
Qed.

End Extraction.

Lemma anchor_key_excluded e h :
  excluded_href (anchor_href e) = true →
  anchor_key e = Some h → skipped_href h = true.
Proof.
  destruct e as [t|txt]; simpl; [|done].
  destruct (tag_attrs t !! "href") as [raw|]; simpl; [|done].
  destruct (String.eqb raw ""); simpl; [done|].
  intros Hskip [= <-]. by apply skipped_href_strip.
Qed.

Lemma fallback_key_excluded e h :
  excluded_href (Some (text_or_str e)) = true →
  fallback_key e = Some h → skipped_href h = true.
Proof.
  unfold fallback_key; simpl.
  destruct (String.eqb (text_or_str e) ""); simpl; [done|].
  intros Hskip [= <-]. by apply skipped_href_strip.
Qed.

(** C5. Every link that extraction produces has the URL that [urljoin]
    resolves its href to, with scheme [http] or [https]; its href is not
    empty and does not start with [#], [mailto:] or [javascript:]; the href
    is the stripped [href] of an anchor of the page (or a stripped value of
    the fallback query), and never that of an anchor whose [href] is
    absent, empty or starts with [#], [mailto:] or [javascript:]: such an
    anchor yields no link. *)
Theorem extracted_links_are_http `{UrlLib} (response : Response)
    (current_url base_domain : string) (include_subdomains : bool)
    (l : Link) :
  l ∈ extract_links_from_page response current_url base_domain
        include_subdomains →
  url l = urljoin current_url (original_href l)
  ∧ scheme (urlparse (url l)) ∈ ["http"; "https"]
  ∧ excluded_href (Some (original_href l)) = false
  ∧ ((∃ els e, css response "a" = Some els ∧ e ∈ els
               ∧ anchor_key e = Some (original_href l))
     ∨ (∃ els e, css response "a::attr(href)" = Some els ∧ e ∈ els
                 ∧ fallback_key e = Some (original_href l)))
  ∧ (∀ e, excluded_href (anchor_href e) = true →
          anchor_key e ≠ Some (original_href l))
  ∧ (∀ e, excluded_href (Some (text_or_str e)) = true →
          fallback_key e ≠ Some (original_href l)).
Proof.
  intros Hl.
  assert (∃ link_info,
             build_link current_url base_domain include_subdomains
               (original_href l) link_info = Some l) as [link_info Hbuild].
  { destruct (css response "a") as [els|] eqn:Hcss.
    - destruct (extract_links_entry _ _ _ _ _ _ Hcss Hl) as (i & _ & Hb).
      by exists i.
    - rewrite extract_links_None in Hl by done. by apply elem_of_nil in Hl. }
  destruct (build_link_Some _ _ _ _ _ _ Hbuild)
    as (Hne & Hskip & _ & Hurl & Hscheme & _).
  split; [done|]. split; [done|]. split.
  { simpl. rewrite Hskip. by rewrite (proj2 (String.eqb_neq _ _) Hne). }
  split; [by eapply extract_links_provenance|]. split.
  - intros e Hex Hk. by rewrite (anchor_key_excluded _ _ Hex Hk) in Hskip.
  - intros e Hex Hk. by rewrite (fallback_key_excluded _ _ Hex Hk) in Hskip.
Qed.

(** The page [/a first, /about, /a second, #top, mailto:], fetched at
    [https://site.com/]. *)
Lemma extracted_links_are_http_witness :
  let response :=
    Site.page [Site.anchor "/a" "first"; Site.anchor "/about" "About";
               Site.anchor "/a" "second"; Site.anchor "#top" "Top";
               Site.anchor "mailto:a@b.com" "Mail"] in
  let l :=
    mkLink "https://site.com/about" "About" "site.com" "/about" "" ""
      true false "page" "footer" "/about" "https://site.com/" in
  scheme (urlparse (url l)) ∈ ["http"; "https"]
  ∧ anchor_key (Site.anchor "#top" "Top") ≠ Some (original_href l).
Proof.
  intros response l.
  assert (l ∈ extract_links_from_page response "https://site.com/"
                "site.com" false) as Hl by (vm_compute; right; left).
  destruct (extracted_links_are_http response "https://site.com/" "site.com"
              false l Hl) as (_ & Hscheme & _ & _ & Hexcl & _).
  split; [exact Hscheme|]. apply Hexcl. reflexivity.
Defined.

(** C4, amended.  Extraction collapses the anchors of a page by their
    stripped href before it builds the links: the output has at most one
    link per href, and that link carries the text and the source of the
    LAST anchor with that href; when some anchor of the page has a
    non-empty href, every href of the output is that of an anchor (the
    fallback pass contributes nothing). *)
Theorem extraction_keeps_last_seen `{UrlLib} (response : Response)
    (current_url base_domain : string) (include_subdomains : bool)
    (els : list Element) :
  css response "a" = Some els →
  let links :=
    extract_links_from_page response current_url base_domain
      include_subdomains in
  NoDup (map original_href links)
  ∧ ∀ l, l ∈ links →
      (∀ before t after,
         els = before ++ ElemTag t :: after →
         anchor_key (ElemTag t) = Some (original_href l) →
         (∀ e, e ∈ after → anchor_key e ≠ Some (original_href l)) →
         text l = Py.strip (tag_text t)
         ∧ source l = detect_link_source t response)
      ∧ ((∃ e, e ∈ els ∧ anchor_key e ≠ None) →
         ∃ e, e ∈ els ∧ anchor_key e = Some (original_href l)).
Proof.
  intros Hcss links. split.
  { subst links. rewrite (extract_links_omap _ _ _ _ _ Hcss).
    apply omap_build_link_nodup, href_to_data_of_nodup. }
  intros l Hl.
  destruct (extract_links_entry _ _ _ _ _ _ Hcss Hl)
    as (link_info & Hget & Hbuild).
  destruct (build_link_Some _ _ _ _ _ _ Hbuild)
    as (_ & _ & _ & _ & _ & Htext & Hsource & _).
  split.
  - intros before t after -> Hkey Hafter.
    rewrite (href_to_data_of_primary response _ (ElemTag t)) in Hget;
      [|apply elem_of_app; right; by left | by rewrite Hkey].
    rewrite collect_anchors_store in Hget.
    rewrite (store_loop_last _ _ _ _ _ _ _ Hkey Hafter) in Hget.
    injection Hget as <-. by rewrite Htext, Hsource.
  - intros (e & He & Hk).
    rewrite (href_to_data_of_primary response _ e He Hk) in Hget.
    rewrite collect_anchors_store in Hget.
    apply store_loop_origin in Hget as [?|(e' & He' & Hk' & _)]; [done|].
    by exists e'.
Qed.

Lemma extraction_keeps_last_seen_witness :
  NoDup (map original_href
           (extract_links_from_page
              (Site.page [Site.anchor "/a" "first"; Site.anchor "/about" "About";
                          Site.anchor "/a" "second"])
              "https://site.com/" "site.com" false)).
Proof.
  apply (extraction_keeps_last_seen
           (Site.page [Site.anchor "/a" "first"; Site.anchor "/about" "About";
                       Site.anchor "/a" "second"])
           "https://site.com/" "site.com" false
           [Site.anchor "/a" "first"; Site.anchor "/about" "About";
            Site.anchor "/a" "second"]).
  reflexivity.
Defined.

(** The scenario of a seed page with the anchors [/about],
    [https://other.com/x], [#frag] and [mailto:a@b.com] on [site.com]: two
    links come out, both of type [page]. *)
Example extraction_scenario :
  map (fun l => (url l, is_internal l, link_type l))
    (extract_links_from_page
       (Site.page [Site.anchor "/about" "About";
                   Site.anchor "https://other.com/x" "Other";
                   Site.anchor "#frag" "Fragment";
                   Site.anchor "mailto:a@b.com" "Mail"])
       "https://site.com/" "site.com" false)
  = [("https://site.com/about", true, "page");
     ("https://other.com/x", false, "page")].
Proof. reflexivity. Qed.

(** C4 fails as stated: of two anchors with the href [/a], the link
    carries the text of the second, not of the first seen. *)
Lemma second_anchor_text_wins :
  map (fun l => (original_href l, text l))
    (extract_links_from_page
       (Site.page [Site.anchor "/a" "first"; Site.anchor "/a" "second"])
       "https://site.com/" "site.com" false)
  = [("/a", "second")].
Proof. reflexivity. Qed.

(** ** CrawlEngine *)

Lemma append_loop_filter_map {A B} (keep : A → bool) (g : A → B)
    (f : list B → A → list B) :
  (∀ acc x, f acc x = if keep x then acc ++ [g x] else acc) →
  ∀ l acc, fold_left f l acc = acc ++ map g (List.filter keep l).
Proof.
  intros Hf l. induction l as [|x l IH]; intros acc; simpl.
  - by rewrite app_nil_r.
  - rewrite IH, Hf. destruct (keep x); [|done].
    simpl. by rewrite <- app_assoc.
Qed.

Lemma filter_links_sublist links internal_only external_only subdomains_only
    extensions filter_types unique_only existing_links :
  filter_links links internal_only external_only subdomains_only extensions
    filter_types unique_only existing_links `sublist_of` links.
Proof.
  unfold filter_links. cbv zeta.
  assert ((if internal_only then List.filter is_internal links
           else if external_only
           then List.filter
                  (fun l => negb (is_internal l) && negb (is_subdomain l))
                  links
           else if subdomains_only then List.filter is_subdomain links
           else links) `sublist_of` links) as Hscope.
  { destruct internal_only; [apply filter_sublist|].
    destruct external_only; [apply filter_sublist|].
    destruct subdomains_only; [apply filter_sublist|]. done. }
  destruct (given extensions), (given filter_types);
    rewrite ?filter_by_types_filter, ?filter_by_extensions_filter;
    repeat (etrans; [apply filter_sublist|]); exact Hscope.
Qed.

Lemma extract_links_found_on_page `{UrlLib} response current_url base_domain
    include_subdomains l :
  l ∈ extract_links_from_page response current_url base_domain
        include_subdomains →
  found_on_page l = current_url.
Proof.
  destruct (css response "a") as [els|] eqn:Hcss.
  - intros (link_info & _ & Hbuild)%(extract_links_entry _ _ _ _ els);
      [|done].
    by destruct (build_link_Some _ _ _ _ _ _ Hbuild)
      as (_ & _ & _ & _ & _ & _ & _ & ? & _).
  - rewrite extract_links_None by done. by intros ?%elem_of_nil.
Qed.

Section CrawlProperties.

Context `{UrlLib} `{Fetchers}.
Variable opts : Options.
Variable start_url : string.

Abbreviation step := (crawl_step opts start_url).
Abbreviation guard := (crawl_guard opts).
Abbreviation loop := (crawl_loop opts start_url).
Abbreviation budget := (budget opts).

Lemma enqueue_links_filter page_links visited current_depth queue :
  enqueue_links opts page_links visited current_depth queue
  = queue ++ map (fun l => (url l, current_depth + 1))
               (List.filter (crawlable opts visited) page_links).
Proof.
  unfold enqueue_links. apply append_loop_filter_map.
  intros acc l. unfold crawlable.
  destruct (is_internal l || _); simpl; [|done].
  by destruct (String.eqb _ _ && _).
Qed.

(** *** The three outcomes of an iteration *)

Lemma step_skip s current_url current_depth rest :
  to_visit s = (current_url, current_depth) :: rest →
  current_url ∈ visited s ∨ depth opts < current_depth →
  step s =
    mkCrawlState (visited s) rest (all_pages s) (all_links s)
      (total_pages_crawled s) (total_links_found s) (files_found s)
      (fetched s) (failed s) (enqueued s).
Proof.
  intros Htv Hskip. unfold crawl_step. rewrite Htv.
  destruct Hskip as [Hin|Hdepth].
  - by rewrite bool_decide_eq_true_2.
  - by rewrite (proj2 (Z.ltb_lt _ _) Hdepth), orb_true_r.
Qed.

Lemma step_failure s current_url current_depth rest :
  to_visit s = (current_url, current_depth) :: rest →
  current_url ∉ visited s → current_depth ≤ depth opts →
  fetch_page opts current_url = None →
  step s =
    mkCrawlState (visited s ∪ {[current_url]}) rest (all_pages s)
      (all_links s) (total_pages_crawled s + 1) (total_links_found s)
      (files_found s) (fetched s ++ [current_url])
      (failed s ++ [current_url]) (enqueued s).
Proof.
  intros Htv Hnew Hdepth Hfetch. unfold crawl_step. rewrite Htv.
  rewrite bool_decide_eq_false_2 by done.
  rewrite (proj2 (Z.ltb_ge _ _) Hdepth). simpl. by rewrite Hfetch.
Qed.

Lemma step_success s current_url current_depth rest response :
  to_visit s = (current_url, current_depth) :: rest →
  current_url ∉ visited s → current_depth ≤ depth opts →
  fetch_page opts current_url = Some response →
  let page_links :=
    extract_links_from_page response current_url (base_domain start_url)
      (include_subdomains opts) in
  let appended :=
    new_pairs opts (visited s ∪ {[current_url]}) page_links current_depth in
  visited (step s) = visited s ∪ {[current_url]}
  ∧ to_visit (step s) = rest ++ appended
  ∧ enqueued (step s) = enqueued s ++ appended
  ∧ fetched (step s) = fetched s ++ [current_url]
  ∧ failed (step s) = failed s
  ∧ all_links (step s)
    = all_links s
      ++ filter_links page_links (internal_only opts) (external_only opts)
           (subdomains_only opts) (extensions opts) (filter_types opts)
           (unique_only opts)
           (if unique_only opts then Some (all_links s) else None)
  ∧ ∃ page_data,
      all_pages (step s) = all_pages s ++ [page_data]
      ∧ page_url page_data = current_url
      ∧ page_depth page_data = current_depth.
Proof.
  intros Htv Hnew Hdepth Hfetch page_links appended.
  unfold crawl_step. rewrite Htv.
  rewrite bool_decide_eq_false_2 by done.
  rewrite (proj2 (Z.ltb_ge _ _) Hdepth). simpl. rewrite Hfetch. simpl.
  subst appended. unfold new_pairs.
  destruct (current_depth <? depth opts).
  - rewrite !enqueue_links_filter. repeat (split; [done|]). eauto.
  - rewrite !app_nil_r. repeat (split; [done|]). eauto.
Qed.

(** An iteration skips the pair, fails on it, or visits the page. *)
Lemma step_cases s current_url current_depth rest :
  to_visit s = (current_url, current_depth) :: rest →
  (current_url ∈ visited s ∨ depth opts < current_depth)
  ∨ ((current_url ∉ visited s) ∧ current_depth ≤ depth opts
     ∧ fetch_page opts current_url = None)
  ∨ ((current_url ∉ visited s) ∧ current_depth ≤ depth opts
     ∧ ∃ response, fetch_page opts current_url = Some response).
Proof.
  intros _. destruct (decide (current_url ∈ visited s)); [by left; left|].
  destruct (Z.lt_ge_cases (depth opts) current_depth) as [?|Hd];
    [by left; right|].
  right. destruct (fetch_page opts current_url) as [response|] eqn:Hf.
  - right. eauto.
  - by left.
Qed.

Lemma guard_to_visit s :
  guard s = true →
  ∃ current_url current_depth rest,
    to_visit s = (current_url, current_depth) :: rest
    ∧ Z.of_nat (size (visited s)) < max_pages opts.
Proof.
  unfold crawl_guard. destruct (to_visit s) as [|[u d] rest]; [done|].
  intros Hlt%Z.ltb_lt. by exists u, d, rest.
Qed.

(** *** Termination *)

Lemma size_visited_add (X : gset string) (u : string) :
  u ∉ X → size (X ∪ {[u]}) = S (size X).
Proof.
  intros Hu. rewrite size_union by by apply disjoint_singleton_r.
  rewrite size_singleton. lia.
Qed.

(** An iteration either visits a page, and the budget goes down, or it
    leaves the budget alone and shortens the queue. *)
Lemma step_decreases s :
  guard s = true →
  (budget (step s) < budget s)%nat
  ∨ (budget (step s) = budget s
     ∧ (length (to_visit (step s)) < length (to_visit s))%nat).
Proof.
  intros (u & d & rest & Htv & Hlt)%guard_to_visit.
  destruct (step_cases s u d rest Htv)
    as [Hskip|[(Hnew & Hd & Hf)|(Hnew & Hd & response & Hf)]].
  - right. rewrite (step_skip _ _ _ _ Htv Hskip), Htv. simpl.
    split; [done | lia].
  - left. rewrite (step_failure _ _ _ _ Htv Hnew Hd Hf).
    unfold budget; simpl. rewrite size_visited_add by done. lia.
  - left. destruct (step_success _ _ _ _ _ Htv Hnew Hd Hf) as (Hv & _).
    unfold budget. rewrite Hv, size_visited_add by done. lia.
Qed.

Lemma loop_terminates_bounded (n m : nat) (s : CrawlState) :
  (budget s ≤ n)%nat → (length (to_visit s) ≤ m)%nat →
  ∃ fuel s', loop fuel s = Some s' ∧ guard s' = false.
Proof.
  revert m s. induction n as [|n IHn]; intros m; induction m as [|m IHm];
    intros s Hn Hm;
    (destruct (guard s) eqn:Hg;
     [|exists O, s; simpl; by rewrite Hg]).
  - apply guard_to_visit in Hg as (? & ? & ? & _ & ?). unfold budget in Hn. lia.
  - apply guard_to_visit in Hg as (? & ? & ? & _ & ?). unfold budget in Hn. lia.
  - apply guard_to_visit in Hg as (? & ? & ? & Htv & _).
    rewrite Htv in Hm. simpl in Hm. lia.
  - destruct (step_decreases s Hg) as [Hb|[Hb Hl]].
    + destruct (IHn (length (to_visit (step s))) (step s))
        as (fuel & s' & Hrun & Hend); [lia | done |].
      exists (S fuel), s'. simpl. by rewrite Hg.
    + destruct (IHm (step s)) as (fuel & s' & Hrun & Hend); [lia | lia |].
      exists (S fuel), s'. simpl. by rewrite Hg.
Qed.

(** The loop ends from every state. *)
Lemma loop_terminates (s : CrawlState) :
  ∃ fuel s', loop fuel s = Some s' ∧ guard s' = false.
Proof. by apply (loop_terminates_bounded (budget s) (length (to_visit s))). Qed.

(** More fuel does not change the outcome. *)
Lemma loop_deterministic fuel1 fuel2 s s1 s2 :
  loop fuel1 s = Some s1 → loop fuel2 s = Some s2 → s1 = s2.
Proof.
  revert fuel2 s. induction fuel1 as [|fuel1 IH]; intros fuel2 s; simpl.
  - destruct (guard s) eqn:Hg; [done|]. intros [= <-].
    destruct fuel2; simpl; rewrite Hg; by intros [= <-].
  - destruct (guard s) eqn:Hg.
    + destruct fuel2; simpl; rewrite Hg; [done|]. apply IH.
    + intros [= <-]. destruct fuel2; simpl; rewrite Hg; by intros [= <-].
Qed.

(** *** The first iteration *)

Lemma first_iteration :
  0 ≤ depth opts →
  let s1 := step (initial_state start_url) in
  visited s1 = {[start_url]}
  ∧ fetched s1 = [start_url]
  ∧ (depth opts = 0 → to_visit s1 = [] ∧ enqueued s1 = []).
Proof.
  intros Hdepth s1.
  assert (to_visit (initial_state start_url) = [(start_url, 0)]) as Htv by done.
  assert (start_url ∉ visited (initial_state start_url)) as Hnew
    by apply not_elem_of_empty.
  destruct (fetch_page opts start_url) as [response|] eqn:Hf.
  - destruct (step_success _ _ _ _ _ Htv Hnew Hdepth Hf)
      as (Hv & Hq & He & Hfe & _).
    fold s1 in Hv, Hq, He, Hfe. rewrite Hv, Hq, He, Hfe. simpl.
    split; [apply (left_id_L ∅ (∪))|]. split; [done|].
    intros Hzero. unfold new_pairs. by rewrite Hzero.
  - subst s1. rewrite (step_failure _ _ _ _ Htv Hnew Hdepth Hf). simpl.
    split; [apply (left_id_L ∅ (∪))|]. done.
Qed.

Lemma initial_guard :
  1 ≤ max_pages opts → guard (initial_state start_url) = true.
Proof.
  intros Hm.
  change (guard (initial_state start_url))
    with (Z.of_nat (size (∅ : gset string)) <? max_pages opts).
  rewrite size_empty. apply Z.ltb_lt. lia.
Qed.

(** C6, amended.  The crawl loop terminates from every state.  With
    [max_depth = 0] and [max_pages >= 1] it visits exactly the seed page
    and enqueues nothing; with [max_pages = 1] and [max_depth >= 0] exactly
    one page, the seed, is fetched.  (With [max_pages <= 0], or with a
    negative [max_depth], no page is visited at all.) *)
Theorem crawl_terminates_within_bounds :
  (∀ s, ∃ fuel s', loop fuel s = Some s' ∧ guard s' = false)
  ∧ (depth opts = 0 → 1 ≤ max_pages opts →
     ∃ fuel s',
       loop fuel (initial_state start_url) = Some s'
       ∧ visited s' = {[start_url]} ∧ fetched s' = [start_url]
       ∧ enqueued s' = [] ∧ to_visit s' = [])
  ∧ (max_pages opts = 1 → 0 ≤ depth opts →
     ∃ fuel s',
       loop fuel (initial_state start_url) = Some s'
       ∧ visited s' = {[start_url]} ∧ fetched s' = [start_url]).
Proof.
  split; [apply loop_terminates|]. split.
  - intros Hd Hm. exists 1%nat, (step (initial_state start_url)).
    destruct first_iteration as (Hv & Hf & Hq); [lia|].
    destruct (Hq Hd) as [Htv He].
    split; [|done]. simpl. rewrite (initial_guard Hm).
    unfold crawl_guard. by rewrite Htv.
  - intros Hm Hd. exists 1%nat, (step (initial_state start_url)).
    destruct first_iteration as (Hv & Hf & _); [done|].
    split; [|done]. simpl. rewrite initial_guard by lia.
    unfold crawl_guard. rewrite Hv, size_singleton, Hm.
    by destruct (to_visit _).
Qed.

End CrawlProperties.

Lemma crawl_terminates_within_bounds_witness :
  (∃ fuel s',
      crawl_loop (Site.options 0 50) "https://site.com/" fuel
        (initial_state "https://site.com/") = Some s'
      ∧ visited s' = {["https://site.com/"]}
      ∧ fetched s' = ["https://site.com/"]
      ∧ enqueued s' = [] ∧ to_visit s' = [])
  ∧ (∃ fuel s',
      crawl_loop (Site.options 5 1) "https://site.com/" fuel
        (initial_state "https://site.com/") = Some s'
      ∧ visited s' = {["https://site.com/"]}
      ∧ fetched s' = ["https://site.com/"]).
Proof.
  split.
  - apply (crawl_terminates_within_bounds (Site.options 0 50)
             "https://site.com/"); [reflexivity | simpl; lia].
  - apply (crawl_terminates_within_bounds (Site.options 5 1)
             "https://site.com/"); [reflexivity | simpl; lia].
Defined.

(** C6 fails as stated: with [max_depth = 0] and [max_pages = 0] the loop
    ends at once and the seed page is not visited; with [max_pages = 1] and
    [max_depth = -1] the seed is skipped and no page is fetched. *)
Lemma seed_not_visited :
  crawl_loop (Site.options 0 0) "https://site.com/" 0
    (initial_state "https://site.com/")
  = Some (initial_state "https://site.com/")
  ∧ visited (initial_state "https://site.com/") = ∅
  ∧ (∃ s', crawl_loop (Site.options (-1) 1) "https://site.com/" 1
             (initial_state "https://site.com/") = Some s'
           ∧ fetched s' = [] ∧ visited s' = ∅).
Proof.
  split; [reflexivity|]. split; [reflexivity|].
  eexists. split; [reflexivity|]. split; reflexivity.
Qed.

(** *** Invariants of the loop *)

Section CrawlInvariants.

Context `{UrlLib} `{Fetchers}.
Variable opts : Options.
Variable start_url : string.

Abbreviation step := (crawl_step opts start_url).
Abbreviation guard := (crawl_guard opts).

Lemma reachable_ind (P : CrawlState → Prop) :
  P (initial_state start_url) →
  (∀ s, reachable opts start_url s → guard s = true → P s → P (step s)) →
  ∀ s, reachable opts start_url s → P s.
Proof.
  intros Hinit Hstep. unfold reachable.
  apply rtc_ind_r; [done|].
  intros s s' Hs [Hg ->] IH. by apply Hstep.
Qed.

Lemma reachable_trans s s' :
  reachable opts start_url s →
  rtc (crawl_iteration opts start_url) s s' →
  reachable opts start_url s'.
Proof. unfold reachable. intros Hs Hs'. by etrans. Qed.

(** What an iteration appends, and under which conditions. *)
Lemma step_appends s current_url current_depth rest :
  to_visit s = (current_url, current_depth) :: rest →
  ∃ appended,
    enqueued (step s) = enqueued s ++ appended
    ∧ to_visit (step s) = rest ++ appended
    ∧ ∀ link_url d,
        (link_url, d) ∈ appended →
        ∃ response link,
          fetch_page opts current_url = Some response
          ∧ link ∈ extract_links_from_page response current_url
                     (base_domain start_url) (include_subdomains opts)
          ∧ link_url = url link ∧ d = current_depth + 1
          ∧ current_depth < depth opts
          ∧ (is_internal link = true
             ∨ (include_subdomains opts = true ∧ is_subdomain link = true))
          ∧ path_suffix (path (urlparse link_url)) = ""
          ∧ link_url ∉ visited (step s).
Proof.
  intros Htv.
  destruct (step_cases opts s current_url current_depth rest Htv)
    as [Hskip|[(Hnew & Hd & Hf)|(Hnew & Hd & response & Hf)]].
  - exists []. rewrite (step_skip opts start_url _ _ _ _ Htv Hskip). simpl.
    rewrite !app_nil_r. repeat split. by intros ?? ?%elem_of_nil.
  - exists []. rewrite (step_failure opts start_url _ _ _ _ Htv Hnew Hd Hf). simpl.
    rewrite !app_nil_r. repeat split. by intros ?? ?%elem_of_nil.
  - destruct (step_success opts start_url _ _ _ _ _ Htv Hnew Hd Hf)
      as (Hv & Hq & He & _).
    eexists. split; [exact He|]. split; [exact Hq|].
    intros link_url d. unfold new_pairs.
    destruct (current_depth <? depth opts) eqn:Hlt;
      [|by intros ?%elem_of_nil].
    intros (link & [= -> ->] & [Hin Hc]%filter_elem_of)%list_elem_of_fmap.
    exists response, link. rewrite Hv.
    unfold crawlable in Hc.
    apply andb_true_iff in Hc as [Hscope [Hsuffix Hfresh]%andb_true_iff].
    repeat split; try done.
    + by apply Z.ltb_lt.
    + apply orb_true_iff in Hscope as [?|[??]%andb_true_iff]; auto.
    + by apply String.eqb_eq.
    + apply negb_true_iff in Hfresh. by apply bool_decide_eq_false in Hfresh.
Qed.

Lemma frontier_inv_reachable s :
  reachable opts start_url s → frontier_inv opts start_url s.
Proof.
  revert s. apply reachable_ind.
  - intros u d [= -> ->]%list_elem_of_singleton. by left.
  - intros s _ (u & d & rest & Htv & _)%guard_to_visit Hinv.
    destruct (step_appends s u d rest Htv) as (appended & _ & Hq & Happ).
    intros link_url d'. rewrite Hq, elem_of_app. intros [Hin|Hin].
    + apply Hinv. rewrite Htv. by right.
    + destruct (Happ _ _ Hin) as (_ & _ & _ & _ & _ & -> & Hlt & _ & Hsuf & _).
      right. split; [done|].
      destruct (Hinv u d) as [[= _ ->]|[_ ?]]; [rewrite Htv; by left|lia|lia].
Qed.

(** C7. Beyond the seed, an iteration appends a pair to the queue only for
    a link of the page just fetched, one level below the current depth,
    when the current depth is strictly below [max_depth], the link is
    internal (or a subdomain link with [include_subdomains] enabled), its
    path has no file extension and its URL is not in the visited set; so
    the queue of a crawl only ever holds the seed and, at depths from 1 to
    [max_depth], URLs whose path has no file extension. *)
Theorem enqueue_only_crawlable_pages (s : CrawlState) :
  reachable opts start_url s →
  (∀ current_url current_depth rest,
     to_visit s = (current_url, current_depth) :: rest →
     ∃ appended,
       enqueued (step s) = enqueued s ++ appended
       ∧ to_visit (step s) = rest ++ appended
       ∧ ∀ link_url d,
           (link_url, d) ∈ appended →
           ∃ response link,
             fetch_page opts current_url = Some response
             ∧ link ∈ extract_links_from_page response current_url
                        (base_domain start_url) (include_subdomains opts)
             ∧ link_url = url link ∧ d = current_depth + 1
             ∧ current_depth < depth opts
             ∧ (is_internal link = true
                ∨ (include_subdomains opts = true
                   ∧ is_subdomain link = true))
             ∧ path_suffix (path (urlparse link_url)) = ""
             ∧ link_url ∉ visited (step s))
  ∧ (∀ link_url d,
       (link_url, d) ∈ to_visit s →
       (link_url, d) = (start_url, 0)
       ∨ (path_suffix (path (urlparse link_url)) = ""
          ∧ 1 ≤ d ≤ depth opts)).
Proof.
  intros Hs. split.
  - intros current_url current_depth rest Htv. by apply step_appends.
  - by apply frontier_inv_reachable.
Qed.

Lemma crawl_inv_initial : crawl_inv (initial_state start_url).
Proof.
  unfold crawl_inv; simpl. split; [constructor|].
  split; [intros u; split; [by intros ?%elem_of_nil
                           | by intros ?%not_elem_of_empty]|].
  split; [|split]; by intros ? ?%elem_of_nil.
Qed.

Lemma crawl_inv_step s :
  guard s = true → crawl_inv s → crawl_inv (step s).
Proof.
  intros (u & d & rest & Htv & _)%guard_to_visit
    (Hnd & Hfv & Hfail & Hpages & Hlinks).
  destruct (step_cases opts s u d rest Htv)
    as [Hskip|[(Hnew & Hd & Hf)|(Hnew & Hd & response & Hf)]].
  - by rewrite (step_skip opts start_url _ _ _ _ Htv Hskip).
  - rewrite (step_failure opts start_url _ _ _ _ Htv Hnew Hd Hf).
    unfold crawl_inv; simpl.
    assert (u ∉ fetched s) as Hnf by by rewrite Hfv.
    split; [apply NoDup_app; split; [done|]; split;
            [by intros x Hx ->%list_elem_of_singleton
            | apply NoDup_singleton]|].
    split; [intros x; rewrite elem_of_app, list_elem_of_singleton,
              elem_of_union, elem_of_singleton, Hfv; tauto|].
    split; [intros x; rewrite elem_of_app, list_elem_of_singleton,
              elem_of_union, elem_of_singleton; intros [?%Hfail|]; tauto|].
    split.
    + intros pg [Hv Hnf']%Hpages. split; [apply elem_of_union; by left|].
      rewrite elem_of_app, list_elem_of_singleton.
      intros [?|Heq]; [done|]. by rewrite Heq in Hv.
    + intros l [Hv Hnf']%Hlinks. split; [apply elem_of_union; by left|].
      rewrite elem_of_app, list_elem_of_singleton.
      intros [?|Heq]; [done|]. by rewrite Heq in Hv.
  - destruct (step_success opts start_url _ _ _ _ _ Htv Hnew Hd Hf)
      as (Hv & _ & _ & Hfe & Hfa & Hal & pd & Hap & Hpu & _).
    unfold crawl_inv. rewrite Hv, Hfe, Hfa, Hal, Hap.
    assert (u ∉ fetched s) as Hnf by by rewrite Hfv.
    assert (u ∉ failed s) as Hnfail by (intros ?%Hfail; done).
    split; [apply NoDup_app; split; [done|]; split;
            [by intros x Hx ->%list_elem_of_singleton
            | apply NoDup_singleton]|].
    split; [intros x; rewrite elem_of_app, list_elem_of_singleton,
              elem_of_union, elem_of_singleton, Hfv; tauto|].
    split; [intros x ?%Hfail; apply elem_of_union; by left|].
    split.
    + intros pg [[Hv' Hnf']%Hpages| ->%list_elem_of_singleton]%elem_of_app.
      * split; [apply elem_of_union; by left | done].
      * rewrite Hpu.
        split; [apply elem_of_union; right; by apply elem_of_singleton
               | done].
    + intros l [[Hv' Hnf']%Hlinks|Hin]%elem_of_app.
      * split; [apply elem_of_union; by left | done].
      * apply elem_of_sublist
          with (l2 := extract_links_from_page response u
                        (base_domain start_url) (include_subdomains opts))
          in Hin; [|apply filter_links_sublist].
        apply extract_links_found_on_page in Hin as ->.
        split; [apply elem_of_union; right; by apply elem_of_singleton
               | done].
Qed.

Lemma crawl_inv_reachable s :
  reachable opts start_url s → crawl_inv s.
Proof.
  revert s. apply reachable_ind; [apply crawl_inv_initial|].
  intros s _ Hg Hinv. by apply crawl_inv_step.
Qed.

(** The log of failures only grows. *)
Lemma failed_grows s s' u :
  rtc (crawl_iteration opts start_url) s s' → u ∈ failed s → u ∈ failed s'.
Proof.
  intros Hrun Hu. induction Hrun as [|s s1 s' [Hg ->] _ IH]; [done|].
  apply IH. apply guard_to_visit in Hg as (cu & d & rest & Htv & _).
  destruct (step_cases opts s cu d rest Htv)
    as [Hskip|[(Hnew & Hd & Hf)|(Hnew & Hd & response & Hf)]].
  - by rewrite (step_skip opts start_url _ _ _ _ Htv Hskip).
  - rewrite (step_failure opts start_url _ _ _ _ Htv Hnew Hd Hf). simpl.
    apply elem_of_app. by left.
  - destruct (step_success opts start_url _ _ _ _ _ Htv Hnew Hd Hf)
      as (_ & _ & _ & _ & -> & _). done.
Qed.

(** C8. When the fetch of a frontier URL raises, the iteration records
    the failure and leaves the rest of the queue for the next iterations;
    it adds no link and no page record; and from then on, to the end of
    the run, the URL stays in the visited set, no page record and no link
    comes from it, and it is handed to the fetcher no second time. *)
Theorem failed_fetch_is_not_retried (s : CrawlState) (current_url : string)
    (current_depth : Z) (rest : list (string * Z)) :
  reachable opts start_url s →
  guard s = true →
  to_visit s = (current_url, current_depth) :: rest →
  current_url ∉ visited s →
  current_depth ≤ depth opts →
  fetch_page opts current_url = None →
  failed (step s) = failed s ++ [current_url]
  ∧ to_visit (step s) = rest
  ∧ all_links (step s) = all_links s
  ∧ all_pages (step s) = all_pages s
  ∧ ∀ s', rtc (crawl_iteration opts start_url) (step s) s' →
      current_url ∈ visited s'
      ∧ (∀ p, p ∈ all_pages s' → page_url p ≠ current_url)
      ∧ (∀ l, l ∈ all_links s' → found_on_page l ≠ current_url)
      ∧ current_url ∈ fetched s' ∧ NoDup (fetched s').
Proof.
  intros Hs Hg Htv Hnew Hd Hf.
  assert (reachable opts start_url (step s)) as Hs1.
  { eapply rtc_r; [exact Hs | by split]. }
  pose proof (step_failure opts start_url _ _ _ _ Htv Hnew Hd Hf) as Hstep.
  rewrite Hstep at 1 2 3 4. simpl. repeat (split; [done|]).
  intros s' Hrun.
  assert (current_url ∈ failed s') as Hfailed.
  { apply (failed_grows _ _ _ Hrun). rewrite Hstep. simpl.
    apply elem_of_app. right. by left. }
  destruct (crawl_inv_reachable s' (reachable_trans _ _ Hs1 Hrun))
    as (Hnd & Hfv & Hfail & Hpages & Hlinks).
  split; [by apply Hfail|]. split; [|split; [|split]].
  - intros pg [_ Hp]%Hpages Heq. by rewrite Heq in Hp.
  - intros l [_ Hl]%Hlinks Heq. by rewrite Heq in Hl.
  - by apply Hfv, Hfail.
  - done.
Qed.

End CrawlInvariants.

(** The crawl of the example site, two iterations in: the home page and
    [/about] are visited, [/broken] is next. *)
Lemma failed_fetch_is_not_retried_witness :
  let opts := Site.options 2 50 in
  let s :=
    crawl_step opts "https://site.com/"
      (crawl_step opts "https://site.com/"
         (initial_state "https://site.com/")) in
  failed (crawl_step opts "https://site.com/" s)
  = failed s ++ ["https://site.com/broken"]
  ∧ to_visit (crawl_step opts "https://site.com/" s)
    = [("https://site.com/team", 2)].
Proof.
  intros opts s.
  destruct (failed_fetch_is_not_retried opts "https://site.com/" s
              "https://site.com/broken" 1 [("https://site.com/team", 2)])
    as (Hfailed & Hqueue & _).
  - eapply rtc_l; [split; [|reflexivity]; vm_compute; reflexivity|].
    eapply rtc_l; [split; [|reflexivity]; vm_compute; reflexivity|].
    apply rtc_refl.
  - vm_compute; reflexivity.
  - vm_compute; reflexivity.
  - apply (bool_decide_unpack _). vm_compute. exact I.
  - simpl. lia.
  - reflexivity.
  - by split.
Defined.

(** The queue of the example site after the first iteration holds
    [/about] at depth 1. *)
Lemma enqueue_only_crawlable_pages_witness :
  ("https://site.com/about", 1) = ("https://site.com/", 0)
  ∨ (path_suffix (path (urlparse "https://site.com/about")) = ""
     ∧ 1 ≤ 1 ≤ depth (Site.options 2 50)).
Proof.
  apply (enqueue_only_crawlable_pages (Site.options 2 50) "https://site.com/"
           (crawl_step (Site.options 2 50) "https://site.com/"
              (initial_state "https://site.com/"))).
  - eapply rtc_l; [split; [|reflexivity]; vm_compute; reflexivity|].
    apply rtc_refl.
  - vm_compute. left.
Defined.

(** * Further properties *)

(** ** Removing duplicate links *)

Lemma unique_links_loop links seen acc :
  snd
    (fold_left
       (fun '(seen_urls, unique_links) link =>
          if bool_decide (url link ∈ (seen_urls : gset string))
          then (seen_urls, unique_links)
          else (seen_urls ∪ {[url link]}, unique_links ++ [link]))
       links (seen, acc))
  = acc ++ unique_from seen links.
Proof.
  revert seen acc. induction links as [|x links IH]; intros seen acc; simpl.
  - by rewrite app_nil_r.
  - case_bool_decide; rewrite IH; [done|]. by rewrite <- app_assoc.
Qed.

Lemma unique_links_from links : unique_links links = unique_from ∅ links.
Proof. unfold unique_links. by rewrite unique_links_loop. Qed.

Lemma unique_from_sublist seen links :
  unique_from seen links `sublist_of` links.
Proof.
  revert seen. induction links as [|x links IH]; intros seen; simpl;
    [constructor|].
  case_bool_decide; by constructor.
Qed.

Lemma unique_from_fresh seen links x :
  x ∈ unique_from seen links → url x ∉ seen.
Proof.
  revert seen. induction links as [|y links IH]; intros seen; simpl;
    [by intros ?%elem_of_nil|].
  case_bool_decide as Hy; [apply IH|].
  intros [->|Hin]%elem_of_cons; [done|].
  apply IH in Hin. intros Hs. apply Hin, elem_of_union. by left.
Qed.

Lemma unique_from_nodup seen links :
  NoDup (map url (unique_from seen links)).
Proof.
  revert seen. induction links as [|x links IH]; intros seen; simpl;
    [constructor|].
  case_bool_decide as Hx; [apply IH|].
  simpl. apply NoDup_cons. split; [|apply IH].
  intros (y & Hurl & Hin%unique_from_fresh)%list_elem_of_fmap.
  apply Hin, elem_of_union. right. by apply elem_of_singleton.
Qed.

Lemma unique_from_covers seen links u :
  u ∈ map url links → u ∈ seen ∨ u ∈ map url (unique_from seen links).
Proof.
  revert seen. induction links as [|x links IH]; intros seen; simpl;
    [by intros ?%elem_of_nil|].
  intros [->|Hin]%elem_of_cons.
  - case_bool_decide; [by left|]. right. by left.
  - case_bool_decide as Hx; [by apply IH|].
    destruct (IH (seen ∪ {[url x]}) Hin)
      as [[?| ->%elem_of_singleton]%elem_of_union|?].
    + by left.
    + right. by left.
    + right. by right.
Qed.

(** The first link with a URL that [seen] does not hold is kept. *)
Lemma unique_from_first seen before x after :
  url x ∉ seen →
  (∀ y, y ∈ before → url y ≠ url x) →
  x ∈ unique_from seen (before ++ x :: after).
Proof.
  revert seen. induction before as [|y before IH]; intros seen Hx Hb; simpl.
  - rewrite bool_decide_eq_false_2 by done. by left.
  - assert (url y ≠ url x) as Hne by (apply Hb; by left).
    assert (∀ z, z ∈ before → url z ≠ url x) as Hb'
      by (intros z Hz; apply Hb; by right).
    case_bool_decide; [by apply IH|].
    right. apply IH; [|done].
    rewrite elem_of_union, elem_of_singleton. intros [?|?]; congruence.
Qed.

Lemma unique_from_id seen links :
  NoDup (map url links) → (∀ x, x ∈ links → url x ∉ seen) →
  unique_from seen links = links.
Proof.
  revert seen. induction links as [|x links IH]; intros seen; simpl; [done|].
  intros [Hx Hnd]%NoDup_cons Hseen.
  rewrite bool_decide_eq_false_2 by (apply Hseen; by left).
  f_equal. apply IH; [done|].
  intros y Hy. rewrite elem_of_union, elem_of_singleton.
  intros [Hs| Heq].
  - by apply (Hseen y); [right|].
  - apply Hx. rewrite <- Heq. apply list_elem_of_fmap. by exists y.
Qed.

(** X1. The duplicate-removing loop returns a subsequence of its input in
    which no URL occurs twice and in which every URL of the input still
    occurs. *)
Theorem unique_links_distinct_urls (links : list Link) :
  NoDup (map url (unique_links links))
  ∧ unique_links links `sublist_of` links
  ∧ ∀ u, u ∈ map url (unique_links links) ↔ u ∈ map url links.
Proof.
  rewrite unique_links_from.
  split; [apply unique_from_nodup|]. split; [apply unique_from_sublist|].
  intros u. split.
  - intros (x & -> & Hx)%list_elem_of_fmap. apply list_elem_of_fmap.
    exists x. split; [done|].
    by eapply elem_of_sublist; [|apply unique_from_sublist].
  - intros [[]%not_elem_of_empty|?]%(unique_from_covers ∅); done.
Qed.

(** X2. Of the links that share a URL, the loop keeps the first: a link
    before which no link of the input has the same URL is in the output,
    and it is the only link of the output with that URL. *)
Theorem unique_links_keeps_first (before after : list Link) (x : Link) :
  (∀ y, y ∈ before → url y ≠ url x) →
  x ∈ unique_links (before ++ x :: after)
  ∧ ∀ y, y ∈ unique_links (before ++ x :: after) → url y = url x → y = x.
Proof.
  intros Hb. rewrite unique_links_from.
  assert (x ∈ unique_from ∅ (before ++ x :: after)) as Hx
    by (apply unique_from_first; [apply not_elem_of_empty | done]).
  split; [done|]. intros y Hy Hurl.
  pose proof (unique_from_nodup ∅ (before ++ x :: after)) as Hnd.
  apply list_elem_of_lookup in Hx as [i Hi].
  apply list_elem_of_lookup in Hy as [j Hj].
  assert (i = j) as ->; [|congruence].
  apply (NoDup_lookup _ i j (url x) Hnd); rewrite list_lookup_fmap.
  - by rewrite Hi.
  - rewrite Hj. simpl. by rewrite Hurl.
Qed.

Lemma unique_links_keeps_first_witness :
  let first := mkLink "http://x.com/a" "first" "x.com" "/a" "" ""
                 true false "page" "content" "/a" "http://x.com/" in
  let second := mkLink "http://x.com/a" "second" "x.com" "/a" "" ""
                  true false "page" "footer" "a" "http://x.com/b" in
  first ∈ unique_links ([] ++ first :: [second]).
Proof.
  intros first second.
  assert (∀ y : Link, y ∈ [] → url y ≠ url first) as Hbefore
    by (by intros y ?%elem_of_nil).
  exact (proj1 (unique_links_keeps_first [] [second] first Hbefore)).
Defined.

(** X3. A list without repeated URLs goes through the loop unchanged, so
    running the loop a second time changes nothing. *)
Theorem unique_links_idempotent (links : list Link) :
  (NoDup (map url links) → unique_links links = links)
  ∧ unique_links (unique_links links) = unique_links links.
Proof.
  assert (∀ l, NoDup (map url l) → unique_links l = l) as Hid.
  { intros l Hnd. rewrite unique_links_from.
    apply unique_from_id; [done|]. intros x _. apply not_elem_of_empty. }
  split; [apply Hid|].
  apply Hid. rewrite unique_links_from. apply unique_from_nodup.
Qed.

Lemma unique_links_idempotent_witness :
  let a := mkLink "http://x.com/a" "" "x.com" "/a" "" ""
             true false "page" "content" "/a" "http://x.com/" in
  let b := mkLink "http://x.com/b" "" "x.com" "/b" "" ""
             true false "page" "content" "/b" "http://x.com/" in
  unique_links [a; b] = [a; b].
Proof.
  intros a b.
  assert (NoDup (map url [a; b])) as Hnd
    by (apply (bool_decide_unpack _); vm_compute; exact I).
  exact (proj1 (unique_links_idempotent [a; b]) Hnd).
Defined.

(** ** The filter pipeline *)

Lemma filter_true {A} (l : list A) : List.filter (fun _ => true) l = l.
Proof. induction l as [|x l IH]; simpl; [done|]. by rewrite IH. Qed.

Lemma scope_filter (links : list Link)
    (internal_only external_only subdomains_only : bool) :
  (if internal_only then List.filter is_internal links
   else if external_only
   then List.filter (fun l => negb (is_internal l) && negb (is_subdomain l))
          links
   else if subdomains_only then List.filter is_subdomain links
   else links)
  = List.filter (in_scope internal_only external_only subdomains_only) links.
Proof.
  unfold in_scope.
  destruct internal_only; [done|]. destruct external_only; [done|].
  destruct subdomains_only; [done|]. by rewrite filter_true.
Qed.

Lemma filter_links_filter (links : list Link)
    (internal_only external_only subdomains_only : bool)
    (extensions filter_types : option string) (unique_only : bool)
    (existing_links : option (list Link)) :
  filter_links links internal_only external_only subdomains_only extensions
    filter_types unique_only existing_links
  = List.filter
      (kept_link internal_only external_only subdomains_only extensions
         filter_types)
      links.
Proof.
  unfold filter_links, kept_link, extension_tokens, type_tokens.
  cbv zeta. rewrite scope_filter.
  destruct (given extensions) as [exts|], (given filter_types) as [fts|];
    rewrite ?filter_by_types_filter, ?filter_by_extensions_filter,
      ?filter_filter_and;
    apply filter_ext; intros l; by rewrite ?andb_true_r, <- ?andb_assoc.
Qed.

(** X4. [filter_links] is a stateless filter: its result is a subsequence
    of its input; it decides link by link, so that filtering two lists and
    joining the results is filtering the joined list; filtering again with
    the same options changes nothing; and the arguments [unique_only] and
    [existing_links] have no effect. *)
Theorem filter_links_is_a_filter (links1 links2 : list Link)
    (internal_only external_only subdomains_only : bool)
    (extensions filter_types : option string)
    (unique_only unique_only' : bool)
    (existing_links existing_links' : option (list Link)) :
  let f links u e :=
    filter_links links internal_only external_only subdomains_only
      extensions filter_types u e in
  f links1 unique_only existing_links `sublist_of` links1
  ∧ f (links1 ++ links2) unique_only existing_links
    = f links1 unique_only existing_links
      ++ f links2 unique_only existing_links
  ∧ f (f links1 unique_only existing_links) unique_only existing_links
    = f links1 unique_only existing_links
  ∧ f links1 unique_only existing_links
    = f links1 unique_only' existing_links'.
Proof.
  cbv beta zeta. rewrite !filter_links_filter.
  split; [apply filter_sublist|]. split; [apply List.filter_app|].
  split; [|done].
  rewrite filter_filter_and. apply filter_ext. intros l.
  by destruct (kept_link _ _ _ _ _ l).
Qed.

(** X5. A link comes out of [filter_links] exactly when it is in the
    input, passes the scope test of the first flag that is set
    ([internal_only] before [external_only] before [subdomains_only]),
    ends in one of the extensions when [extensions] is given, and has one
    of the expanded types or contains a dot followed by a filter token
    when [filter_types] is given. *)
Theorem filter_links_keeps (links : list Link)
    (internal_only external_only subdomains_only : bool)
    (extensions filter_types : option string) (unique_only : bool)
    (existing_links : option (list Link)) (l : Link) :
  l ∈ filter_links links internal_only external_only subdomains_only
        extensions filter_types unique_only existing_links
  ↔ l ∈ links
    ∧ (if internal_only then is_internal l = true
       else if external_only
       then is_internal l = false ∧ is_subdomain l = false
       else if subdomains_only then is_subdomain l = true
       else True)
    ∧ (∀ exts, given extensions = Some exts →
         ∃ ext, ext ∈ extension_tokens exts
                ∧ Py.endswith ("." +:+ ext) (Py.lower (url l)) = true)
    ∧ (∀ fts, given filter_types = Some fts →
         link_type l ∈ expand_filters (type_tokens fts)
         ∨ ∃ t, t ∈ type_tokens fts
                ∧ Py.contains ("." +:+ t) (Py.lower (url l)) = true).
Proof.
  rewrite filter_links_filter, filter_elem_of. unfold kept_link.
  rewrite !andb_true_iff.
  assert (in_scope internal_only external_only subdomains_only l = true
          ↔ (if internal_only then is_internal l = true
             else if external_only
             then is_internal l = false ∧ is_subdomain l = false
             else if subdomains_only then is_subdomain l = true
             else True)) as Hscope.
  { unfold in_scope. destruct internal_only; [done|].
    destruct external_only; [by rewrite andb_true_iff, !negb_true_iff|].
    by destruct subdomains_only. }
  assert (∀ exts, has_extension exts l = true
                  ↔ ∃ ext, ext ∈ exts
                     ∧ Py.endswith ("." +:+ ext) (Py.lower (url l)) = true)
    as Hext.
  { intros exts. unfold has_extension, Py.any. rewrite existsb_exists.
    by setoid_rewrite list_elem_of_In. }
  assert (∀ fts, type_matches fts l || token_matches fts l = true
                 ↔ link_type l ∈ expand_filters fts
                   ∨ ∃ t, t ∈ fts
                      ∧ Py.contains ("." +:+ t) (Py.lower (url l)) = true)
    as Hty.
  { intros fts. unfold type_matches, token_matches, Py.any.
    rewrite orb_true_iff, bool_decide_eq_true, existsb_exists.
    by setoid_rewrite list_elem_of_In. }
  rewrite Hscope.
  destruct (given extensions) as [exts|], (given filter_types) as [fts|];
    rewrite ?Hext, ?Hty; split.
  all: try (intros (? & (? & ?) & ?); repeat split; try done;
            intros ? [= <-]; done).
  all: intros (? & ? & He & Ht); repeat split; try done;
       try (by apply He); by apply Ht.
Qed.

(** X6. The [links] command filters by type before it filters by
    extension, [filter_links] the other way round; the outcome is the
    same: the filters of [links] are those of [filter_links], followed by
    the removal of duplicates when [unique_only] is set. *)
Theorem links_filters_as_filter_links (all_links : list Link)
    (internal_only external_only subdomains_only : bool)
    (filter_types extensions : option string) (unique_only : bool)
    (existing_links : option (list Link)) :
  links_filters all_links internal_only external_only subdomains_only
    filter_types extensions unique_only
  = let filtered :=
      filter_links all_links internal_only external_only subdomains_only
        extensions filter_types unique_only existing_links in
    if unique_only then unique_links filtered else filtered.
Proof.
  cbv zeta. rewrite filter_links_filter.
  unfold links_filters, kept_link, extension_tokens, type_tokens.
  cbv zeta. rewrite scope_filter.
  assert (∀ a b : list Link, a = b →
            (if unique_only then unique_links a else a)
            = (if unique_only then unique_links b else b)) as Hu
    by (by intros a b ->).
  apply Hu.
  destruct (given extensions) as [exts|], (given filter_types) as [fts|];
    rewrite ?filter_by_types_filter, ?filter_by_extensions_filter,
      ?filter_filter_and;
    apply filter_ext; intros l; rewrite ?andb_true_r; [|done..].
  rewrite <- !andb_assoc. f_equal. apply andb_comm.
Qed.

(** ** The type filter *)

Lemma expand_filters_loop (type_filters : list string) (acc : gset string)
    (x : string) :
  x ∈ fold_left
        (fun expanded_filters filter_type =>
           match type_groups !! filter_type with
           | Some types => expanded_filters ∪ list_to_set types
           | None => expanded_filters ∪ {[filter_type]}
           end)
        type_filters acc
  ↔ x ∈ acc
    ∨ ∃ t, t ∈ type_filters
           ∧ match type_groups !! t with
             | Some types => x ∈ types
             | None => x = t
             end.
Proof.
  revert acc. induction type_filters as [|t tf IH]; intros acc; simpl.
  - split; [by left|]. by intros [?|(? & ?%elem_of_nil & _)].
  - rewrite IH. split.
    + intros [Hacc|(t' & Ht' & Hx)].
      * destruct (type_groups !! t) as [types|] eqn:Hg;
          apply elem_of_union in Hacc as [?|Hx]; [by left| |by left|].
        -- right. exists t. split; [by left|]. rewrite Hg.
           by apply elem_of_list_to_set in Hx.
        -- right. exists t. split; [by left|]. rewrite Hg.
           by apply elem_of_singleton in Hx.
      * right. exists t'. split; [by right | done].
    + intros [Hacc|(t' & [->|Ht']%elem_of_cons & Hx)].
      * left. destruct (type_groups !! t); apply elem_of_union; by left.
      * left. destruct (type_groups !! t) as [types|]; apply elem_of_union;
          right; [by apply elem_of_list_to_set | by apply elem_of_singleton].
      * right. by exists t'.
Qed.

(** What the expanded filter set holds: the types of the groups named,
    and the tokens that name no group. *)
Lemma expand_filters_elem (type_filters : list string) (x : string) :
  x ∈ expand_filters type_filters
  ↔ ∃ t, t ∈ type_filters
         ∧ match type_groups !! t with
           | Some types => x ∈ types
           | None => x = t
           end.
Proof.
  unfold expand_filters. rewrite expand_filters_loop. split; [|by right].
  by intros [?%not_elem_of_empty|?].
Qed.

(** X7. A link passes the type filter when one token lets it pass: a
    token that names a group and the link has a type of the group, a token
    that names no group and is the type of the link, or any token that
    occurs after a dot in the lowercased URL, whatever the type of the
    link.  So filtering by a list of tokens keeps what any part of the
    list keeps, and filtering by no token keeps nothing. *)
Theorem filter_by_types_any_token (links : list Link)
    (type_filters1 type_filters2 : list string) (l : Link) :
  (l ∈ filter_by_types links type_filters1
   ↔ l ∈ links
     ∧ ∃ t, t ∈ type_filters1
            ∧ (match type_groups !! t with
               | Some types => link_type l ∈ types
               | None => link_type l = t
               end
               ∨ Py.contains ("." +:+ t) (Py.lower (url l)) = true))
  ∧ (l ∈ filter_by_types links (type_filters1 ++ type_filters2)
     ↔ l ∈ filter_by_types links type_filters1
       ∨ l ∈ filter_by_types links type_filters2)
  ∧ filter_by_types links [] = [].
Proof.
  assert (∀ tf, l ∈ filter_by_types links tf
                ↔ l ∈ links
                  ∧ ∃ t, t ∈ tf
                     ∧ (match type_groups !! t with
                        | Some types => link_type l ∈ types
                        | None => link_type l = t
                        end
                        ∨ Py.contains ("." +:+ t) (Py.lower (url l)) = true))
    as Hchar.
  { intros tf. rewrite filter_by_types_filter, filter_elem_of.
    unfold type_matches, token_matches, Py.any.
    rewrite orb_true_iff, bool_decide_eq_true, existsb_exists,
      expand_filters_elem.
    setoid_rewrite list_elem_of_In. split.
    - intros [Hl [(t & Ht & Hty)|(t & Ht & Hc)]]; split; try done;
        exists t; auto.
    - intros [Hl (t & Ht & [Hty|Hc])]; split; try done;
        [left | right]; by exists t. }
  split; [apply Hchar|]. split.
  - rewrite !Hchar. setoid_rewrite elem_of_app. split.
    + intros [Hl (t & [Ht|Ht] & H)]; [left | right]; split; try done;
        by exists t.
    + intros [[Hl (t & Ht & H)]|[Hl (t & Ht & H)]]; split; try done;
        exists t; auto.
  - clear Hchar. rewrite filter_by_types_filter.
    assert (∀ x, type_matches [] x || token_matches [] x = false) as Hnone.
    { intros x. unfold type_matches, token_matches. simpl.
      rewrite orb_false_r. apply bool_decide_eq_false, not_elem_of_empty. }
    induction links as [|x links IH]; [done|].
    simpl. by rewrite Hnone.
Qed.

(** ** The domain classifier *)

Lemma append_cons c a b : String c a +:+ b = String c (a +:+ b).
Proof. reflexivity. Qed.

Lemma length_append a b :
  String.length (a +:+ b) = (String.length a + String.length b)%nat.
Proof.
  induction a as [|c a IH]; [done|].
  rewrite append_cons. simpl. by rewrite IH.
Qed.

Lemma prefix_nil s : String.prefix "" s = true.
Proof. by destruct s. Qed.

Lemma eqb_length a b : String.eqb a b = true → String.length a = String.length b.
Proof. by intros ->%String.eqb_eq. Qed.

Lemma endswith_cons suf c s :
  Py.endswith suf (String c s)
  = if String.eqb (String c s) suf then true else Py.endswith suf s.
Proof. reflexivity. Qed.

Lemma endswith_length suf s :
  Py.endswith suf s = true → (String.length suf ≤ String.length s)%nat.
Proof.
  induction s as [|c s IH].
  - simpl. destruct suf; [done|]. by simpl.
  - rewrite endswith_cons.
    destruct (String.eqb (String c s) suf) eqn:He.
    + intros _. apply eqb_length in He. lia.
    + intros ?%IH. simpl. lia.
Qed.

Lemma endswith_app pre suf : Py.endswith suf (pre +:+ suf) = true.
Proof.
  induction pre as [|c pre IH].
  - change ("" +:+ suf) with suf. destruct suf; simpl; [done|].
    by rewrite Ascii.eqb_refl, String.eqb_refl.
  - rewrite append_cons, endswith_cons. by destruct (String.eqb _ _).
Qed.

Lemma contains_app_r p a b :
  Py.contains p (a +:+ b) = false → Py.contains p b = false.
Proof.
  induction a as [|c a IH]; [done|].
  rewrite append_cons, contains_cons.
  destruct (String.prefix p _); [done | apply IH].
Qed.

Lemma replace_www_prepended d :
  Py.contains "www." d = false → Py.replace "www." "" ("www." +:+ d) = d.
Proof.
  intros Hd. rewrite replace_www_leading.
  - by apply replace_absent.
  - change ("www." +:+ d)
      with (String "w" (String "w" (String "w" (String "." d)))).
    rewrite !prefix_cons.
    repeat (destruct (ascii_dec _ _); [|done]). apply prefix_nil.
Qed.

(** X8. A leading [www.] does not count: for a non-empty domain [d] in
    which [www.] does not occur, [www.d] and [d] are the same domain to
    the classifier, in both directions, neither is a subdomain of the
    other, and a link to [www.d] found while crawling [d] is internal and
    no subdomain link, whatever [include_subdomains] is. *)
Theorem www_prefix_is_ignored (d : string) (include_subdomains : bool) :
  d ≠ "" → Py.contains "www." d = false →
  is_same_or_subdomain ("www." +:+ d) d = true
  ∧ is_same_or_subdomain d ("www." +:+ d) = true
  ∧ is_subdomain_of ("www." +:+ d) d = false
  ∧ is_subdomain_of d ("www." +:+ d) = false
  ∧ classify_domain ("www." +:+ d) d include_subdomains = (true, false).
Proof.
  intros Hd Hw.
  assert (is_same_or_subdomain ("www." +:+ d) d = true) as H1.
  { unfold is_same_or_subdomain.
    rewrite (proj2 (String.eqb_neq _ _) Hd), orb_false_r.
    change (String.eqb ("www." +:+ d) "") with false. cbv iota.
    by rewrite replace_www_prepended, replace_absent, String.eqb_refl. }
  assert (is_subdomain_of ("www." +:+ d) d = false) as H3.
  { unfold is_subdomain_of.
    destruct (_ || _ || _); [done|].
    by rewrite replace_www_prepended, replace_absent, String.eqb_refl. }
  split; [done|]. split; [|split; [done|split]].
  - unfold is_same_or_subdomain.
    rewrite (proj2 (String.eqb_neq _ _) Hd).
    change (String.eqb ("www." +:+ d) "") with false. simpl.
    by rewrite replace_www_prepended, replace_absent, String.eqb_refl.
  - unfold is_subdomain_of.
    destruct (_ || _ || _); [done|].
    by rewrite replace_www_prepended, replace_absent, String.eqb_refl.
  - rewrite classify_domain_ignores_flag. unfold classify_domain.
    by rewrite H1, H3.
Qed.

Lemma www_prefix_is_ignored_witness :
  classify_domain "www.example.com" "example.com" true = (true, false).
Proof.
  apply (www_prefix_is_ignored "example.com" true); [done | reflexivity].
Defined.

(** X9. [is_subdomain_of] is irreflexive and asymmetric, holds of
    non-empty domains only, and whenever it holds [is_same_or_subdomain]
    holds too; [is_same_or_subdomain] holds of every non-empty domain and
    itself. *)
Theorem is_subdomain_of_strict (domain base_domain : string) :
  is_subdomain_of domain domain = false
  ∧ (domain ≠ "" → is_same_or_subdomain domain domain = true)
  ∧ (is_subdomain_of domain base_domain = true →
     domain ≠ "" ∧ base_domain ≠ "" ∧ domain ≠ base_domain
     ∧ is_subdomain_of base_domain domain = false
     ∧ is_same_or_subdomain domain base_domain = true).
Proof.
  split; [|split].
  - unfold is_subdomain_of. rewrite String.eqb_refl.
    by rewrite !orb_true_r.
  - intros Hd. unfold is_same_or_subdomain.
    rewrite (proj2 (String.eqb_neq _ _) Hd). simpl.
    by rewrite String.eqb_refl.
  - intros Hsub.
    pose proof (is_subdomain_of_same_or_subdomain _ _ Hsub) as Hsame.
    unfold is_subdomain_of in *.
    destruct (String.eqb_spec domain "") as [|Hd]; [done|].
    destruct (String.eqb_spec base_domain "") as [|Hb]; [done|].
    destruct (String.eqb_spec domain base_domain) as [|Hne]; [done|].
    simpl in Hsub.
    destruct (String.eqb (Py.replace "www." "" domain)
                (Py.replace "www." "" base_domain)) eqn:Hc; [done|].
    apply endswith_length in Hsub.
    change ("." +:+ Py.replace "www." "" base_domain)
      with (String "." (Py.replace "www." "" base_domain)) in Hsub.
    simpl in Hsub.
    repeat split; try done.
    destruct (String.eqb_spec base_domain domain) as [|_]; [congruence|].
    simpl.
    destruct (String.eqb (Py.replace "www." "" base_domain)
                (Py.replace "www." "" domain)); [done|].
    destruct (Py.endswith _ _) eqn:He; [|done].
    apply endswith_length in He.
    change ("." +:+ Py.replace "www." "" domain)
      with (String "." (Py.replace "www." "" domain)) in He.
    simpl in He. lia.
Qed.

Lemma is_subdomain_of_strict_witness :
  is_same_or_subdomain "example.com" "example.com" = true
  ∧ is_subdomain_of "example.com" "api.example.com" = false.
Proof.
  split.
  - by apply (is_subdomain_of_strict "example.com" "").
  - by apply (is_subdomain_of_strict "api.example.com" "example.com").
Defined.

(** X10. A label in front makes a subdomain: when [www.] does not occur
    in [sub.d], with [sub] and [d] not empty, [sub.d] is a subdomain of
    [d], and a link to [sub.d] found while crawling [d] is marked both
    internal and subdomain, whatever [include_subdomains] is. *)
Theorem label_makes_subdomain (sub d : string) (include_subdomains : bool) :
  sub ≠ "" → d ≠ "" →
  Py.contains "www." (sub +:+ "." +:+ d) = false →
  is_subdomain_of (sub +:+ "." +:+ d) d = true
  ∧ classify_domain (sub +:+ "." +:+ d) d include_subdomains = (true, true).
Proof.
  intros Hs Hd Hw.
  assert (Py.contains "www." d = false) as Hwd.
  { by apply (contains_app_r _ "."), (contains_app_r _ sub). }
  assert (String.length (sub +:+ "." +:+ d) ≠ String.length d) as Hlen.
  { rewrite !length_append. destruct sub; [done|]. simpl. lia. }
  assert (is_subdomain_of (sub +:+ "." +:+ d) d = true) as Hsub.
  { unfold is_subdomain_of.
    rewrite (proj2 (String.eqb_neq _ _) Hd).
    destruct (String.eqb_spec (sub +:+ "." +:+ d) "") as [He|_];
      [destruct sub; [done | by rewrite append_cons in He]|].
    destruct (String.eqb_spec (sub +:+ "." +:+ d) d) as [He|_];
      [by rewrite He in Hlen|].
    simpl. rewrite !replace_absent by done.
    destruct (String.eqb_spec (sub +:+ "." +:+ d) d) as [He|_];
      [by rewrite He in Hlen|].
    apply endswith_app. }
  split; [done|].
  rewrite classify_domain_ignores_flag. unfold classify_domain.
  by rewrite Hsub, (is_subdomain_of_same_or_subdomain _ _ Hsub).
Qed.

Lemma label_makes_subdomain_witness :
  classify_domain "api.example.com" "example.com" true = (true, true).
Proof.
  apply (label_makes_subdomain "api" "example.com" true);
    [done | done | reflexivity].
Defined.

(** ** The link type *)



(** ** More on the extractor *)

Section ExtractionFields.

Context `{UrlLib}.
Variables (current_url base_domain : string).

Lemma build_link_fields include_subdomains href link_info l :
  build_link current_url base_domain include_subdomains href link_info
  = Some l →
  link_path l = path (urlparse (url l))
  ∧ link_query l = query (urlparse (url l))
  ∧ link_fragment l = fragment (urlparse (url l))
  ∧ link_type l = get_link_type (url l).
Proof.
  unfold build_link.
  destruct (String.eqb href ""); [done|].
  destruct (skipped_href href); [done|].
  case_bool_decide; [|done].
  destruct (classify_domain _ _ _). by intros [= <-].
Qed.

Lemma build_link_ignores_flag include_subdomains href link_info :
  build_link current_url base_domain include_subdomains href link_info
  = build_link current_url base_domain false href link_info.
Proof. unfold build_link. by rewrite classify_domain_ignores_flag. Qed.

Lemma classify_domain_subdomain_internal netloc include_subdomains i sd :
  classify_domain netloc base_domain include_subdomains = (i, sd) →
  sd = true → i = true.
Proof.
  rewrite classify_domain_ignores_flag. unfold classify_domain.
  intros [= <- <-] Hsd.
  by rewrite (is_subdomain_of_same_or_subdomain _ _ Hsd).
Qed.

End ExtractionFields.

(** X12. The fields of an extracted link agree with its URL: the page it
    was found on is the current page, [domain], [path], [query] and
    [fragment] are those of [urlparse(url)], the type is
    [get_link_type(url)], and the two flags are the classification of the
    domain against the base domain; a link marked [is_subdomain] is always
    marked [is_internal] too. *)
Theorem extracted_link_fields `{UrlLib} (response : Response)
    (current_url base_domain : string) (include_subdomains : bool)
    (l : Link) :
  l ∈ extract_links_from_page response current_url base_domain
        include_subdomains →
  found_on_page l = current_url
  ∧ domain l = netloc (urlparse (url l))
  ∧ link_path l = path (urlparse (url l))
  ∧ link_query l = query (urlparse (url l))
  ∧ link_fragment l = fragment (urlparse (url l))
  ∧ link_type l = get_link_type (url l)
  ∧ (is_internal l, is_subdomain l)
    = classify_domain (domain l) base_domain include_subdomains
  ∧ (is_subdomain l = true → is_internal l = true).
Proof.
  intros Hl.
  destruct (css response "a") as [els|] eqn:Hcss;
    [|rewrite extract_links_None in Hl by done; by apply elem_of_nil in Hl].
  destruct (extract_links_entry _ _ _ _ _ _ Hcss Hl)
    as (link_info & _ & Hbuild).
  destruct (build_link_Some _ _ _ _ _ _ Hbuild)
    as (_ & _ & _ & _ & _ & _ & _ & Hpage & Hdom & Hcl).
  destruct (build_link_fields _ _ _ _ _ _ Hbuild) as (Hp & Hq & Hf & Hty).
  repeat (split; [done|]).
  by apply (classify_domain_subdomain_internal base_domain (domain l)
              include_subdomains).
Qed.

Lemma extracted_link_fields_witness :
  let l :=
    mkLink "https://site.com/about" "About" "site.com" "/about" "" ""
      true false "page" "footer" "/about" "https://site.com/" in
  link_type l = get_link_type (url l).
Proof.
  intros l.
  apply (extracted_link_fields
           (Site.page [Site.anchor "/about" "About"])
           "https://site.com/" "site.com" false l).
  vm_compute. left.
Defined.

(** The argument [include_subdomains] has no effect on what
    [extract_links_from_page] returns. *)
Lemma extraction_ignores_include_subdomains `{UrlLib}
    (response : Response) (current_url base_domain : string)
    (include_subdomains include_subdomains' : bool) :
  extract_links_from_page response current_url base_domain
    include_subdomains
  = extract_links_from_page response current_url base_domain
      include_subdomains'.
Proof.
  unfold extract_links_from_page.
  destruct (css response "a") as [els|]; [|done].
  apply fold_left_ext. intros acc [href link_info].
  by rewrite (build_link_ignores_flag _ _ include_subdomains),
    (build_link_ignores_flag _ _ include_subdomains').
Qed.

Section DictLoopMore.

Context {E V : Type} (key : E → option string) (info : E → V).
Abbreviation store := (store key info).




End DictLoopMore.




(** X14. When no anchor of the page has a non-empty href, what extraction
    returns comes from the fallback query: every link has an empty text
    and the source [unknown]. *)
Theorem fallback_links_are_anonymous `{UrlLib} (response : Response)
    (current_url base_domain : string) (include_subdomains : bool)
    (els : list Element) (l : Link) :
  css response "a" = Some els →
  (∀ e, e ∈ els → anchor_key e = None) →
  l ∈ extract_links_from_page response current_url base_domain
        include_subdomains →
  text l = "" ∧ source l = "unknown".
Proof.
  intros Hcss Hnone Hl.
  destruct (extract_links_entry _ _ _ _ _ _ Hcss Hl)
    as (link_info & Hget & Hbuild).
  destruct (build_link_Some _ _ _ _ _ _ Hbuild)
    as (_ & _ & _ & _ & _ & -> & -> & _).
  unfold href_to_data_of in Hget.
  destruct (collect_anchors response els) as [|p d] eqn:Hd.
  - destruct (css response "a::attr(href)") as [els'|] eqn:Hcss';
      [|unfold collect_fallback in Hget; by rewrite Hcss' in Hget].
    rewrite (collect_fallback_store _ _ Hcss') in Hget.
    by apply store_loop_origin in Hget as [?|(e & _ & _ & ->)].
  - rewrite <- Hd, collect_anchors_store in Hget.
    apply store_loop_origin in Hget as [?|(e & He & Hk & _)]; [done|].
    by rewrite (Hnone e He) in Hk.
Qed.

Lemma fallback_links_are_anonymous_witness :
  let response :=
    mkResponse
      (fun sel =>
         if String.eqb sel "a" then Some [ElemTag (mkTag ∅ "no href" [])]
         else if String.eqb sel "a::attr(href)" then Some [ElemText "/about"]
         else Some [])
      "" in
  let l :=
    mkLink "https://site.com/about" "" "site.com" "/about" "" ""
      true false "page" "unknown" "/about" "https://site.com/" in
  text l = "" ∧ source l = "unknown".
Proof.
  intros response l.
  apply (fallback_links_are_anonymous response "https://site.com/"
           "site.com" false [ElemTag (mkTag ∅ "no href" [])] l).
  - reflexivity.
  - by intros e ->%list_elem_of_singleton.
  - vm_compute. left.
Defined.

(** ** The DOM-region heuristic *)

Lemma region_by_selector_range response href regions region :
  region_by_selector response href regions = Some region →
  region ∈ map snd regions.
Proof.
  induction regions as [|[selector r] regions IH]; simpl; [done|].
  destruct (css response selector) as [links|]; [|done].
  destruct (Py.any _ links).
  - intros [= ->]. by left.
  - intros ?%IH. by right.
Qed.

Lemma first_keyword_match_range s table region :
  first_keyword_match s table = Some region → region ∈ map snd table.
Proof.
  induction table as [|[words r] table IH]; simpl; [done|].
  destruct (Py.any _ words).
  - intros [= ->]. by left.
  - intros ?%IH. by right.
Qed.

(** A table with an entry one of whose words occurs in [s] finds a
    region. *)
Lemma first_keyword_match_found s table words region w :
  (words, region) ∈ table → w ∈ words → Py.contains w s = true →
  is_Some (first_keyword_match s table).
Proof.
  intros Hin Hw Hc. induction table as [|[words' r] table IH]; simpl;
    [by apply elem_of_nil in Hin|].
  destruct (Py.any _ words') eqn:Hany; [done|].
  apply elem_of_cons in Hin as [[= <- <-]|Hin]; [|by apply IH].
  assert (Py.any (fun w => Py.contains w s) words = true) as Ht; [|congruence].
  apply existsb_exists. exists w. by rewrite <- list_elem_of_In.
Qed.

Lemma lower_char_slash c : c = "/"%char → Py.lower_char c = "/"%char.
Proof. by intros ->. Qed.

Lemma contains_slash_lower s :
  Py.contains "/" s = true → Py.contains "/" (Py.lower s) = true.
Proof.
  induction s as [|c s IH]; [done|].
  change (Py.lower (String c s)) with (String (Py.lower_char c) (Py.lower s)).
  rewrite !contains_cons, !prefix_cons, !prefix_nil.
  destruct (ascii_dec "/" c) as [<-|Hc]; [done|].
  intros Hs. rewrite (IH Hs). by destruct (ascii_dec _ _).
Qed.

(** X15. The heuristic names one of seven regions.  It answers [content],
    its default, for no element whose href contains a slash: when nothing
    else matches, the last rule sends such an href to [navigation]. *)
Theorem detect_link_source_range (link_element : Tag) (response : Response) :
  detect_link_source link_element response ∈ source_regions
  ∧ (Py.contains "/" (default "" (tag_attrs link_element !! "href")) = true →
     detect_link_source link_element response ≠ "content").
Proof.
  unfold detect_link_source.
  set (href := default "" (tag_attrs link_element !! "href")).
  assert (∀ r, r ∈ ["navigation"; "header"; "footer"; "sidebar";
                    "main_content"; "breadcrumb"] →
               r ∈ source_regions ∧ r ≠ "content") as Hnamed.
  { intros r Hr. unfold source_regions. split.
    - repeat (apply elem_of_cons in Hr as [->|Hr];
              [by repeat (first [left | right])|]).
      by apply elem_of_nil in Hr.
    - intros ->. repeat (apply elem_of_cons in Hr as [?|Hr]; [done|]).
      by apply elem_of_nil in Hr. }
  destruct (region_by_selector response href region_selectors)
    as [region|] eqn:H1.
  { apply region_by_selector_range in H1.
    destruct (Hnamed region H1). by split. }
  destruct (region_by_parents link_element) as [region|] eqn:H2.
  { apply first_keyword_match_range in H2.
    destruct (Hnamed region H2). by split. }
  destruct (region_by_text link_element href) as [region|] eqn:H3.
  { assert (region ∈ ["navigation"; "footer"; "header"; "main_content"])
      as Hr.
    { unfold region_by_text in H3.
      destruct (first_keyword_match (Py.lower (tag_text link_element)) _)
        as [r|] eqn:Ht.
      - injection H3 as ->. by apply first_keyword_match_range in Ht.
      - apply first_keyword_match_range in H3. simpl in H3.
        repeat (apply elem_of_cons in H3 as [->|H3];
                [by repeat (first [left | right])|]).
        by apply elem_of_nil in H3. }
    assert (region ∈ ["navigation"; "header"; "footer"; "sidebar";
                      "main_content"; "breadcrumb"]) as Hr'.
    { repeat (apply elem_of_cons in Hr as [->|Hr];
              [by repeat (first [left | right])|]).
      by apply elem_of_nil in Hr. }
    destruct (Hnamed region Hr'). by split. }
  split; [unfold source_regions; by repeat (first [left | right])|].
  intros Hslash%contains_slash_lower. exfalso.
  unfold region_by_text in H3.
  destruct (first_keyword_match (Py.lower (tag_text link_element)) _);
    [done|].
  destruct (first_keyword_match_found (Py.lower href)
              [(["/contact"; "/about"; "/privacy"; "/terms"], "footer");
               (["/login"; "/register"; "/account"; "/profile"], "header");
               (["/home"; "/index"; "/"], "navigation")]
              ["/home"; "/index"; "/"] "navigation" "/") as [r Hr];
    [by repeat (first [left | right]) | by repeat (first [left | right])
    | done | congruence].
Qed.

Lemma detect_link_source_range_witness :
  detect_link_source (mkTag {[ "href" := "/pricing" ]} "Pricing" [])
    (Site.page [])
  ≠ "content".
Proof.
  apply (detect_link_source_range
           (mkTag {[ "href" := "/pricing" ]} "Pricing" []) (Site.page [])).
  reflexivity.
Defined.

(** ** More on the crawl loop *)

Section CrawlAccounting.

Context `{UrlLib} `{Fetchers}.
Variable opts : Options.
Variable start_url : string.

Abbreviation step := (crawl_step opts start_url).
Abbreviation guard := (crawl_guard opts).

Lemma len_app {A} (l k : list A) : len (l ++ k) = len l + len k.
Proof. unfold len. rewrite length_app. lia. Qed.

Lemma accounts_inv_step s :
  guard s = true → crawl_inv s → accounts_inv opts s →
  accounts_inv opts (step s).
Proof.
  intros Hg (_ & Hfv & _) (Hbudget & Hlen & Hcount & Hlinks & Hsum).
  destruct (guard_to_visit opts s Hg) as (u & d & rest & Htv & Hlt).
  destruct (step_cases opts s u d rest Htv)
    as [Hskip|[(Hnew & Hd & Hf)|(Hnew & Hd & response & Hf)]].
  - by rewrite (step_skip opts start_url _ _ _ _ Htv Hskip).
  - rewrite (step_failure opts start_url _ _ _ _ Htv Hnew Hd Hf).
    unfold accounts_inv; simpl.
    rewrite size_visited_add, !length_app, len_app by done. simpl.
    unfold len in *. simpl. repeat split; lia.
  - destruct (step_success opts start_url _ _ _ _ _ Htv Hnew Hd Hf)
      as (Hv & _ & _ & Hfe & Hfa & Hal & pd & Hap & _).
    unfold accounts_inv. rewrite Hv, Hfe, Hfa, Hal, Hap.
    rewrite size_visited_add, !length_app, !len_app by done.
    assert (total_pages_crawled (step s) = total_pages_crawled s + 1
            ∧ total_links_found (step s)
              = total_links_found s
                + len (filter_links
                         (extract_links_from_page response u
                            (base_domain start_url) (include_subdomains opts))
                         (internal_only opts) (external_only opts)
                         (subdomains_only opts) (extensions opts)
                         (filter_types opts) (unique_only opts)
                         (if unique_only opts then Some (all_links s)
                          else None))) as [-> ->].
    { unfold crawl_step. rewrite Htv.
      rewrite bool_decide_eq_false_2 by done.
      rewrite (proj2 (Z.ltb_ge _ _) Hd). simpl. by rewrite Hf. }
    unfold len in *. simpl. repeat split; lia.
Qed.

Lemma accounts_inv_reachable s :
  reachable opts start_url s → accounts_inv opts s.
Proof.
  intros Hs.
  cut (crawl_inv s ∧ accounts_inv opts s); [by intros [_ ?]|].
  revert s Hs. apply reachable_ind.
  - split; [apply crawl_inv_initial|].
    unfold accounts_inv.
    change (visited (initial_state start_url)) with (∅ : gset string).
    rewrite size_empty. unfold len; simpl. repeat split; lia.
  - intros s _ Hg [Hinv Hacc].
    split; [by apply crawl_inv_step | by apply accounts_inv_step].
Qed.

Lemma records_inv_step s :
  guard s = true → crawl_inv s → records_inv s → records_inv (step s).
Proof.
  intros Hg (_ & _ & _ & _ & Hlinks) (Hndp & Hndf & Hvis & Hfound).
  destruct (guard_to_visit opts s Hg) as (u & d & rest & Htv & _).
  destruct (step_cases opts s u d rest Htv)
    as [Hskip|[(Hnew & Hd & Hf)|(Hnew & Hd & response & Hf)]].
  - by rewrite (step_skip opts start_url _ _ _ _ Htv Hskip).
  - rewrite (step_failure opts start_url _ _ _ _ Htv Hnew Hd Hf).
    unfold records_inv; simpl.
    assert (u ∉ failed s) as Hnf by (intros ?; apply Hnew, Hvis; by right).
    split; [done|]. split.
    { apply NoDup_app. split; [done|]. split; [|apply NoDup_singleton].
      by intros x Hx ->%list_elem_of_singleton. }
    split; [|done].
    intros x. rewrite elem_of_union, elem_of_singleton, elem_of_app,
      list_elem_of_singleton, Hvis. tauto.
  - destruct (step_success opts start_url _ _ _ _ _ Htv Hnew Hd Hf)
      as (Hv & _ & _ & _ & Hfa & Hal & pd & Hap & Hpu & _).
    unfold records_inv. rewrite Hv, Hfa, Hal, Hap, map_app. simpl.
    rewrite Hpu.
    assert (u ∉ map page_url (all_pages s)) as Hnp
      by (intros ?; apply Hnew, Hvis; by left).
    split.
    { apply NoDup_app. split; [done|]. split; [|apply NoDup_singleton].
      by intros x Hx ->%list_elem_of_singleton. }
    split; [done|]. split.
    + intros x. rewrite elem_of_union, elem_of_singleton, elem_of_app,
        list_elem_of_singleton, Hvis. tauto.
    + intros l [Hl|Hl]%elem_of_app; apply elem_of_app.
      * left. by apply Hfound.
      * right. apply list_elem_of_singleton.
        apply elem_of_sublist
          with (l2 := extract_links_from_page response u
                        (base_domain start_url) (include_subdomains opts))
          in Hl; [|apply filter_links_sublist].
        by apply extract_links_found_on_page in Hl.
Qed.

Lemma records_inv_reachable s :
  reachable opts start_url s → records_inv s.
Proof.
  intros Hs.
  cut (crawl_inv s ∧ records_inv s); [by intros [_ ?]|].
  revert s Hs. apply reachable_ind.
  - split; [apply crawl_inv_initial|].
    unfold records_inv; simpl. split; [constructor|]. split; [constructor|].
    split; [|by intros l ?%elem_of_nil].
    intros u. split; [by intros ?%not_elem_of_empty|].
    by intros [?%elem_of_nil|?%elem_of_nil].
  - intros s _ Hg [Hinv Hrec].
    split; [by apply crawl_inv_step | by apply records_inv_step].
Qed.

End CrawlAccounting.

(** *** Breadth-first order *)

Lemma constant_sorted (c : Z) (l : list Z) :
  (∀ x, x ∈ l → x = c) → StronglySorted Z.le l.
Proof.
  induction l as [|x l IH]; intros Hc; [constructor|].
  apply StronglySorted_cons. split.
  - apply Forall_forall. intros y Hy.
    rewrite (Hc x) by (by left). rewrite (Hc y) by (by right). lia.
  - apply IH. intros y Hy. apply Hc. by right.
Qed.

(** The queue loses its head [d] and the page record is not written. *)
Lemma bfs_lists_skip (P R : list Z) (d : Z) :
  StronglySorted Z.le (P ++ d :: R) →
  (∀ x y, x ∈ d :: R → y ∈ d :: R → x ≤ y + 1) →
  StronglySorted Z.le (P ++ R)
  ∧ (∀ x y, x ∈ R → y ∈ R → x ≤ y + 1).
Proof.
  intros (Hcross & HP & [_ HR]%StronglySorted_cons)%StronglySorted_app Hpair.
  split.
  - apply StronglySorted_app. repeat split; try done.
    intros x1 x2 H1 H2. apply Hcross; [done | by right].
  - intros x y Hx Hy. apply Hpair; by right.
Qed.

(** The queue loses its head [d], the page is recorded at depth [d] and
    pairs of depth [d + 1] join the queue. *)
Lemma bfs_lists_visit (P R As : list Z) (d : Z) :
  StronglySorted Z.le (P ++ d :: R) →
  (∀ x y, x ∈ d :: R → y ∈ d :: R → x ≤ y + 1) →
  (∀ a, a ∈ As → a = d + 1) →
  StronglySorted Z.le ((P ++ [d]) ++ (R ++ As))
  ∧ (∀ x y, x ∈ R ++ As → y ∈ R ++ As → x ≤ y + 1).
Proof.
  intros Hsorted Hpair HAs.
  pose proof Hsorted as (HcrossP & HP & [HdR HR]%StronglySorted_cons)
    %StronglySorted_app.
  rewrite Forall_forall in HdR.
  assert (∀ x, x ∈ R → x ≤ d + 1) as HRd
    by (intros x Hx; apply Hpair; [by right | by left]).
  assert (∀ x, x ∈ P → x ≤ d) as HPd
    by (intros x Hx; apply HcrossP; [done | by left]).
  split.
  - apply StronglySorted_app. split; [|split].
    + intros x1 x2 [H1| ->%list_elem_of_singleton]%elem_of_app
        [H2|H2]%elem_of_app.
      * apply HcrossP; [done | by right].
      * rewrite (HAs _ H2). specialize (HPd _ H1). lia.
      * by apply HdR.
      * rewrite (HAs _ H2). lia.
    + apply StronglySorted_app. repeat split; try done.
      * intros x1 x2 H1 ->%list_elem_of_singleton. by apply HPd.
      * repeat constructor.
    + apply StronglySorted_app. repeat split; try done.
      * intros x1 x2 H1 H2. rewrite (HAs _ H2). by apply HRd.
      * by apply (constant_sorted (d + 1)).
  - intros x y [Hx|Hx]%elem_of_app [Hy|Hy]%elem_of_app.
    + apply Hpair; by right.
    + rewrite (HAs _ Hy). specialize (HRd _ Hx). lia.
    + rewrite (HAs _ Hx). specialize (HdR _ Hy). lia.
    + rewrite (HAs _ Hx), (HAs _ Hy). lia.
Qed.

Section CrawlOrder.

Context `{UrlLib} `{Fetchers}.
Variable opts : Options.
Variable start_url : string.

Abbreviation step := (crawl_step opts start_url).
Abbreviation guard := (crawl_guard opts).

Lemma new_pairs_depth visited page_links current_depth x :
  x ∈ map snd (new_pairs opts visited page_links current_depth) →
  x = current_depth + 1.
Proof.
  unfold new_pairs. destruct (current_depth <? depth opts);
    [|by intros ?%elem_of_nil].
  rewrite map_map. simpl.
  by intros (l & -> & _)%list_elem_of_fmap.
Qed.

Lemma bfs_inv_step s :
  guard s = true → bfs_inv opts s → bfs_inv opts (step s).
Proof.
  intros Hg (Hsorted & Hpair & Hpos & Hmax).
  destruct (guard_to_visit opts s Hg) as (u & d & rest & Htv & _).
  rewrite Htv in Hsorted, Hpair, Hpos. simpl in Hsorted, Hpair, Hpos.
  destruct (step_cases opts s u d rest Htv)
    as [Hskip|[(Hnew & Hd & Hf)|(Hnew & Hd & response & Hf)]].
  - rewrite (step_skip opts start_url _ _ _ _ Htv Hskip).
    unfold bfs_inv; simpl.
    destruct (bfs_lists_skip _ _ _ Hsorted Hpair) as [? ?].
    repeat split; try done.
    intros x [?|?]%elem_of_app; apply Hpos, elem_of_app; auto.
    right. by right.
  - rewrite (step_failure opts start_url _ _ _ _ Htv Hnew Hd Hf).
    unfold bfs_inv; simpl.
    destruct (bfs_lists_skip _ _ _ Hsorted Hpair) as [? ?].
    repeat split; try done.
    intros x [?|?]%elem_of_app; apply Hpos, elem_of_app; auto.
    right. by right.
  - destruct (step_success opts start_url _ _ _ _ _ Htv Hnew Hd Hf)
      as (_ & Hq & _ & _ & _ & _ & pd & Hap & _ & Hpd).
    unfold bfs_inv. rewrite Hq, Hap, !map_app. simpl. rewrite Hpd.
    destruct (bfs_lists_visit _ _ _ _ Hsorted Hpair
                (new_pairs_depth (visited s ∪ {[u]})
                   (extract_links_from_page response u
                      (base_domain start_url) (include_subdomains opts)) d))
      as [Hs' Hp'].
    assert (0 ≤ d) as Hd0 by (apply Hpos, elem_of_app; right; by left).
    split; [exact Hs'|]. split; [exact Hp'|]. split.
    + intros x [[?| ->%list_elem_of_singleton]%elem_of_app
               |[?|Hx%new_pairs_depth]%elem_of_app]%elem_of_app.
      * apply Hpos, elem_of_app. by left.
      * done.
      * apply Hpos, elem_of_app. right. by right.
      * lia.
    + intros p [?| ->%list_elem_of_singleton]%elem_of_app;
        [by apply Hmax | by rewrite Hpd].
Qed.

Lemma bfs_inv_reachable s :
  reachable opts start_url s → bfs_inv opts s.
Proof.
  revert s. apply reachable_ind; [|intros s _; apply bfs_inv_step].
  unfold bfs_inv; simpl. split; [repeat constructor|].
  split; [by intros x y ->%list_elem_of_singleton ->%list_elem_of_singleton|].
  split; [by intros x ->%list_elem_of_singleton|].
  by intros p ?%elem_of_nil.
Qed.

End CrawlOrder.

(** *** What a crawl guarantees *)

Section CrawlGuarantees.

Context `{UrlLib} `{Fetchers}.
Variable opts : Options.
Variable start_url : string.

(** X16. At every point of a crawl the number of pages handed to the
    fetcher is at most [max_pages] (none when [max_pages] is negative);
    [total_pages_crawled] counts exactly those pages, failures included,
    so it is the number of page records plus the number of failures; and
    [total_links_found] is the length of [all_links]. *)
Theorem crawl_respects_page_budget (s : CrawlState) :
  reachable opts start_url s →
  len (fetched s) ≤ Z.max 0 (max_pages opts)
  ∧ length (fetched s) = size (visited s)
  ∧ total_pages_crawled s = len (fetched s)
  ∧ total_pages_crawled s = len (all_pages s) + len (failed s)
  ∧ total_links_found s = len (all_links s).
Proof.
  intros (Hb & Hl & Hc & Hlinks & Hsum)%accounts_inv_reachable.
  unfold len in *. repeat split; lia.
Qed.

(** X17. At every point of a crawl no URL has two page records and no
    URL failed twice; the visited URLs are exactly those with a page
    record and those that failed; and every link collected was found on a
    page that has a record. *)
Theorem crawl_records_are_consistent (s : CrawlState) :
  reachable opts start_url s →
  NoDup (map page_url (all_pages s))
  ∧ NoDup (failed s)
  ∧ (∀ u, u ∈ visited s ↔ u ∈ map page_url (all_pages s) ∨ u ∈ failed s)
  ∧ (∀ u, u ∈ map page_url (all_pages s) → u ∉ failed s)
  ∧ (∀ l, l ∈ all_links s →
          found_on_page l ∈ map page_url (all_pages s)).
Proof.
  intros Hs.
  destruct (records_inv_reachable opts start_url s Hs)
    as (Hndp & Hndf & Hvis & Hfound).
  destruct (crawl_inv_reachable opts start_url s Hs)
    as (_ & _ & _ & Hpages & _).
  repeat split; try done; try apply Hvis.
  intros u (p & -> & Hp)%list_elem_of_fmap. by apply Hpages.
Qed.

(** X18. A crawl is breadth first: at every point the depths of the page
    records, in the order the pages were visited, never go down, and
    neither do the depths along the queue, all of which are at least those
    of the pages; the queue spans at most two consecutive levels; and
    every page record has a depth between 0 and [max_depth]. *)
Theorem crawl_is_breadth_first (s : CrawlState) :
  reachable opts start_url s →
  StronglySorted Z.le (map page_depth (all_pages s))
  ∧ StronglySorted Z.le (map snd (to_visit s))
  ∧ (∀ p q, p ∈ all_pages s → q ∈ to_visit s → page_depth p ≤ snd q)
  ∧ (∀ q q', q ∈ to_visit s → q' ∈ to_visit s → snd q ≤ snd q' + 1)
  ∧ (∀ p, p ∈ all_pages s → 0 ≤ page_depth p ≤ depth opts).
Proof.
  intros (Hsorted & Hpair & Hpos & Hmax)%bfs_inv_reachable.
  apply StronglySorted_app in Hsorted as (Hcross & HP & HQ).
  split; [done|]. split; [done|]. split; [|split].
  - intros p q Hp Hq. apply Hcross; apply list_elem_of_fmap; eauto.
  - intros q q' Hq Hq'. apply Hpair; apply list_elem_of_fmap; eauto.
  - intros p Hp. split; [|by apply Hmax].
    apply Hpos, elem_of_app. left. apply list_elem_of_fmap. eauto.
Qed.

End CrawlGuarantees.

(** The state of the crawl of the example site after one iteration is
    reachable. *)
Ltac one_iteration :=
  eapply rtc_l; [split; [|reflexivity]; vm_compute; reflexivity|];
  apply rtc_refl.

Lemma crawl_respects_page_budget_witness :
  len (fetched (crawl_step (Site.options 2 50) "https://site.com/"
                  (initial_state "https://site.com/")))
  ≤ Z.max 0 (max_pages (Site.options 2 50)).
Proof.
  apply (crawl_respects_page_budget (Site.options 2 50) "https://site.com/").
  one_iteration.
Defined.

Lemma crawl_records_are_consistent_witness :
  NoDup (map page_url
           (all_pages (crawl_step (Site.options 2 50) "https://site.com/"
                         (initial_state "https://site.com/")))).
Proof.
  apply (crawl_records_are_consistent (Site.options 2 50)
           "https://site.com/").
  one_iteration.
Defined.

Lemma crawl_is_breadth_first_witness :
  StronglySorted Z.le
    (map snd
       (to_visit (crawl_step (Site.options 2 50) "https://site.com/"
                    (initial_state "https://site.com/")))).
Proof.
  apply (crawl_is_breadth_first (Site.options 2 50) "https://site.com/").
  one_iteration.
Defined.

(** *** The option [include_subdomains] *)

Section IncludeSubdomains.

Context `{UrlLib} `{Fetchers}.
Variable opts : Options.
Variable start_url : string.

Lemma enqueue_links_ignores_flag (b : bool) page_links visited
    current_depth queue :
  (∀ l, l ∈ page_links → is_subdomain l = true → is_internal l = true) →
  enqueue_links (with_include_subdomains b opts) page_links visited
    current_depth queue
  = enqueue_links opts page_links visited current_depth queue.
Proof.
  intros Hsub. rewrite !enqueue_links_filter. f_equal. f_equal.
  apply filter_ext_in. intros l Hl%list_elem_of_In.
  unfold crawlable; simpl. f_equal.
  destruct (is_internal l) eqn:Hi; [done|]. simpl.
  destruct (is_subdomain l) eqn:Hs; [|by rewrite !andb_false_r].
  by rewrite (Hsub l Hl Hs) in Hi.
Qed.

Lemma crawl_step_ignores_flag (b : bool) (s : CrawlState) :
  crawl_step (with_include_subdomains b opts) start_url s
  = crawl_step opts start_url s.
Proof.
  unfold crawl_step, fetch_page. simpl.
  destruct (to_visit s) as [|[current_url current_depth] rest]; [done|].
  destruct (_ || _); [done|].
  assert (∀ response,
            extract_links_from_page response current_url
              (base_domain start_url) b
            = extract_links_from_page response current_url
                (base_domain start_url) (include_subdomains opts)) as Hex
    by (intros; apply extraction_ignores_include_subdomains).
  assert (∀ response l,
            l ∈ extract_links_from_page response current_url
                  (base_domain start_url) (include_subdomains opts) →
            is_subdomain l = true → is_internal l = true) as Hsub.
  { intros response l Hl.
    destruct (css response "a") as [els|] eqn:Hcss;
      [|rewrite extract_links_None in Hl by done; by apply elem_of_nil in Hl].
    destruct (extract_links_entry _ _ _ _ _ _ Hcss Hl)
      as (link_info & _ & Hbuild).
    destruct (build_link_Some _ _ _ _ _ _ Hbuild)
      as (_ & _ & _ & _ & _ & _ & _ & _ & _ & Hcl).
    by apply (classify_domain_subdomain_internal (base_domain start_url)
                (domain l) (include_subdomains opts)). }
  match goal with
  | |- match ?f with _ => _ end = _ => destruct f as [response|]
  end; [|done].
  rewrite Hex.
  destruct (current_depth <? depth opts); [|done].
  by rewrite !enqueue_links_ignores_flag by apply Hsub.
Qed.

(** X19. The option [include_subdomains] of [scrape] has no effect:
    whatever it is set to, extraction returns the same links and the
    crawl goes through the same states, to the same result. *)
Theorem include_subdomains_has_no_effect (b : bool) (fuel : nat)
    (s : CrawlState) (response : Response) (current_url : string) :
  extract_links_from_page response current_url (base_domain start_url) b
  = extract_links_from_page response current_url (base_domain start_url)
      (include_subdomains opts)
  ∧ crawl_step (with_include_subdomains b opts) start_url s
    = crawl_step opts start_url s
  ∧ crawl_loop (with_include_subdomains b opts) start_url fuel s
    = crawl_loop opts start_url fuel s.
Proof.
  split; [apply extraction_ignores_include_subdomains|].
  split; [apply crawl_step_ignores_flag|].
  revert s. induction fuel as [|fuel IH]; intros s; simpl.
  - done.
  - change (crawl_guard (with_include_subdomains b opts) s)
      with (crawl_guard opts s).
    destruct (crawl_guard opts s); [|done].
    by rewrite crawl_step_ignores_flag.
Qed.

End IncludeSubdomains.

(** ** LinkValidator *)

Section Validation.

Context `{Prober}.

Lemma validate_loop_from (links : list Link) (st : ValidateState) :
  let final :=
    fold_left
      (fun st link =>
         let i := next_index st in
         match head_request (url link) with
         | inl status_code =>
             mkValidateState (i + 1)
               (validated_links st
                ++ [(link,
                     mkValidation status_code (status_code <? 400) None)])
               (if (0 <? i) && (i mod 10 =? 0) then pauses st ++ [i]
                else pauses st)
         | inr e =>
             mkValidateState (i + 1)
               (validated_links st ++ [(link, mkValidation 0 false (Some e))])
               (pauses st)
         end)
      links st in
  validated_links final
  = validated_links st ++ map (fun l => (l, validation_of l)) links
  ∧ pauses final = pauses st ++ pause_indices (next_index st) links.
Proof.
  revert st. induction links as [|link links IH]; intros st; cbv zeta.
  - simpl. by rewrite !app_nil_r.
  - cbn [fold_left map pause_indices].
    match goal with
    | |- context [fold_left ?f links ?st1] =>
        destruct (IH st1) as [Hv Hp]
    end.
    cbv zeta in Hv, Hp. rewrite Hv, Hp.
    unfold validation_of at 2. unfold probe_ok at 1.
    destruct (head_request (url link)); simpl.
    + destruct ((0 <? next_index st) && (next_index st mod 10 =? 0));
        by rewrite <- !app_assoc.
    + by rewrite <- !app_assoc.
Qed.

Lemma pause_indices_elem (links : list Link) (n i : Z) :
  i ∈ pause_indices n links
  ↔ n ≤ i < n + len links ∧ 0 < i ∧ i mod 10 = 0
    ∧ ∃ l, links !! Z.to_nat (i - n) = Some l ∧ probe_ok l = true.
Proof.
  revert n. induction links as [|link links IH]; intros n.
  - simpl. split; [by intros ?%elem_of_nil|].
    intros (Hr & _). unfold len in Hr. simpl in Hr. lia.
  - cbn [pause_indices]. rewrite elem_of_app, IH.
    assert (len (link :: links) = len links + 1) as ->
      by (unfold len; simpl; lia).
    assert (0 ≤ len links) as Hlen by (unfold len; lia).
    split.
    + intros [Hhere|(Hr & Hpos & Hmod & l & Hl & Hok)].
      * destruct (probe_ok link && (0 <? n) && (n mod 10 =? 0)) eqn:Hc;
          [|by apply elem_of_nil in Hhere].
        apply list_elem_of_singleton in Hhere as ->.
        apply andb_true_iff in Hc as [[Hok Hn0%Z.ltb_lt]%andb_true_iff
                                       Hn10%Z.eqb_eq].
        repeat (split; [lia|]). exists link.
        by rewrite Z.sub_diag.
      * repeat (split; [lia|]). exists l. split; [|done].
        replace (Z.to_nat (i - n)) with (S (Z.to_nat (i - (n + 1)))) by lia.
        done.
    + intros (Hr & Hpos & Hmod & l & Hl & Hok).
      destruct (decide (i = n)) as [->|Hne].
      * left. rewrite Z.sub_diag in Hl. injection Hl as ->.
        rewrite Hok, (proj2 (Z.ltb_lt _ _) Hpos),
          (proj2 (Z.eqb_eq _ _) Hmod). by left.
      * right. repeat (split; [lia|]). exists l. split; [|done].
        replace (Z.to_nat (i - n)) with (S (Z.to_nat (i - (n + 1))))
          in Hl by lia.
        done.
Qed.

(** X20. [validate_links] returns every link of its input once, in the
    input order.  A link whose probe answers with a status gets that
    status, is accessible exactly when the status is below 400 and has no
    error; a link whose probe raises gets status 0, is not accessible and
    carries the text of the exception.  So an accessible link has a
    status below 400 and no error. *)
Theorem validate_links_marks_every_link (links : list Link) :
  map fst (validate_links links) = links
  ∧ ∀ l v, (l, v) ∈ validate_links links →
      match head_request (url l) with
      | inl status =>
          status_code v = status ∧ is_accessible v = (status <? 400)
          ∧ error v = None
      | inr e =>
          status_code v = 0 ∧ is_accessible v = false ∧ error v = Some e
      end
      ∧ (is_accessible v = true ↔ status_code v < 400 ∧ error v = None).
Proof.
  unfold validate_links, validate_loop.
  destruct (validate_loop_from links (mkValidateState 0 [] [])) as [Hv _].
  cbv zeta in Hv. rewrite Hv. simpl. split.
  - rewrite map_map. simpl. apply map_id.
  - intros l v (l' & [= <- ->] & _)%list_elem_of_fmap.
    unfold validation_of. destruct (head_request (url l)) as [status|e];
      simpl.
    + split; [done|]. rewrite Z.ltb_lt. split; [done | by intros [? _]].
    + split; [done|]. split; [done | by intros [_ ?]].
Qed.

(** X21. The loop of [validate_links] sleeps exactly after a probe that
    succeeded and whose index is a positive multiple of 10; after a probe
    that raised it does not sleep. *)
Theorem validate_links_pauses (links : list Link) (i : Z) :
  i ∈ pauses (validate_loop links)
  ↔ 0 < i < len links ∧ i mod 10 = 0
    ∧ ∃ l, links !! Z.to_nat i = Some l ∧ probe_ok l = true.
Proof.
  unfold validate_loop.
  destruct (validate_loop_from links (mkValidateState 0 [] [])) as [_ Hp].
  cbv zeta in Hp. rewrite Hp. simpl. rewrite pause_indices_elem.
  rewrite Z.sub_0_r. split.
  - intros (Hr & Hpos & Hmod & Hl). by repeat (split; [lia|]).
  - intros (Hr & Hmod & Hl). by repeat (split; [lia|]).
Qed.

End Validation.

(** ** The preview table *)





(** ** Comments *)

Lemma rstrip_idem (s : string) : Py.rstrip (Py.rstrip s) = Py.rstrip s.
Proof.
  induction s as [|c s IH]; [done|].
  cbn [Py.rstrip].
  destruct (Py.rstrip s) as [|d r] eqn:Hr.
  - destruct (Py.is_space c) eqn:Hc; [done|].
    cbn [Py.rstrip]. by rewrite Hc.
  - cbn [Py.rstrip] in IH |- *. by rewrite IH.
Qed.

Lemma lstrip_rstrip_lstrip (s : string) :
  Py.lstrip (Py.rstrip (Py.lstrip s)) = Py.rstrip (Py.lstrip s).
Proof.
  induction s as [|c s IH]; [done|].
  cbn [Py.lstrip].
  destruct (Py.is_space c) eqn:Hc; [done|].
  cbn [Py.rstrip].
  destruct (Py.rstrip s); rewrite ?Hc; cbn [Py.lstrip]; by rewrite ?Hc.
Qed.

Lemma strip_idem (s : string) : Py.strip (Py.strip s) = Py.strip s.
Proof.
  unfold Py.strip. by rewrite lstrip_rstrip_lstrip, rstrip_idem.
Qed.

Lemma count_char_take (c : ascii) (n : nat) (s : string) :
  (count_char c (Py.take n s) ≤ count_char c s)%nat.
Proof.
  revert s. induction n as [|n IH]; intros [|a s]; simpl; try lia.
  specialize (IH s). lia.
Qed.

(** The comment made of a match, if its text is not blank. *)
Lemma comments_of_matches_omap (kind text : string) (matches : list Match) :
  comments_of_matches kind text matches
  = omap (fun m =>
            let comment_text := Py.strip (match_group m) in
            if String.eqb comment_text "" then None
            else Some (mkComment kind comment_text
                         (Z.of_nat (count_char "010"
                                      (Py.take (match_start m) text)) + 1)
                         (Z.of_nat (match_start m)) None))
      matches.
Proof.
  unfold comments_of_matches.
  set (f := fun (comments : list Comment) (m : Match) => _).
  set (g := fun m : Match => _).
  assert (∀ acc, fold_left f matches acc = acc ++ omap g matches) as Hacc;
    [|apply Hacc].
  induction matches as [|m ms IH]; intros acc; cbn [fold_left].
  - by rewrite app_nil_r.
  - rewrite IH.
    change (omap g (m :: ms))
      with (match g m with Some c => c :: omap g ms | None => omap g ms end).
    unfold f at 1, g at 2. cbv beta zeta.
    destruct (String.eqb (Py.strip (match_group m)) ""); [done|].
    by rewrite <- app_assoc.
Qed.

Lemma comments_of_matches_fields (kind text : string)
    (matches : list Match) (c : Comment) :
  c ∈ comments_of_matches kind text matches →
  comment_kind c = kind
  ∧ content c ≠ ""
  ∧ Py.strip (content c) = content c
  ∧ (∃ m, m ∈ matches ∧ content c = Py.strip (match_group m)
          ∧ position c = Z.of_nat (match_start m))
  ∧ line_start c
    = 1 + Z.of_nat (count_char "010" (Py.take (Z.to_nat (position c)) text))
  ∧ 1 ≤ line_start c ≤ 1 + Z.of_nat (count_char "010" text)
  ∧ location c = None.
Proof.
  rewrite comments_of_matches_omap.
  intros (m & Hm & Hc)%list_elem_of_omap. cbv zeta in Hc.
  destruct (String.eqb_spec (Py.strip (match_group m)) "") as [|Hne];
    [done|].
  injection Hc as <-. cbn [comment_kind content line_start position location].
  rewrite Nat2Z.id.
  pose proof (count_char_take "010" (match_start m) text).
  split; [done|]. split; [done|]. split; [apply strip_idem|].
  split; [by exists m|]. split; [lia|]. split; [lia | done].
Qed.

(** X23. Every comment that [extract_html_comments] or
    [extract_js_comments] reports of a text has a content that is not
    empty and carries no white space at either end: a comment that is
    blank is dropped.  Its content is the trimmed group of one match of the
    pattern and its position the start of that match; its line is one more
    than the number of line breaks before that position, so between 1 and
    the number of lines of the text; its type is the one of its pattern,
    and it has no location yet.  This holds whatever the matches are. *)
Theorem extracted_comment_fields `{Regex} (text : string) (c : Comment) :
  c ∈ extract_html_comments text ∨ c ∈ extract_js_comments text →
  content c ≠ ""
  ∧ Py.strip (content c) = content c
  ∧ (∃ pattern m,
       m ∈ finditer pattern text
       ∧ content c = Py.strip (match_group m)
       ∧ position c = Z.of_nat (match_start m)
       ∧ comment_kind c
         = match pattern with
           | html_comment_pattern => "html"
           | single_line_pattern => "javascript_single"
           | multi_line_pattern => "javascript_multi"
           end
       ∧ (c ∈ extract_html_comments text ↔ pattern = html_comment_pattern))
  ∧ line_start c
    = 1 + Z.of_nat (count_char "010" (Py.take (Z.to_nat (position c)) text))
  ∧ 1 ≤ line_start c ≤ 1 + Z.of_nat (count_char "010" text)
  ∧ location c = None.
Proof.
  intros Hc.
  assert (∃ pattern kind,
            c ∈ comments_of_matches kind text (finditer pattern text)
            ∧ kind = match pattern with
                     | html_comment_pattern => "html"
                     | single_line_pattern => "javascript_single"
                     | multi_line_pattern => "javascript_multi"
                     end) as (pattern & kind & Hin & Hkind).
  { destruct Hc as [Hc|Hc].
    - by exists html_comment_pattern, "html".
    - unfold extract_js_comments in Hc.
      apply elem_of_app in Hc as [Hc|Hc].
      + by exists single_line_pattern, "javascript_single".
      + by exists multi_line_pattern, "javascript_multi". }
  destruct (comments_of_matches_fields _ _ _ _ Hin)
    as (Hk & Hne & Hstrip & (m & Hm & Hcm & Hpos) & Hline & Hrange & Hloc).
  split; [done|]. split; [done|]. split; [|done].
  exists pattern, m. split; [done|]. split; [done|]. split; [done|].
  split; [congruence|].
  split.
  - intros Hhtml.
    apply comments_of_matches_fields in Hhtml as (Hk' & _).
    rewrite Hk, Hkind in Hk'. by destruct pattern.
  - intros ->. by rewrite Hkind in Hin.
Qed.

Lemma extracted_comment_fields_witness :
  let c := mkComment "javascript_multi"
             ("two" +:+ String "010" " lines") 2 22 None in
  (c ∈ extract_html_comments Commented.script
   ∨ c ∈ extract_js_comments Commented.script)
  ∧ content c ≠ ""
  ∧ 1 ≤ line_start c ≤ 1 + Z.of_nat (count_char "010" Commented.script).
Proof.
  intros c.
  assert (c ∈ extract_html_comments Commented.script
          ∨ c ∈ extract_js_comments Commented.script) as Hc.
  { right. vm_compute. right. left. }
  split; [exact Hc|].
  pose proof (extracted_comment_fields Commented.script c Hc) as HX.
  split; [exact (proj1 HX) | exact (proj1 (proj2 (proj2 (proj2 (proj2 HX)))))].
Defined.











(** ** Extraction by rules *)

Lemma dict_set_fresh {V} (k : string) (v : V) (d : list (string * V)) :
  k ∉ map fst d → dict_set k v d = d ++ [(k, v)].
Proof.
  induction d as [|[k0 v0] d IH]; cbn [dict_set map fst app]; [done|].
  intros Hk. apply not_elem_of_cons in Hk as [Hne Hk].
  rewrite (proj2 (String.eqb_neq k0 k)) by done.
  by rewrite IH.
Qed.

Lemma omap_keys_subset (response : Response) (rules : list (string * Rule))
    (k : string) :
  k ∈ map fst (omap (field_of_rule response) rules) → k ∈ map fst rules.
Proof.
  intros ([k' v] & -> & Hin)%list_elem_of_fmap.
  apply list_elem_of_omap in Hin as ([field rule] & Hin & Hf).
  unfold field_of_rule in Hf. cbn [fst snd] in Hf.
  destruct (apply_rule response rule); [|done].
  injection Hf as <- <-.
  apply list_elem_of_fmap. by exists (field, rule).
Qed.

Lemma extract_fields_omap (response : Response)
    (rules : list (string * Rule)) :
  NoDup (map fst rules) →
  extract_fields response rules = omap (field_of_rule response) rules.
Proof.
  unfold extract_fields.
  set (f := fun (results : list (string * FieldValue))
                (item : string * Rule) => _).
  assert (∀ rules acc,
            NoDup (map fst rules) →
            (∀ k, k ∈ map fst acc → k ∉ map fst rules) →
            fold_left f rules acc
            = acc ++ omap (field_of_rule response) rules) as Hacc.
  { clear rules. induction rules as [|[field rule] rules IH];
      intros acc Hnd Hacc; cbn [fold_left].
    - by rewrite app_nil_r.
    - cbn [map fst] in Hnd. apply NoDup_cons in Hnd as [Hfresh Hnd].
      change (omap (field_of_rule response) ((field, rule) :: rules))
        with (match field_of_rule response (field, rule) with
              | Some x => x :: omap (field_of_rule response) rules
              | None => omap (field_of_rule response) rules
              end).
      unfold f at 2, field_of_rule at 1. cbn [fst snd].
      destruct (apply_rule response rule) as [value|].
      + rewrite dict_set_fresh.
        2:{ intros Hin. apply (Hacc _ Hin). left. }
        rewrite IH; [by rewrite <- app_assoc | done |].
        intros k. rewrite map_app, elem_of_app. cbn [map fst].
        intros [Hk| ->%list_elem_of_singleton]; [|done].
        intros Hin. apply (Hacc _ Hk). by right.
      + apply IH; [done|].
        intros k Hk Hin. apply (Hacc _ Hk). by right. }
  intros Hnd. rewrite Hacc; [done | done |].
  by intros k ?%elem_of_nil.
Qed.

(** X26. For rules with distinct field names, as the items of a JSON
    object are, the result of [extract] has one field for each rule that
    names a non-empty selector, in the order of the rules, and no other;
    the value of a field is made by its own rule alone.  A rule without
    selector leaves no trace, not even a null. *)
Theorem extract_fields_by_rule (response : Response)
    (rules : list (string * Rule)) :
  NoDup (map fst rules) →
  let results := extract_fields response rules in
  map fst results
  = map fst
      (List.filter
         (fun item =>
            match rule_selector (snd item) with
            | Some selector => negb (String.eqb selector "")
            | None => false
            end)
         rules)
  ∧ (∀ field rule,
       (field, rule) ∈ rules →
       dict_get field results = apply_rule response rule)
  ∧ (∀ field, field ∉ map fst rules → dict_get field results = None).
Proof.
  intros Hnd results.
  assert (results = omap (field_of_rule response) rules) as Hres
    by by apply extract_fields_omap.
  assert (NoDup (map fst results)) as Hnd'.
  { rewrite Hres. clear Hres results.
    induction rules as [|[field rule] rules IH]; [constructor|].
    cbn [map fst] in Hnd. apply NoDup_cons in Hnd as [Hfresh Hnd].
    change (omap (field_of_rule response) ((field, rule) :: rules))
      with (match field_of_rule response (field, rule) with
            | Some x => x :: omap (field_of_rule response) rules
            | None => omap (field_of_rule response) rules
            end).
    unfold field_of_rule at 1. cbn [fst snd].
    destruct (apply_rule response rule); [|by apply IH].
    cbn [map fst]. apply NoDup_cons. split; [|by apply IH].
    intros Hin%omap_keys_subset. done. }
  split; [|split].
  - rewrite Hres. clear.
    induction rules as [|[field rule] rules IH]; [done|].
    change (omap (field_of_rule response) ((field, rule) :: rules))
      with (match field_of_rule response (field, rule) with
            | Some x => x :: omap (field_of_rule response) rules
            | None => omap (field_of_rule response) rules
            end).
    cbn [List.filter snd].
    unfold field_of_rule at 1, apply_rule, given. cbn [fst snd].
    destruct (rule_selector rule) as [selector|]; [|done].
    destruct (String.eqb selector ""); [done|].
    cbn [negb map fst].
    destruct (css response selector) as [elements|];
      [destruct (rule_all rule); [|destruct elements]|];
      cbn [map fst]; by rewrite IH.
  - intros field rule Hin.
    destruct (apply_rule response rule) as [value|] eqn:Hrule.
    + apply dict_get_elem_of; [done|].
      rewrite Hres. apply list_elem_of_omap. exists (field, rule).
      split; [done|]. unfold field_of_rule. cbn [fst snd]. by rewrite Hrule.
    + destruct (dict_get field results) as [value|] eqn:Hget; [|done].
      apply dict_get_Some_elem_of in Hget. rewrite Hres in Hget.
      apply list_elem_of_omap in Hget as ([field' rule'] & Hin' & Hf).
      unfold field_of_rule in Hf. cbn [fst snd] in Hf.
      destruct (apply_rule response rule') eqn:Hrule'; [|done].
      injection Hf as -> <-.
      assert (rule' = rule) as ->; [|congruence].
      clear -Hnd Hin Hin'.
      induction rules as [|[k r] rules IH]; [by apply elem_of_nil in Hin|].
      cbn [map fst] in Hnd. apply NoDup_cons in Hnd as [Hfresh Hnd].
      apply elem_of_cons in Hin as [Heq|Hin];
        apply elem_of_cons in Hin' as [Heq'|Hin'].
      * congruence.
      * injection Heq as -> ->. destruct Hfresh.
        apply list_elem_of_fmap. by exists (k, rule').
      * injection Heq' as -> ->. destruct Hfresh.
        apply list_elem_of_fmap. by exists (k, rule).
      * by apply IH.
  - intros field Hfresh.
    destruct (dict_get field results) as [value|] eqn:Hget; [|done].
    apply dict_get_Some_elem_of in Hget. destruct Hfresh.
    apply (omap_keys_subset response). rewrite <- Hres.
    apply list_elem_of_fmap. by exists (field, value).
Qed.

Lemma extract_fields_by_rule_witness :
  NoDup (map fst Product.rules)
  ∧ map fst (extract_fields Product.page Product.rules)
    = ["title"; "images"; "price"; "notes"; "broken"]
  ∧ dict_get "images" (extract_fields Product.page Product.rules)
    = Some (Many ["a.png"; ""]).
Proof.
  assert (NoDup (map fst Product.rules)) as Hnd.
  { vm_compute. repeat (apply NoDup_cons_2; [compute_done|]).
    apply NoDup_nil_2. }
  split; [exact Hnd|].
  pose proof (extract_fields_by_rule Product.page Product.rules Hnd) as HX.
  cbv zeta in HX. destruct HX as (Hkeys & Hget & _).
  split; [exact Hkeys|].
  apply (Hget "images" (mkRule (Some "img") (Some "src") true)).
  right. left.
Defined.


